(** * Jobs4uAI: the job aggregation pipeline

    A shallow embedding of [backend/src/services/jobAggregator.ts],
    [backend/src/services/jobApis/linkedinAPI.ts] and the [Job] model
    ([backend/src/models/Job.ts]).

    Conventions of the embedding:
    - a JavaScript string is a [string] of 8-bit characters; [toUpperCase]
      changes the letters a-z and leaves every other character alone;
    - a [Date] is its number of milliseconds since the epoch, a [Z]; the
      server clock runs in UTC, so that [setDate(getDate() - 21)] moves a
      date back by 21 * 24 hours;
    - the collection of [Job] documents is the list of the stored documents
      in insertion order, together with the next free [_id];
    - a call that may throw returns an [option]; [None] is the exception. *)

From Stdlib Require Import ZArith String Ascii List Bool Lia Sorting Permutation.
From stdpp Require Import base gmap sets list strings.

Local Open Scope string_scope.
Local Open Scope list_scope.

(** ** Strings *)

Module Str.

(** [String.prototype.toUpperCase] on one character. *)
Definition upperChar (c : ascii) : ascii :=
  let n := nat_of_ascii c in
  if (97 <=? n)%nat && (n <=? 122)%nat then ascii_of_nat (n - 32) else c.

Fixpoint toUpperCase (s : string) : string :=
  match s with
  | EmptyString => EmptyString
  | String c s' => String (upperChar c) (toUpperCase s')
  end.

Definition lowerChar (c : ascii) : ascii :=
  let n := nat_of_ascii c in
  if (65 <=? n)%nat && (n <=? 90)%nat then ascii_of_nat (n + 32) else c.

Fixpoint toLowerCase (s : string) : string :=
  match s with
  | EmptyString => EmptyString
  | String c s' => String (lowerChar c) (toLowerCase s')
  end.

(** [s.startsWith(p)]. *)
Fixpoint startsWith (s p : string) : bool :=
  match p, s with
  | EmptyString, _ => true
  | String _ _, EmptyString => false
  | String a p', String b s' => Ascii.eqb a b && startsWith s' p'
  end.

(** [s.includes(sub)]: [sub] occurs in [s] at some position. *)
Fixpoint includes (s sub : string) : bool :=
  startsWith s sub ||
  match s with
  | EmptyString => false
  | String _ s' => includes s' sub
  end.

(** Truthiness of a string: the empty string is falsy. *)
Definition truthy (s : string) : bool :=
  match s with EmptyString => false | _ => true end.

(** [s || d] for strings. *)
Definition orElse (s d : string) : string := if truthy s then s else d.

(** [s1 === s2]. *)
Definition eqs (s1 s2 : string) : bool := String.eqb s1 s2.

(** White space removed by [String.prototype.trim]. *)
Definition isSpace (c : ascii) : bool :=
  let n := nat_of_ascii c in
  ((9 <=? n)%nat && (n <=? 13)%nat) || (n =? 32)%nat.

Fixpoint trimStart (s : string) : string :=
  match s with
  | String c s' => if isSpace c then trimStart s' else s
  | EmptyString => EmptyString
  end.

Fixpoint trimEnd (s : string) : string :=
  match s with
  | EmptyString => EmptyString
  | String c s' =>
    let r := trimEnd s' in
    if isSpace c && negb (truthy r) then EmptyString else String c r
  end.

Definition trim (s : string) : string := trimEnd (trimStart s).

(** [o || d] where [o] may be [undefined]. *)
Definition optOrElse (o : option string) (d : string) : string :=
  match o with Some s => orElse s d | None => d end.

End Str.

(** ** JobAggregatorService.mapEmploymentType *)

(** The argument is [type?: string]: [None] is [undefined]. *)
Definition mapEmploymentType (type : option string) : string :=
  match type with
  | None => "FULL_TIME"
  | Some t =>
    if negb (Str.truthy t) then "FULL_TIME" else
    let typeUpper := Str.toUpperCase t in
    if Str.includes typeUpper "FULL" then "FULL_TIME"
    else if Str.includes typeUpper "PART" then "PART_TIME"
    else if Str.includes typeUpper "CONTRACT" then "CONTRACT"
    else if Str.includes typeUpper "INTERN" then "INTERNSHIP"
    else if Str.includes typeUpper "TEMP" then "TEMPORARY"
    else "FULL_TIME"
  end.

(** The [enum] of [employmentType] in the [Job] schema. *)
Definition employmentTypeEnum : list string :=
  ["FULL_TIME"; "PART_TIME"; "CONTRACT"; "INTERNSHIP"; "TEMPORARY"].

(** ** The data model *)

Record VisaSponsorship := {
  h1b : bool;
  opt : bool;
  stemOpt : bool
}.

Definition noVisa : VisaSponsorship :=
  {| h1b := false; opt := false; stemOpt := false |}.

(** A stored [Job] document (interface [IJob]).  The salary fields, the
    company logo, the university name, [requirements], [responsibilities],
    [industryTags] and the two mongoose timestamps are left out: no
    operation below reads them. *)
Record IJob := {
  _id : nat;
  title : string;
  company : string;
  location : string;
  description : string;
  employmentType : string;
  experienceLevel : string;
  remote : bool;
  visaSponsorship : VisaSponsorship;
  source : string;
  sourceJobId : string;
  sourceUrl : string;
  isUniversityJob : bool;
  isCampusExclusive : bool;
  postedDate : Z;
  applicationUrl : string;
  skillsRequired : list string;
  views : nat;
  applications : nat;
  isActive : bool;
  isFeatured : bool;
  lastRefreshed : Z
}.

(** The object literal [jobDoc] built by the three save functions.  A field
    that a save function does not write is [None]. *)
Module JobDoc.
Record t := {
  title : string;
  company : string;
  location : string;
  description : string;
  employmentType : string;
  experienceLevel : option string;
  remote : bool;
  visaSponsorship : VisaSponsorship;
  source : string;
  sourceJobId : string;
  sourceUrl : string;
  isUniversityJob : bool;
  isCampusExclusive : option bool;
  postedDate : Z;
  applicationUrl : string;
  skillsRequired : list string;
  isActive : bool;
  isFeatured : bool;
  lastRefreshed : Z
}.
End JobDoc.

(** [JobApiResponse] of [jobApis/types], as [saveJob] reads it: the fields
    it guards with [||] or [?.] are optional. *)
Module Api.
Record JobApiResponse := {
  id : string;
  source : string;
  title : option string;
  company : option string;
  location : option string;
  description : option string;
  employmentType : option string;
  remote : option bool;
  visaSponsorship : option VisaSponsorship;
  url : option string;
  postedDate : option Z;
  skills : option (list string)
}.
End Api.

(** [TransformedJob] of [handshakeAPI.ts]. *)
Module Handshake.
Record TransformedJob := {
  sourceJobId : string;
  source : string;
  title : string;
  company : string;
  location : string;
  description : string;
  remote : bool;
  employmentType : string;
  postedDate : Z;
  url : string;
  isCampusExclusive : option bool;
  experienceLevel : option string;
  skills : option (list string)
}.
End Handshake.

(** [LinkedInJob] and [TransformedJob] of [linkedinAPI.ts].  [date_posted]
    holds what [new Date(date_posted)] and the relative-time pattern make
    of the text: [None] when neither applies. *)
Module LinkedInApi.
Record LinkedInJob := {
  id : string;
  title : string;
  organization : string;
  locations_derived : option (list string);
  date_posted : option Z;
  employment_type : option (list string);
  url : string;
  description_text : option string;
  external_apply_url : option string;
  seniority : option string;
  remote_derived : option bool
}.
End LinkedInApi.

Module LinkedIn.
Record TransformedJob := {
  sourceJobId : string;
  source : string;
  title : string;
  company : string;
  location : string;
  description : string;
  remote : bool;
  employmentType : string;
  postedDate : Z;
  applicationUrl : string;
  experienceLevel : option string;
  skills : option (list string)
}.
End LinkedIn.

(** ** The [Job] collection *)

(** An [ObjectId] is the rank of the document among those ever created. *)
Record Collection := {
  docs : list IJob;
  nextId : nat
}.

Definition emptyCollection : Collection := {| docs := []; nextId := 0 |}.

Definition experienceLevelEnum : list string :=
  ["ENTRY"; "MID"; "SENIOR"; "LEAD"; "EXECUTIVE"].

Definition sourceEnum : list string :=
  ["USAJOBS"; "REMOTEOK"; "ARBEITNOW"; "CAREERJET"; "JOOBLE"; "UNIVERSITY";
   "HANDSHAKE"; "HANDSHAKE-MOCK"; "LINKEDIN"; "LINKEDIN-MOCK"; "MANUAL"].

Definition inEnum (s : string) (e : list string) : bool :=
  existsb (Str.eqs s) e.

(** The schema's setters: [trim: true] on [title], [company], [location]. *)
Definition castDoc (d : JobDoc.t) : JobDoc.t :=
  {| JobDoc.title := Str.trim (JobDoc.title d);
     JobDoc.company := Str.trim (JobDoc.company d);
     JobDoc.location := Str.trim (JobDoc.location d);
     JobDoc.description := JobDoc.description d;
     JobDoc.employmentType := JobDoc.employmentType d;
     JobDoc.experienceLevel := JobDoc.experienceLevel d;
     JobDoc.remote := JobDoc.remote d;
     JobDoc.visaSponsorship := JobDoc.visaSponsorship d;
     JobDoc.source := JobDoc.source d;
     JobDoc.sourceJobId := JobDoc.sourceJobId d;
     JobDoc.sourceUrl := JobDoc.sourceUrl d;
     JobDoc.isUniversityJob := JobDoc.isUniversityJob d;
     JobDoc.isCampusExclusive := JobDoc.isCampusExclusive d;
     JobDoc.postedDate := JobDoc.postedDate d;
     JobDoc.applicationUrl := JobDoc.applicationUrl d;
     JobDoc.skillsRequired := JobDoc.skillsRequired d;
     JobDoc.isActive := JobDoc.isActive d;
     JobDoc.isFeatured := JobDoc.isFeatured d;
     JobDoc.lastRefreshed := JobDoc.lastRefreshed d |}.

(** The schema's validators, run by [Job.create]: a [required] string must
    not be empty, an [enum] field must hold one of the listed values. *)
Definition schemaValid (d : JobDoc.t) : bool :=
  Str.truthy (JobDoc.title d) &&
  Str.truthy (JobDoc.company d) &&
  Str.truthy (JobDoc.location d) &&
  Str.truthy (JobDoc.description d) &&
  inEnum (JobDoc.employmentType d) employmentTypeEnum &&
  match JobDoc.experienceLevel d with
  | Some l => inEnum l experienceLevelEnum
  | None => true
  end &&
  inEnum (JobDoc.source d) sourceEnum &&
  Str.truthy (JobDoc.sourceJobId d) &&
  Str.truthy (JobDoc.sourceUrl d) &&
  Str.truthy (JobDoc.applicationUrl d).

(** The filter [{ source, sourceJobId }]. *)
Definition sameKey (src sid : string) (j : IJob) : bool :=
  Str.eqs (source j) src && Str.eqs (sourceJobId j) sid.

Definition keyOf (j : IJob) : string * string := (source j, sourceJobId j).

(** [Job.findOne({ source, sourceJobId })]. *)
Definition findOne (src sid : string) (c : Collection) : option IJob :=
  List.find (sameKey src sid) (docs c).

(** A new document: the fields of [jobDoc], the schema's defaults for the
    others. *)
Definition newJob (i : nat) (d : JobDoc.t) : IJob :=
  {| _id := i;
     title := JobDoc.title d;
     company := JobDoc.company d;
     location := JobDoc.location d;
     description := JobDoc.description d;
     employmentType := JobDoc.employmentType d;
     experienceLevel := default "MID" (JobDoc.experienceLevel d);
     remote := JobDoc.remote d;
     visaSponsorship := JobDoc.visaSponsorship d;
     source := JobDoc.source d;
     sourceJobId := JobDoc.sourceJobId d;
     sourceUrl := JobDoc.sourceUrl d;
     isUniversityJob := JobDoc.isUniversityJob d;
     isCampusExclusive := default false (JobDoc.isCampusExclusive d);
     postedDate := JobDoc.postedDate d;
     applicationUrl := JobDoc.applicationUrl d;
     skillsRequired := JobDoc.skillsRequired d;
     views := 0;
     applications := 0;
     isActive := JobDoc.isActive d;
     isFeatured := JobDoc.isFeatured d;
     lastRefreshed := JobDoc.lastRefreshed d |}.

(** The update [$set]s the fields of [jobDoc] and keeps the others. *)
Definition applyUpdate (d : JobDoc.t) (j : IJob) : IJob :=
  {| _id := _id j;
     title := JobDoc.title d;
     company := JobDoc.company d;
     location := JobDoc.location d;
     description := JobDoc.description d;
     employmentType := JobDoc.employmentType d;
     experienceLevel := default (experienceLevel j) (JobDoc.experienceLevel d);
     remote := JobDoc.remote d;
     visaSponsorship := JobDoc.visaSponsorship d;
     source := JobDoc.source d;
     sourceJobId := JobDoc.sourceJobId d;
     sourceUrl := JobDoc.sourceUrl d;
     isUniversityJob := JobDoc.isUniversityJob d;
     isCampusExclusive := default (isCampusExclusive j) (JobDoc.isCampusExclusive d);
     postedDate := JobDoc.postedDate d;
     applicationUrl := JobDoc.applicationUrl d;
     skillsRequired := JobDoc.skillsRequired d;
     views := views j;
     applications := applications j;
     isActive := JobDoc.isActive d;
     isFeatured := JobDoc.isFeatured d;
     lastRefreshed := JobDoc.lastRefreshed d |}.

(** The unique index [{ source: 1, sourceJobId: 1 }]: a write that would
    give the key of [d] to a second document (one whose [_id] is not [i])
    is refused. *)
Definition keyTaken (d : JobDoc.t) (i : option nat) (l : list IJob) : bool :=
  existsb (fun j => sameKey (JobDoc.source d) (JobDoc.sourceJobId d) j &&
                    match i with Some n => negb (_id j =? n)%nat | None => true end) l.

(** [Job.create(jobDoc)]: [None] when it throws. *)
Definition create (d : JobDoc.t) (c : Collection) : option Collection :=
  let d' := castDoc d in
  if schemaValid d' && negb (keyTaken d' None (docs c))
  then Some {| docs := docs c ++ [newJob (nextId c) d']; nextId := S (nextId c) |}
  else None.

(** The first document whose [_id] is [i], changed by [f]. *)
Fixpoint updateById (i : nat) (f : IJob -> IJob) (l : list IJob) : list IJob :=
  match l with
  | [] => []
  | j :: l' => if (_id j =? i)%nat then f j :: l' else j :: updateById i f l'
  end.

(** [Job.findByIdAndUpdate(id, jobDoc)]: validators do not run on an update,
    setters and the unique index do; [None] when it throws. *)
Definition findByIdAndUpdate (i : nat) (d : JobDoc.t) (c : Collection) : option Collection :=
  let d' := castDoc d in
  match List.find (fun j => (_id j =? i)%nat) (docs c) with
  | None => Some c
  | Some _ =>
    if keyTaken d' (Some i) (docs c) then None
    else Some {| docs := updateById i (applyUpdate d') (docs c); nextId := nextId c |}
  end.

(** ** JobAggregatorService: the three save functions *)

(** [try { ... } catch (error) { logger.error(...) }] around a database
    write: a write that throws leaves the collection as it was. *)
Definition tryWrite (r : option Collection) (c : Collection) : Collection :=
  match r with Some c' => c' | None => c end.

(** The tail shared by the three save functions:
    [if (existingJob) findByIdAndUpdate(existingJob._id, jobDoc) else create(jobDoc)]. *)
Definition upsert (existingJob : option IJob) (jobDoc : JobDoc.t) (c : Collection) : Collection :=
  match existingJob with
  | Some e => tryWrite (findByIdAndUpdate (_id e) jobDoc c) c
  | None => tryWrite (create jobDoc c) c
  end.

Definition saveJobDoc (now : Z) (jobData : Api.JobApiResponse) : JobDoc.t :=
  {| JobDoc.title := Str.optOrElse (Api.title jobData) "Untitled Position";
     JobDoc.company := Str.optOrElse (Api.company jobData) "Unknown Company";
     JobDoc.location := Str.optOrElse (Api.location jobData) "Not Specified";
     JobDoc.description := Str.optOrElse (Api.description jobData) EmptyString;
     JobDoc.employmentType := mapEmploymentType (Api.employmentType jobData);
     JobDoc.experienceLevel := None;
     JobDoc.remote := default false (Api.remote jobData);
     JobDoc.visaSponsorship := default noVisa (Api.visaSponsorship jobData);
     JobDoc.source := Str.toUpperCase (Api.source jobData);
     JobDoc.sourceJobId := Api.id jobData;
     JobDoc.sourceUrl := Str.optOrElse (Api.url jobData) EmptyString;
     JobDoc.isUniversityJob := false;
     JobDoc.isCampusExclusive := None;
     JobDoc.postedDate := default now (Api.postedDate jobData);
     JobDoc.applicationUrl := Str.optOrElse (Api.url jobData) EmptyString;
     JobDoc.skillsRequired := default [] (Api.skills jobData);
     JobDoc.isActive := true;
     JobDoc.isFeatured := false;
     JobDoc.lastRefreshed := now |}.

(** [saveJob]; [now] is the reading of [new Date()]. *)
Definition saveJob (now : Z) (jobData : Api.JobApiResponse) (c : Collection) : Collection :=
  let existingJob := findOne (Str.toUpperCase (Api.source jobData)) (Api.id jobData) c in
  upsert existingJob (saveJobDoc now jobData) c.

(** [jobData.experienceLevel?.toUpperCase() || 'ENTRY']. *)
Definition upperLevel (l : option string) : string :=
  match l with
  | Some s => Str.orElse (Str.toUpperCase s) "ENTRY"
  | None => "ENTRY"
  end.

Definition saveHandshakeJobDoc (now : Z) (jobData : Handshake.TransformedJob) : JobDoc.t :=
  {| JobDoc.title := Str.orElse (Handshake.title jobData) "Untitled Position";
     JobDoc.company := Str.orElse (Handshake.company jobData) "Unknown Company";
     JobDoc.location := Str.orElse (Handshake.location jobData) "Not Specified";
     JobDoc.description := Handshake.description jobData;
     JobDoc.employmentType := mapEmploymentType (Some (Handshake.employmentType jobData));
     JobDoc.experienceLevel := Some (upperLevel (Handshake.experienceLevel jobData));
     JobDoc.remote := Handshake.remote jobData;
     JobDoc.visaSponsorship := {| h1b := false; opt := false; stemOpt := false |};
     JobDoc.source := Handshake.source jobData;
     JobDoc.sourceJobId := Handshake.sourceJobId jobData;
     JobDoc.sourceUrl := Handshake.url jobData;
     JobDoc.isUniversityJob := true;
     JobDoc.isCampusExclusive := Some (default false (Handshake.isCampusExclusive jobData));
     JobDoc.postedDate := Handshake.postedDate jobData;
     JobDoc.applicationUrl := Handshake.url jobData;
     JobDoc.skillsRequired := default [] (Handshake.skills jobData);
     JobDoc.isActive := true;
     JobDoc.isFeatured := false;
     JobDoc.lastRefreshed := now |}.

Definition saveHandshakeJob (now : Z) (jobData : Handshake.TransformedJob) (c : Collection) : Collection :=
  let existingJob := findOne (Handshake.source jobData) (Handshake.sourceJobId jobData) c in
  upsert existingJob (saveHandshakeJobDoc now jobData) c.

(** [jobData.experienceLevel === 'ENTRY']. *)
Definition levelIs (l : option string) (v : string) : bool :=
  match l with Some s => Str.eqs s v | None => false end.

Definition saveLinkedInJobDoc (now : Z) (jobData : LinkedIn.TransformedJob) : JobDoc.t :=
  {| JobDoc.title := Str.orElse (LinkedIn.title jobData) "Untitled Position";
     JobDoc.company := Str.orElse (LinkedIn.company jobData) "Unknown Company";
     JobDoc.location := Str.orElse (LinkedIn.location jobData) "Not Specified";
     JobDoc.description := LinkedIn.description jobData;
     JobDoc.employmentType := mapEmploymentType (Some (LinkedIn.employmentType jobData));
     JobDoc.experienceLevel := Some (upperLevel (LinkedIn.experienceLevel jobData));
     JobDoc.remote := LinkedIn.remote jobData;
     JobDoc.visaSponsorship := {| h1b := false; opt := false; stemOpt := false |};
     JobDoc.source := LinkedIn.source jobData;
     JobDoc.sourceJobId := LinkedIn.sourceJobId jobData;
     JobDoc.sourceUrl := LinkedIn.applicationUrl jobData;
     JobDoc.isUniversityJob :=
       Str.eqs (LinkedIn.employmentType jobData) "INTERNSHIP" ||
       levelIs (LinkedIn.experienceLevel jobData) "ENTRY";
     JobDoc.isCampusExclusive := Some false;
     JobDoc.postedDate := LinkedIn.postedDate jobData;
     JobDoc.applicationUrl := LinkedIn.applicationUrl jobData;
     JobDoc.skillsRequired := default [] (LinkedIn.skills jobData);
     JobDoc.isActive := true;
     JobDoc.isFeatured := false;
     JobDoc.lastRefreshed := now |}.

Definition saveLinkedInJob (now : Z) (jobData : LinkedIn.TransformedJob) (c : Collection) : Collection :=
  let existingJob := findOne (LinkedIn.source jobData) (LinkedIn.sourceJobId jobData) c in
  upsert existingJob (saveLinkedInJobDoc now jobData) c.

(** ** JobAggregatorService.aggregateJobs *)

Definition services : list string :=
  ["usajobs"; "remoteok"; "arbeitnow"; "jooble"; "careerjet"].

(** What the outside world answers during one run: [None] is a fetch that
    throws. *)
Record Sources := {
  fetchJobs : string -> option (list Api.JobApiResponse);
  fetchHandshakeJobs : option (list Handshake.TransformedJob);
  fetchLinkedIn : option (list LinkedIn.TransformedJob)
}.

(** State of a run: the collection and the counter [totalSaved]. *)
Definition RunState : Type := Collection * nat.

(** [for (const job of jobs) { await save(job); totalSaved++; }] *)
Definition saveEach {A} (save : A -> Collection -> Collection) (jobs : list A)
    (st : RunState) : RunState :=
  fold_left (fun st job => (save job (fst st), S (snd st))) jobs st.

(** [try { const jobs = await fetch(); for ... } catch (error) { log }]. *)
Definition trySource {A} (fetched : option (list A)) (save : A -> Collection -> Collection)
    (st : RunState) : RunState :=
  match fetched with
  | Some jobs => saveEach save jobs st
  | None => st
  end.

(** [now] stands for the readings of the clock during the run. *)
Definition aggregateJobs (now : Z) (w : Sources) (c : Collection) : RunState :=
  let st := fold_left (fun st name => trySource (fetchJobs w name) (saveJob now) st)
                      services (c, 0) in
  let st := trySource (fetchHandshakeJobs w) (saveHandshakeJob now) st in
  trySource (fetchLinkedIn w) (saveLinkedInJob now) st.

(** ** JobAggregatorService.cleanupOldJobs *)

Definition msPerDay : Z := 24 * 60 * 60 * 1000.

Definition twentyOneDaysAgo (now : Z) : Z := (now - 21 * msPerDay)%Z.

(** The filter [{ postedDate: { $lt: twentyOneDaysAgo }, isActive: true }]. *)
Definition isStale (now : Z) (j : IJob) : bool :=
  (postedDate j <? twentyOneDaysAgo now)%Z && isActive j.

(** The update [{ isActive: false }]. *)
Definition deactivate (j : IJob) : IJob :=
  {| _id := _id j;
     title := title j;
     company := company j;
     location := location j;
     description := description j;
     employmentType := employmentType j;
     experienceLevel := experienceLevel j;
     remote := remote j;
     visaSponsorship := visaSponsorship j;
     source := source j;
     sourceJobId := sourceJobId j;
     sourceUrl := sourceUrl j;
     isUniversityJob := isUniversityJob j;
     isCampusExclusive := isCampusExclusive j;
     postedDate := postedDate j;
     applicationUrl := applicationUrl j;
     skillsRequired := skillsRequired j;
     views := views j;
     applications := applications j;
     isActive := false;
     isFeatured := isFeatured j;
     lastRefreshed := lastRefreshed j |}.

(** [Job.updateMany(filter, update)]: the collection afterwards and
    [modifiedCount]. *)
Definition cleanupOldJobs (now : Z) (c : Collection) : Collection * nat :=
  ({| docs := map (fun j => if isStale now j then deactivate j else j) (docs c);
      nextId := nextId c |},
   length (List.filter (isStale now) (docs c))).

(** ** JobAggregatorService.searchJobs *)

Module Filters.
Record t := {
  keywords : option string;
  location : option string;
  remote : option bool;
  h1b : bool;
  opt : bool;
  stemOpt : bool;
  employmentType : option string;
  skills : option (list string)
}.
End Filters.

(** One entry of the [query] object. *)
Inductive Cond :=
| CIsActive (b : bool)
| CText (search : string)
| CLocationRegex (pattern : string)
| CRemote (b : bool)
| CVisaH1b
| CVisaOpt
| CVisaStemOpt
| CEmploymentType (t : string)
| CSkillsIn (l : list string).

(** What the database engine decides: [$text] search over the text index,
    a case-insensitive [$regex], and [$in] on the path [skills]. *)
Record Engine := {
  textSearch : string -> IJob -> bool;
  regexI : string -> string -> bool;
  skillsIn : list string -> IJob -> bool
}.

Definition optTruthy (o : option string) : bool :=
  match o with Some s => Str.truthy s | None => false end.

Definition buildQuery (filters : Filters.t) : list Cond :=
  [CIsActive true]
  ++ match Filters.keywords filters with
     | Some k => if Str.truthy k then [CText k] else []
     | None => []
     end
  ++ match Filters.location filters with
     | Some l => if Str.truthy l then [CLocationRegex l] else []
     | None => []
     end
  ++ match Filters.remote filters with
     | Some b => [CRemote b]
     | None => []
     end
  ++ (if Filters.h1b filters then [CVisaH1b] else [])
  ++ (if Filters.opt filters then [CVisaOpt] else [])
  ++ (if Filters.stemOpt filters then [CVisaStemOpt] else [])
  ++ match Filters.employmentType filters with
     | Some t => if Str.truthy t then [CEmploymentType t] else []
     | None => []
     end
  ++ match Filters.skills filters with
     | Some l => if (0 <? length l)%nat then [CSkillsIn l] else []
     | None => []
     end.

Definition condHolds (eng : Engine) (cond : Cond) (j : IJob) : bool :=
  match cond with
  | CIsActive b => Bool.eqb (isActive j) b
  | CText k => textSearch eng k j
  | CLocationRegex p => regexI eng p (location j)
  | CRemote b => Bool.eqb (remote j) b
  | CVisaH1b => h1b (visaSponsorship j)
  | CVisaOpt => opt (visaSponsorship j)
  | CVisaStemOpt => stemOpt (visaSponsorship j)
  | CEmploymentType t => Str.eqs (employmentType j) t
  | CSkillsIn l => skillsIn eng l j
  end.

Definition queryMatches (eng : Engine) (query : list Cond) (j : IJob) : bool :=
  forallb (fun cond => condHolds eng cond j) query.

(** [Job.find(query)]. *)
Definition find (eng : Engine) (query : list Cond) (c : Collection) : list IJob :=
  List.filter (queryMatches eng query) (docs c).

(** [Job.countDocuments(query)]. *)
Definition countDocuments (eng : Engine) (query : list Cond) (c : Collection) : nat :=
  length (find eng query c).

(** [.sort({ postedDate: -1 })]: newest first; documents of equal date keep
    their order. *)
Fixpoint insertDesc (j : IJob) (l : list IJob) : list IJob :=
  match l with
  | [] => [j]
  | k :: l' => if (postedDate j <? postedDate k)%Z then k :: insertDesc j l' else j :: k :: l'
  end.

Definition sortByPostedDateDesc (l : list IJob) : list IJob :=
  fold_right insertDesc [] l.

(** [.skip(n)]: the database refuses a negative [n]. *)
Definition skip (n : Z) (l : list IJob) : option (list IJob) :=
  if (n <? 0)%Z then None else Some (drop (Z.to_nat n) l).

(** [.limit(n)]: [0] is no limit, a negative [n] limits to [-n]. *)
Definition limit (n : Z) (l : list IJob) : list IJob :=
  if (n =? 0)%Z then l else take (Z.to_nat (Z.abs n)) l.

(** A JavaScript number that is an integer, [Infinity] or [NaN]. *)
Inductive number :=
| Num (z : Z)
| Infinity
| NaN.

(** [Math.ceil(total / limit)]. *)
Definition ceilDiv (total limit : Z) : number :=
  if (limit =? 0)%Z then (if (total =? 0)%Z then NaN else Infinity)
  else Num (- ((- total) / limit))%Z.

Record Pagination := {
  total : nat;
  page : Z;
  limit_ : Z;
  pages : number
}.

Record SearchResult := {
  jobs : list IJob;
  pagination : Pagination
}.

(** [searchJobs(filters, page, limit)]; [None] when the query is refused. *)
Definition searchJobs (eng : Engine) (filters : Filters.t) (page limit_arg : Z)
    (c : Collection) : option SearchResult :=
  let query := buildQuery filters in
  let skip_ := ((page - 1) * limit_arg)%Z in
  match skip skip_ (sortByPostedDateDesc (find eng query c)) with
  | None => None
  | Some l =>
    let total_ := countDocuments eng query c in
    Some {| jobs := limit limit_arg l;
            pagination := {| total := total_;
                             page := page;
                             limit_ := limit_arg;
                             pages := ceilDiv (Z.of_nat total_) limit_arg |} |}
  end.

(** ** linkedinAPI.ts *)

Definition mapJobType (jobType : option string) : string :=
  match jobType with
  | None => "FULL_TIME"
  | Some t =>
    if negb (Str.truthy t) then "FULL_TIME" else
    let type := Str.toUpperCase t in
    if Str.includes type "INTERN" then "INTERNSHIP"
    else if Str.includes type "PART" then "PART_TIME"
    else if Str.includes type "CONTRACT" then "CONTRACT"
    else if Str.includes type "TEMP" then "TEMPORARY"
    else if Str.includes type "FULL" || Str.eqs type "F" then "FULL_TIME"
    else if Str.eqs type "I" then "INTERNSHIP"
    else if Str.eqs type "P" then "PART_TIME"
    else if Str.eqs type "C" then "CONTRACT"
    else "FULL_TIME"
  end.

Definition mapExperienceLevel (level : option string) : string :=
  match level with
  | None => "ENTRY"
  | Some l =>
    if negb (Str.truthy l) then "ENTRY" else
    let normalized := Str.toLowerCase l in
    if Str.includes normalized "entry" || Str.includes normalized "junior" ||
       Str.eqs normalized "1" then "ENTRY"
    else if Str.includes normalized "mid" || Str.includes normalized "associate" ||
       Str.eqs normalized "2" then "MID"
    else if Str.includes normalized "senior" || Str.includes normalized "lead" ||
       Str.eqs normalized "3" || Str.eqs normalized "4" then "SENIOR"
    else if Str.includes normalized "executive" || Str.eqs normalized "5" then "EXECUTIVE"
    else "ENTRY"
  end.

(** [a?.[0]]. *)
Definition first (a : option (list string)) : option string :=
  match a with Some (x :: _) => Some x | _ => None end.

Definition transformLinkedInJob (now : Z) (job : LinkedInApi.LinkedInJob) : LinkedIn.TransformedJob :=
  let employmentType := mapJobType (first (LinkedInApi.employment_type job)) in
  let experienceLevel := mapExperienceLevel (LinkedInApi.seniority job) in
  {| LinkedIn.sourceJobId := LinkedInApi.id job;
     LinkedIn.source := "LINKEDIN";
     LinkedIn.title := LinkedInApi.title job;
     LinkedIn.company := LinkedInApi.organization job;
     LinkedIn.location := Str.optOrElse (first (LinkedInApi.locations_derived job)) "Remote";
     LinkedIn.description :=
       Str.optOrElse (LinkedInApi.description_text job) "No description available";
     LinkedIn.remote := default false (LinkedInApi.remote_derived job);
     LinkedIn.employmentType := employmentType;
     LinkedIn.postedDate := default now (LinkedInApi.date_posted job);
     LinkedIn.applicationUrl :=
       Str.optOrElse (LinkedInApi.external_apply_url job) (LinkedInApi.url job);
     LinkedIn.experienceLevel := Some experienceLevel;
     LinkedIn.skills := Some [] |}.

Definition transformLinkedInJobs (now : Z) (data : list LinkedInApi.LinkedInJob)
    : list LinkedIn.TransformedJob :=
  map (transformLinkedInJob now) data.

Definition getMockLinkedInJobs (now : Z) : list LinkedIn.TransformedJob :=
  [ {| LinkedIn.sourceJobId := "mock-linkedin-1";
       LinkedIn.source := "LINKEDIN-MOCK";
       LinkedIn.title := "Software Engineering Intern - Summer 2025";
       LinkedIn.company := "Microsoft";
       LinkedIn.location := "Redmond, WA";
       LinkedIn.description := "Join our team as a Software Engineering Intern. Work on real projects that impact millions of users. Requirements: CS major, proficiency in C#, Java, or Python.";
       LinkedIn.remote := false;
       LinkedIn.employmentType := "INTERNSHIP";
       LinkedIn.postedDate := now;
       LinkedIn.applicationUrl := "https://example.com/jobs/1";
       LinkedIn.experienceLevel := Some "ENTRY";
       LinkedIn.skills := Some ["C#"; "Java"; "Python"; "Azure"] |};
    {| LinkedIn.sourceJobId := "mock-linkedin-2";
       LinkedIn.source := "LINKEDIN-MOCK";
       LinkedIn.title := "Product Management Intern";
       LinkedIn.company := "Google";
       LinkedIn.location := "Mountain View, CA";
       LinkedIn.description := "Work alongside experienced Product Managers to define product strategy and roadmap. Perfect for MBA or CS students with strong analytical skills.";
       LinkedIn.remote := false;
       LinkedIn.employmentType := "INTERNSHIP";
       LinkedIn.postedDate := now;
       LinkedIn.applicationUrl := "https://example.com/jobs/2";
       LinkedIn.experienceLevel := Some "ENTRY";
       LinkedIn.skills := Some ["Product Management"; "SQL"; "Analytics"] |};
    {| LinkedIn.sourceJobId := "mock-linkedin-3";
       LinkedIn.source := "LINKEDIN-MOCK";
       LinkedIn.title := "Frontend Developer - Remote";
       LinkedIn.company := "Shopify";
       LinkedIn.location := "Remote";
       LinkedIn.description := "Build beautiful, performant user interfaces for our e-commerce platform. Work with React, TypeScript, and modern web technologies.";
       LinkedIn.remote := true;
       LinkedIn.employmentType := "FULL_TIME";
       LinkedIn.postedDate := now;
       LinkedIn.applicationUrl := "https://example.com/jobs/3";
       LinkedIn.experienceLevel := Some "ENTRY";
       LinkedIn.skills := Some ["React"; "TypeScript"; "CSS"; "GraphQL"] |} ].

Definition locationFilters : list string :=
  ["United States";
   "New York OR San Francisco OR Seattle OR Austin OR Boston";
   "Chicago OR Denver OR Los Angeles OR San Diego OR Portland";
   "Remote"].

(** The environment of the LinkedIn client: the API key and the answer of
    the endpoint for each location filter ([None]: the request throws or
    the body is not an array). *)
Record LinkedInEnv := {
  RAPIDAPI_KEY : option string;
  get : string -> option (list LinkedInApi.LinkedInJob)
}.

(** State of the loop: [allJobs] and [seenJobIds]. *)
Definition Seen : Type := list LinkedIn.TransformedJob * gset string.

(** The body of [transformedJobs.forEach]. *)
Definition addUnique (st : Seen) (job : LinkedIn.TransformedJob) : Seen :=
  if bool_decide (LinkedIn.sourceJobId job ∈ snd st) then st
  else ((fst st ++ [job])%list, {[LinkedIn.sourceJobId job]} ∪ snd st).

(** The body of [for (const location of locationFilters)]. *)
Definition fetchLocation (now : Z) (env : LinkedInEnv) (st : Seen) (location : string) : Seen :=
  match get env location with
  | Some data =>
    if (0 <? length data)%nat
    then fold_left addUnique (transformLinkedInJobs now data) st
    else st
  | None => st
  end.

Definition fetchLinkedInLoop (now : Z) (env : LinkedInEnv) (locations : list string) : Seen :=
  fold_left (fetchLocation now env) locations ([], ∅).

(** The outer [catch] is never reached: each request has its own. *)
Definition fetchLinkedInMultiple (now : Z) (env : LinkedInEnv) : list LinkedIn.TransformedJob :=
  if negb (optTruthy (RAPIDAPI_KEY env)) then getMockLinkedInJobs now
  else fst (fetchLinkedInLoop now env locationFilters).

(** ** handshakeAPI.ts: the mock postings *)

Definition getMockUniversityJobs (now : Z) : list Handshake.TransformedJob :=
  [ {| Handshake.sourceJobId := "mock-handshake-1";
       Handshake.source := "HANDSHAKE-MOCK";
       Handshake.title := "Software Engineering Intern";
       Handshake.company := "Tech Corp";
       Handshake.location := "San Francisco, CA";
       Handshake.description := "Great internship opportunity for students. Join our team and work on cutting-edge technology projects. Requirements: Computer Science major, proficiency in JavaScript/TypeScript, React, Node.js.";
       Handshake.remote := false;
       Handshake.employmentType := "internship";
       Handshake.postedDate := now;
       Handshake.url := "https://example.com/jobs/1";
       Handshake.isCampusExclusive := Some true;
       Handshake.experienceLevel := Some "entry";
       Handshake.skills := Some ["JavaScript"; "TypeScript"; "React"; "Node.js"] |};
    {| Handshake.sourceJobId := "mock-handshake-2";
       Handshake.source := "HANDSHAKE-MOCK";
       Handshake.title := "Data Science Intern";
       Handshake.company := "Analytics Inc";
       Handshake.location := "Remote";
       Handshake.description := "Work with our data science team to analyze large datasets and build predictive models. Perfect for students with strong Python and statistics background.";
       Handshake.remote := true;
       Handshake.employmentType := "internship";
       Handshake.postedDate := now;
       Handshake.url := "https://example.com/jobs/2";
       Handshake.isCampusExclusive := Some true;
       Handshake.experienceLevel := Some "entry";
       Handshake.skills := Some ["Python"; "Machine Learning"; "Statistics"; "SQL"] |};
    {| Handshake.sourceJobId := "mock-handshake-3";
       Handshake.source := "HANDSHAKE-MOCK";
       Handshake.title := "Product Management Intern";
       Handshake.company := "StartupXYZ";
       Handshake.location := "New York, NY";
       Handshake.description := "Join our product team and help shape the future of our platform. Great opportunity to learn product management skills and work cross-functionally.";
       Handshake.remote := false;
       Handshake.employmentType := "internship";
       Handshake.postedDate := now;
       Handshake.url := "https://example.com/jobs/3";
       Handshake.isCampusExclusive := Some true;
       Handshake.experienceLevel := Some "entry";
       Handshake.skills := Some ["Product Management"; "Agile"; "User Research"] |};
    {| Handshake.sourceJobId := "mock-handshake-4";
       Handshake.source := "HANDSHAKE-MOCK";
       Handshake.title := "UX/UI Design Intern";
       Handshake.company := "Design Studio";
       Handshake.location := "Austin, TX";
       Handshake.description := "Work alongside experienced designers to create beautiful and intuitive user interfaces. Portfolio required.";
       Handshake.remote := false;
       Handshake.employmentType := "internship";
       Handshake.postedDate := now;
       Handshake.url := "https://example.com/jobs/4";
       Handshake.isCampusExclusive := Some true;
       Handshake.experienceLevel := Some "entry";
       Handshake.skills := Some ["Figma"; "Adobe XD"; "UI Design"; "UX Research"] |};
    {| Handshake.sourceJobId := "mock-handshake-5";
       Handshake.source := "HANDSHAKE-MOCK";
       Handshake.title := "Full Stack Developer - New Grad";
       Handshake.company := "Enterprise Solutions";
       Handshake.location := "Seattle, WA";
       Handshake.description := "Full-time position for recent graduates. Build scalable web applications using modern technologies. H1B sponsorship available.";
       Handshake.remote := false;
       Handshake.employmentType := "full-time";
       Handshake.postedDate := now;
       Handshake.url := "https://example.com/jobs/5";
       Handshake.isCampusExclusive := Some true;
       Handshake.experienceLevel := Some "entry";
       Handshake.skills := Some ["JavaScript"; "React"; "Node.js"; "PostgreSQL"; "AWS"] |} ].

(** ** Vocabulary of the statements *)

(** A record fetched during aggregation, with the save function of its
    source. *)
Inductive Fetched :=
| FromApi (jobData : Api.JobApiResponse)
| FromHandshake (jobData : Handshake.TransformedJob)
| FromLinkedIn (jobData : LinkedIn.TransformedJob).

(** The (source, sourceJobId) pair under which a record is looked up. *)
Definition fetchedKey (r : Fetched) : string * string :=
  match r with
  | FromApi jd => (Str.toUpperCase (Api.source jd), Api.id jd)
  | FromHandshake jd => (Handshake.source jd, Handshake.sourceJobId jd)
  | FromLinkedIn jd => (LinkedIn.source jd, LinkedIn.sourceJobId jd)
  end.

Definition fetchedDoc (now : Z) (r : Fetched) : JobDoc.t :=
  match r with
  | FromApi jd => saveJobDoc now jd
  | FromHandshake jd => saveHandshakeJobDoc now jd
  | FromLinkedIn jd => saveLinkedInJobDoc now jd
  end.

Definition saveFetched (now : Z) (r : Fetched) (c : Collection) : Collection :=
  match r with
  | FromApi jd => saveJob now jd c
  | FromHandshake jd => saveHandshakeJob now jd c
  | FromLinkedIn jd => saveLinkedInJob now jd c
  end.

(** The records of the sources whose fetch did not throw, in the order in
    which [aggregateJobs] reaches them. *)
Definition fetchedOf {A} (o : option (list A)) : list A :=
  match o with Some l => l | None => [] end.

Definition fetchedRecords (w : Sources) : list Fetched :=
  (concat (map (fun name => map FromApi (fetchedOf (fetchJobs w name))) services)
   ++ map FromHandshake (fetchedOf (fetchHandshakeJobs w))
   ++ map FromLinkedIn (fetchedOf (fetchLinkedIn w)))%list.


(** What the database guarantees of a collection: [_id]s are distinct and
    below the next one handed out, and the unique index holds. *)
Definition wf (c : Collection) : Prop :=
  NoDup (map _id (docs c)) /\
  Forall (fun j => _id j < nextId c) (docs c) /\
  NoDup (map keyOf (docs c)).

(** What [upsert] does on a well-formed collection. *)
Definition upserted (e : option IJob) (d : JobDoc.t) (c : Collection) : Collection :=
  match e with
  | Some e =>
    {| docs := updateById (_id e) (applyUpdate (castDoc d)) (docs c); nextId := nextId c |}
  | None =>
    if schemaValid (castDoc d)
    then {| docs := docs c ++ [newJob (nextId c) (castDoc d)]; nextId := S (nextId c) |}
    else c
  end.

(** A later operation on the collection. *)
Inductive Op :=
| OpSave (now : Z) (r : Fetched)
| OpCleanup (now : Z).

Definition runOp (c : Collection) (op : Op) : Collection :=
  match op with
  | OpSave now r => saveFetched now r c
  | OpCleanup now => fst (cleanupOldJobs now c)
  end.

Definition touches (k : string * string) (op : Op) : Prop :=
  match op with
  | OpSave _ r => fetchedKey r = k
  | OpCleanup _ => False
  end.

(** The type, upper-cased, contains the keyword. *)
Definition mentions (t kw : string) : bool :=
  Str.includes (Str.toUpperCase t) kw.

(** A record as a generic source returns it, used in the examples. *)
Definition exampleJob : Api.JobApiResponse :=
  {| Api.id := "42";
     Api.source := "remoteok";
     Api.title := Some "Engineer";
     Api.company := Some "Acme";
     Api.location := None;
     Api.description := Some "Build things";
     Api.employmentType := None;
     Api.remote := Some true;
     Api.visaSponsorship := None;
     Api.url := Some "https://example.com/42";
     Api.postedDate := Some 0%Z;
     Api.skills := None |}.

(** A record as the LinkedIn client returns it, used in the examples. *)
Definition exampleLinkedInJob : LinkedIn.TransformedJob :=
  {| LinkedIn.sourceJobId := "7";
     LinkedIn.source := "LINKEDIN";
     LinkedIn.title := "Analyst";
     LinkedIn.company := "Acme";
     LinkedIn.location := "Remote";
     LinkedIn.description := "Entry level role";
     LinkedIn.remote := true;
     LinkedIn.employmentType := "FULL_TIME";
     LinkedIn.postedDate := 0%Z;
     LinkedIn.applicationUrl := "https://example.com/7";
     LinkedIn.experienceLevel := Some "ENTRY";
     LinkedIn.skills := Some [] |}.

(** A Handshake record with a given description, used in the examples. *)
Definition handshakeJobWithText (text : string) : Handshake.TransformedJob :=
  {| Handshake.sourceJobId := "h-1";
     Handshake.source := "HANDSHAKE";
     Handshake.title := "New Grad Engineer";
     Handshake.company := "Acme";
     Handshake.location := "Seattle, WA";
     Handshake.description := text;
     Handshake.remote := false;
     Handshake.employmentType := "full-time";
     Handshake.postedDate := 0%Z;
     Handshake.url := "https://example.com/h-1";
     Handshake.isCampusExclusive := Some true;
     Handshake.experienceLevel := Some "entry";
     Handshake.skills := Some [] |}.

(** A search without any filter, and an engine that accepts every
    document, used in the examples. *)
Definition noFilters : Filters.t :=
  {| Filters.keywords := None;
     Filters.location := None;
     Filters.remote := None;
     Filters.h1b := false;
     Filters.opt := false;
     Filters.stemOpt := false;
     Filters.employmentType := None;
     Filters.skills := None |}.

Definition permissiveEngine : Engine :=
  {| textSearch := fun _ _ => true;
     regexI := fun _ _ => true;
     skillsIn := fun _ _ => true |}.

(** The posting with pair [k] and [_id] [i] is stored and inactive. *)
Definition expired (k : string * string) (i : nat) (c : Collection) : Prop :=
  wf c /\ exists e, findOne (fst k) (snd k) c = Some e /\ _id e = i /\ isActive e = false.

(** Everything the LinkedIn endpoint returned, transformed, in fetch
    order. *)
Definition fetchedBatches (now : Z) (env : LinkedInEnv) (locations : list string)
    : list LinkedIn.TransformedJob :=
  concat (map (fun location => transformLinkedInJobs now (fetchedOf (get env location)))
              locations).

(** [j] stands in [all] at a place before which no job has its
    sourceJobId. *)
Definition firstOfItsId (all : list LinkedIn.TransformedJob) (j : LinkedIn.TransformedJob)
    : Prop :=
  exists i, all !! i = Some j /\
            forall k y, k < i -> all !! k = Some y ->
                        LinkedIn.sourceJobId y <> LinkedIn.sourceJobId j.

(** The loop invariant of the deduplication, [all] being the jobs seen so
    far. *)
Record Deduped (all : list LinkedIn.TransformedJob) (st : Seen) : Prop := {
  dd_seen : forall s, s ∈ snd st <-> s ∈ map LinkedIn.sourceJobId (fst st);
  dd_nodup : NoDup (map LinkedIn.sourceJobId (fst st));
  dd_sub : fst st `sublist_of` all;
  dd_all : forall y, y ∈ all ->
                     LinkedIn.sourceJobId y ∈ map LinkedIn.sourceJobId (fst st);
  dd_first : forall j, j ∈ fst st -> firstOfItsId all j
}.

(** A LinkedIn posting as the endpoint returns it, and an endpoint that
    answers two of the four requests, used in the examples. *)
Definition rawJob (i : string) : LinkedInApi.LinkedInJob :=
  {| LinkedInApi.id := i;
     LinkedInApi.title := "Engineer";
     LinkedInApi.organization := "Acme";
     LinkedInApi.locations_derived := None;
     LinkedInApi.date_posted := None;
     LinkedInApi.employment_type := Some ["FULL_TIME"];
     LinkedInApi.url := "https://example.com/job";
     LinkedInApi.description_text := None;
     LinkedInApi.external_apply_url := None;
     LinkedInApi.seniority := Some "Mid-Senior level";
     LinkedInApi.remote_derived := None |}.

Definition exampleEnv : LinkedInEnv :=
  {| RAPIDAPI_KEY := Some "key";
     get := fun location =>
              if Str.eqs location "United States" then Some [rawJob "a"; rawJob "b"; rawJob "a"]
              else if Str.eqs location "Remote" then Some [rawJob "b"; rawJob "c"]
              else None |}.

(** Newest first. *)
Definition newerEq (a b : IJob) : Prop := (postedDate b <= postedDate a)%Z.

(** ** handshakeAPI.ts *)

(** [HandshakeJob]: [employer] and [university] hold the [name] of the
    object, [created_at] what [new Date(created_at)] makes of the text. *)
Module HandshakeApi.
Record Location := {
  name : string;
  city : option string;
  state : option string;
  country : option string
}.

Record HandshakeJob := {
  id : string;
  title : string;
  employer : option string;
  location : option Location;
  description : option string;
  remote : option bool;
  job_type : option string;
  created_at : option Z;
  application_url : option string;
  campus_exclusive : option bool;
  experience_level : option string;
  skills : option (list string);
  employment_type : option string
}.
End HandshakeApi.

(** [parts.join(sep)]. *)
Fixpoint join (sep : string) (parts : list string) : string :=
  match parts with
  | [] => EmptyString
  | [p] => p
  | p :: rest => String.append p (String.append sep (join sep rest))
  end.

(** [[...].filter(Boolean)] on optional strings. *)
Definition filterBoolean (parts : list (option string)) : list string :=
  omap (fun o => match o with
                 | Some s => if Str.truthy s then Some s else None
                 | None => None
                 end) parts.

(** [a || b] on optional strings, the result possibly [undefined]. *)
Definition optOr (a b : option string) : option string :=
  if optTruthy a then a else b.

Definition handshakeMapJobType (jobType : option string) : string :=
  match jobType with
  | None => "full-time"
  | Some t =>
    if negb (Str.truthy t) then "full-time" else
    let type := Str.toLowerCase t in
    if Str.includes type "intern" then "internship"
    else if Str.includes type "part" then "part-time"
    else if Str.includes type "contract" then "contract"
    else if Str.includes type "full" then "full-time"
    else "full-time"
  end.

Definition handshakeMapExperienceLevel (level : option string) : string :=
  match level with
  | None => "entry"
  | Some l =>
    if negb (Str.truthy l) then "entry" else
    let normalized := Str.toLowerCase l in
    if Str.includes normalized "entry" || Str.includes normalized "junior" then "entry"
    else if Str.includes normalized "mid" || Str.includes normalized "intermediate" then "mid"
    else if Str.includes normalized "senior" || Str.includes normalized "lead" then "senior"
    else "entry"
  end.

Definition handshakeLocation (l : option HandshakeApi.Location) : string :=
  match l with
  | None => "Not specified"
  | Some loc =>
    let parts := filterBoolean [HandshakeApi.city loc; HandshakeApi.state loc;
                                HandshakeApi.country loc] in
    if (0 <? length parts)%nat then join ", " parts
    else Str.orElse (HandshakeApi.name loc) "Not specified"
  end.

Definition transformHandshakeJob (now : Z) (job : HandshakeApi.HandshakeJob)
    : Handshake.TransformedJob :=
  let location := handshakeLocation (HandshakeApi.location job) in
  let employmentType :=
    handshakeMapJobType (optOr (HandshakeApi.job_type job) (HandshakeApi.employment_type job)) in
  {| Handshake.sourceJobId := HandshakeApi.id job;
     Handshake.source := "HANDSHAKE";
     Handshake.title := HandshakeApi.title job;
     Handshake.company := Str.optOrElse (HandshakeApi.employer job) "Unknown";
     Handshake.location := location;
     Handshake.description := Str.optOrElse (HandshakeApi.description job) EmptyString;
     Handshake.remote := default false (HandshakeApi.remote job);
     Handshake.employmentType := employmentType;
     Handshake.postedDate := default now (HandshakeApi.created_at job);
     Handshake.url := Str.optOrElse (HandshakeApi.application_url job) EmptyString;
     Handshake.isCampusExclusive := Some (default false (HandshakeApi.campus_exclusive job));
     Handshake.experienceLevel :=
       Some (handshakeMapExperienceLevel (HandshakeApi.experience_level job));
     Handshake.skills := Some (default [] (HandshakeApi.skills job)) |}.

(** [transformHandshakeJobs(data)]: [None] is a body without [jobs]. *)
Definition transformHandshakeJobs (now : Z) (data : option (list HandshakeApi.HandshakeJob))
    : list Handshake.TransformedJob :=
  match data with
  | None => []
  | Some jobs => map (transformHandshakeJob now) jobs
  end.

(** ** The one-hour caches of the two clients *)

Definition CACHE_DURATION : Z := 60 * 60 * 1000.

(** The module variable [cache]. *)
Module Cache.
Record t (A : Type) := {
  data : option (list A);
  timestamp : option Z
}.
Arguments data {A} _.
Arguments timestamp {A} _.

Definition empty {A} : t A := {| data := None; timestamp := None |}.

(** [cache.data && cache.timestamp && now - cache.timestamp < CACHE_DURATION]:
    the list to return, if any. *)
Definition fresh {A} (now : Z) (c : t A) : option (list A) :=
  match data c, timestamp c with
  | Some d, Some ts =>
    if negb (ts =? 0)%Z && (now - ts <? CACHE_DURATION)%Z then Some d else None
  | _, _ => None
  end.
End Cache.

(** [fetchHandshakeJobs(filters)]: [reply] is what [axios.get] does, [None]
    when it throws, and the body otherwise. *)
Definition fetchHandshakeJobs_ (now : Z) (HANDSHAKE_API_KEY : option string)
    (reply : option (option (list HandshakeApi.HandshakeJob)))
    (cache : Cache.t Handshake.TransformedJob)
    : list Handshake.TransformedJob * Cache.t Handshake.TransformedJob :=
  if negb (optTruthy HANDSHAKE_API_KEY) then (getMockUniversityJobs now, cache)
  else match Cache.fresh now cache with
       | Some d => (d, cache)
       | None =>
         match reply with
         | Some body =>
           let transformedJobs := transformHandshakeJobs now body in
           (transformedJobs,
            {| Cache.data := Some transformedJobs; Cache.timestamp := Some now |})
         | None => (getMockUniversityJobs now, cache)
         end
       end.

(** [fetchLinkedInJobs(keywords, location, options)]: [reply] is [None] when
    [axios.get] throws, [Some None] when the body is not an array. *)
Definition fetchLinkedInJobs (now : Z) (RAPIDAPI_KEY_ : option string)
    (keywords location : string)
    (reply : string -> option (option (list LinkedInApi.LinkedInJob)))
    (cache : Cache.t LinkedIn.TransformedJob)
    : list LinkedIn.TransformedJob * Cache.t LinkedIn.TransformedJob :=
  if negb (optTruthy RAPIDAPI_KEY_) then (getMockLinkedInJobs now, cache)
  else match Cache.fresh now cache with
       | Some d => (d, cache)
       | None =>
         match reply location with
         | Some (Some data) =>
           if (0 <? length data)%nat then
             let transformedJobs := transformLinkedInJobs now data in
             (transformedJobs,
              {| Cache.data := Some transformedJobs; Cache.timestamp := Some now |})
           else ([], cache)
         | Some None => ([], cache)
         | None => (getMockLinkedInJobs now, cache)
         end
       end.

(** ** JobAggregatorService.getJobById and getStats *)

(** [Job.findById(jobId)], [jobId] a well-formed id. *)
Definition getJobById (jobId : nat) (c : Collection) : option IJob :=
  List.find (fun j => (_id j =? jobId)%nat) (docs c).

(** The stage [{ $group: { _id: '$source', count: { $sum: 1 } } }]: one entry
    per source, in the order in which the sources first appear. *)
Fixpoint bump (s : string) (groups : list (string * nat)) : list (string * nat) :=
  match groups with
  | [] => [(s, 1)]
  | (s', n) :: rest => if Str.eqs s' s then (s', S n) :: rest else (s', n) :: bump s rest
  end.

Definition groupBySource (l : list IJob) : list (string * nat) :=
  fold_left (fun groups j => bump (source j) groups) l [].

Module Stats.
Record t := {
  total : nat;
  active : nat;
  bySource : gmap string nat
}.
End Stats.

Definition getStats (c : Collection) : Stats.t :=
  let bySource := groupBySource (List.filter isActive (docs c)) in
  {| Stats.total := length (docs c);
     Stats.active := length (List.filter isActive (docs c));
     Stats.bySource :=
       fold_left (fun acc item => <[fst item := snd item]> acc) bySource ∅ |}.

(** ** jobController.ts: bookmarks *)

(** The [User] documents, of which the controller reads and writes
    [bookmarkedJobs]: the list of each user, by user id.  [user.save()] is
    taken to succeed. *)
Inductive BookmarkResponse :=
| Unauthorized
| JobNotFound
| UserNotFound
| BadRequest
| BookmarkOk (bookmarked : bool) (totalBookmarks : nat)
| RemovedOk (removedCount remainingCount : nat).

(** [bookmarkedJobs.findIndex(id => id.toString() === jobId)]. *)
Fixpoint findIndex (jobId : nat) (l : list nat) : option nat :=
  match l with
  | [] => None
  | x :: l' => if (x =? jobId)%nat then Some 0 else option_map S (findIndex jobId l')
  end.

(** [bookmarkJob]: [userId] is [req.user?.userId], [jobId] a well-formed
    id. *)
Definition bookmarkJob (userId : option nat) (jobId : nat) (c : Collection)
    (users : gmap nat (list nat)) : BookmarkResponse * gmap nat (list nat) :=
  match userId with
  | None => (Unauthorized, users)
  | Some u =>
    match getJobById jobId c with
    | None => (JobNotFound, users)
    | Some _ =>
      match users !! u with
      | None => (UserNotFound, users)
      | Some bookmarkedJobs =>
        match findIndex jobId bookmarkedJobs with
        | Some bookmarkIndex =>
          let l := delete bookmarkIndex bookmarkedJobs in
          (BookmarkOk false (length l), <[u := l]> users)
        | None =>
          let l := bookmarkedJobs ++ [jobId] in
          (BookmarkOk true (length l), <[u := l]> users)
        end
      end
    end
  end.



(** [populate('bookmarkedJobs')]: the documents of the ids, those that
    exist. *)
Definition populate (bookmarkedJobs : list nat) (c : Collection) : list IJob :=
  omap (fun i => getJobById i c) bookmarkedJobs.

(** [getOrganizedSavedJobs]: [applications] are the (jobId, status) of the
    user's [Application] documents, in the order in which [find] returns
    them; the [Map] keeps the last status set for a job. *)
Definition applicationMap (applications : list (nat * string)) : gmap nat string :=
  fold_left (fun m app => <[fst app := snd app]> m) applications ∅.

Record Organized := {
  applied : list (IJob * string);
  interested : list IJob;
  notInterested : list IJob
}.

Definition organize (saved : list IJob) (applications : list (nat * string)) : Organized :=
  fold_left
    (fun organized job =>
       match applicationMap applications !! _id job with
       | Some appStatus =>
         if Str.truthy appStatus && negb (Str.eqs appStatus "SAVED")
         then {| applied := applied organized ++ [(job, appStatus)];
                 interested := interested organized;
                 notInterested := notInterested organized |}
         else {| applied := applied organized;
                 interested := interested organized ++ [job];
                 notInterested := notInterested organized |}
       | None => {| applied := applied organized;
                    interested := interested organized ++ [job];
                    notInterested := notInterested organized |}
       end)
    saved {| applied := []; interested := []; notInterested := [] |}.

(** ** jobController.ts: getUniversityJobs *)

(** [{ $regex: /intern|internship|entry level|new grad|graduate|junior/i }]. *)
Definition universityTitle (t : string) : bool :=
  existsb (Str.includes (Str.toLowerCase t))
          ["intern"; "internship"; "entry level"; "new grad"; "graduate"; "junior"].

(** The [$or] of [matchQuery]. *)
Definition universityRelevant (j : IJob) : bool :=
  inEnum (source j) ["HANDSHAKE"; "HANDSHAKE-MOCK"] ||
  (inEnum (source j) ["LINKEDIN"; "LINKEDIN-MOCK"; "REMOTEOK"; "USAJOBS"; "ARBEITNOW";
                      "CAREERJET"; "JOOBLE"] &&
   (Str.eqs (employmentType j) "INTERNSHIP" || Str.eqs (experienceLevel j) "ENTRY" ||
    universityTitle (title j) || isCampusExclusive j)).

Definition universityMatch (eng : Engine) (keywords location_ employmentType_ : option string)
    (j : IJob) : bool :=
  isActive j && universityRelevant j &&
  match keywords with
  | Some k => if Str.truthy k then textSearch eng k j else true
  | None => true
  end &&
  match location_ with
  | Some l => if Str.truthy l then regexI eng l (location j) else true
  | None => true
  end &&
  match employmentType_ with
  | Some t => if Str.truthy t then Str.eqs (employmentType j) (Str.toUpperCase t) else true
  | None => true
  end.

Module University.
Record Stats := {
  total : nat;
  handshake : nat;
  linkedin : nat;
  other : nat
}.

Record Result := {
  jobs : list IJob;
  pagination : Pagination;
  stats : Stats
}.
End University.

(** [sourceBreakdown.forEach(...)]. *)
Definition universityStats (total_ : nat) (sourceBreakdown : list (string * nat))
    : University.Stats :=
  fold_left
    (fun stats item =>
       if Str.includes (fst item) "HANDSHAKE" then
         {| University.total := University.total stats;
            University.handshake := University.handshake stats + snd item;
            University.linkedin := University.linkedin stats;
            University.other := University.other stats |}
       else if Str.includes (fst item) "LINKEDIN" then
         {| University.total := University.total stats;
            University.handshake := University.handshake stats;
            University.linkedin := University.linkedin stats + snd item;
            University.other := University.other stats |}
       else
         {| University.total := University.total stats;
            University.handshake := University.handshake stats;
            University.linkedin := University.linkedin stats;
            University.other := University.other stats + snd item |})
    sourceBreakdown
    {| University.total := total_; University.handshake := 0;
       University.linkedin := 0; University.other := 0 |}.

(** [getUniversityJobs]: [pageNum] and [limitNum] are what [parseInt] makes
    of the query; [None] when the database refuses the query. *)
Definition getUniversityJobs (eng : Engine) (pageNum limitNum : Z)
    (keywords location_ employmentType_ : option string) (c : Collection)
    : option University.Result :=
  let skip_ := ((pageNum - 1) * limitNum)%Z in
  let matching := List.filter (universityMatch eng keywords location_ employmentType_)
                              (docs c) in
  match skip skip_ (sortByPostedDateDesc matching) with
  | None => None
  | Some l =>
    let total_ := length matching in
    Some {| University.jobs := limit limitNum l;
            University.pagination :=
              {| total := total_; page := pageNum; limit_ := limitNum;
                 pages := ceilDiv (Z.of_nat total_) limitNum |};
            University.stats := universityStats total_ (groupBySource matching) |}
  end.

(** ** routes/jobRoutes.ts *)

Inductive Method := GET | POST | DELETE.

Inductive Segment :=
| Lit (s : string)
| Param (name : string).

Record Route := {
  method : Method;
  path : list Segment;
  authenticateToken : bool;
  handler : string
}.

(** The router, in the order of the file. *)
Definition jobRoutes : list Route :=
  [ {| method := GET; path := [Lit "search"]; authenticateToken := false;
       handler := "searchJobs" |};
    {| method := GET; path := [Lit "bookmarked"; Lit "list"]; authenticateToken := true;
       handler := "getBookmarkedJobs" |};
    {| method := GET; path := [Lit "system"; Lit "refresh-stats"]; authenticateToken := false;
       handler := "getRefreshStats" |};
    {| method := GET; path := [Lit "system"; Lit "cleanup-stats"]; authenticateToken := false;
       handler := "getCleanupStats" |};
    {| method := GET; path := [Lit "stats"]; authenticateToken := false;
       handler := "getJobStats" |};
    {| method := POST; path := [Lit "system"; Lit "refresh"]; authenticateToken := true;
       handler := "triggerManualRefresh" |};
    {| method := POST; path := [Lit "system"; Lit "cleanup"]; authenticateToken := true;
       handler := "triggerCleanup" |};
    {| method := POST; path := [Lit "aggregate"]; authenticateToken := true;
       handler := "triggerJobAggregation" |};
    {| method := GET; path := [Lit "university"]; authenticateToken := false;
       handler := "getUniversityJobs" |};
    {| method := GET; path := [Lit "recommendations"; Lit "personalized"];
       authenticateToken := true; handler := "getPersonalizedRecommendations" |};
    {| method := GET; path := [Lit "recommendations"; Lit "daily"];
       authenticateToken := true; handler := "getDailyRecommendations" |};
    {| method := GET; path := [Lit "saved"; Lit "organized"]; authenticateToken := true;
       handler := "getOrganizedSavedJobs" |};
    {| method := GET; path := [Lit "saved"; Lit "analytics"]; authenticateToken := true;
       handler := "getSavedJobsAnalytics" |};
    {| method := POST; path := [Lit "saved"; Lit "bulk-remove"]; authenticateToken := true;
       handler := "bulkRemoveSavedJobs" |};
    {| method := GET; path := [Param "id"]; authenticateToken := false;
       handler := "getJobById" |};
    {| method := POST; path := [Param "id"; Lit "bookmark"]; authenticateToken := true;
       handler := "bookmarkJob" |};
    {| method := POST; path := [Param "id"; Lit "analyze-visa"]; authenticateToken := false;
       handler := "analyzeJobVisa" |};
    {| method := GET; path := [Param "id"; Lit "match-score"]; authenticateToken := true;
       handler := "getJobMatchScore" |};
    {| method := GET; path := [Param "id"; Lit "match-breakdown"]; authenticateToken := true;
       handler := "getJobMatchBreakdown" |};
    {| method := GET; path := [Param "id"; Lit "similar"]; authenticateToken := false;
       handler := "getSimilarJobs" |} ].

Definition methodEq (a b : Method) : bool :=
  match a, b with
  | GET, GET | POST, POST | DELETE, DELETE => true
  | _, _ => false
  end.

(** A segment of a route against a segment of the request path: a literal
    matches whatever the case of the letters, a parameter matches any
    segment that is not empty. *)
Definition segmentMatches (seg : Segment) (s : string) : bool :=
  match seg with
  | Lit l => Str.eqs (Str.toLowerCase l) (Str.toLowerCase s)
  | Param _ => Str.truthy s
  end.

Fixpoint pathMatches (p : list Segment) (segs : list string) : bool :=
  match p, segs with
  | [], [] => true
  | seg :: p', s :: segs' => segmentMatches seg s && pathMatches p' segs'
  | _, _ => false
  end.

(** The route that handles a request: the first one of the router that
    matches its method and its path below [/api/jobs]. *)
Definition dispatch (m : Method) (segs : list string) : option Route :=
  List.find (fun r => methodEq (method r) m && pathMatches (path r) segs) jobRoutes.

Definition isSpecific (r : Route) : bool :=
  forallb (fun seg => match seg with Lit _ => true | Param _ => false end) (path r).

Definition literals (r : Route) : list string :=
  omap (fun seg => match seg with Lit l => Some l | Param _ => None end) (path r).

(** ** Vocabulary of the further statements *)

(** The number of active documents of a source. *)
Definition activeOf (s : string) (c : Collection) : nat :=
  length (List.filter (fun j => isActive j && Str.eqs (source j) s) (docs c)).

(** What every save guarantees of the document it leaves: the employment
    type and the source are values of the schema's enums and the
    sourceJobId is not empty. *)
Definition enumsOk (j : IJob) : Prop :=
  In (employmentType j) employmentTypeEnum /\
  In (source j) sourceEnum /\
  sourceJobId j <> EmptyString.


(** The page [p] of a search, as a list. *)
Definition pageOf (eng : Engine) (filters : Filters.t) (limit_arg : Z) (c : Collection)
    (p : nat) : list IJob :=
  match searchJobs eng filters (Z.of_nat p) limit_arg c with
  | Some r => jobs r
  | None => []
  end.

(** A record is settled in a collection when a save of it cannot add a
    document: its pair is stored, or the schema refuses it. *)
Definition settled (r : Fetched) (c : Collection) : Prop :=
  In (fetchedKey r) (map keyOf (docs c)) \/
  schemaValid (castDoc (fetchedDoc 0 r)) = false.

(** A raw Handshake posting, used in the examples. *)
Definition rawHandshakeJob (i : string) : HandshakeApi.HandshakeJob :=
  {| HandshakeApi.id := i;
     HandshakeApi.title := "Analyst";
     HandshakeApi.employer := Some "Acme";
     HandshakeApi.location :=
       Some {| HandshakeApi.name := "HQ"; HandshakeApi.city := Some "Austin";
               HandshakeApi.state := Some "TX"; HandshakeApi.country := None |};
     HandshakeApi.description := Some "Temporary summer role";
     HandshakeApi.remote := None;
     HandshakeApi.job_type := Some "Temporary";
     HandshakeApi.created_at := None;
     HandshakeApi.application_url := Some "https://example.com/apply";
     HandshakeApi.campus_exclusive := None;
     HandshakeApi.experience_level := Some "Team Lead";
     HandshakeApi.skills := None;
     HandshakeApi.employment_type := None |}.

(** A raw Handshake posting that tells only the name of its location. *)
Definition campusJob : HandshakeApi.HandshakeJob :=
  {| HandshakeApi.id := "h-2";
     HandshakeApi.title := "Intern";
     HandshakeApi.employer := None;
     HandshakeApi.location :=
       Some {| HandshakeApi.name := "Campus"; HandshakeApi.city := None;
               HandshakeApi.state := None; HandshakeApi.country := None |};
     HandshakeApi.description := None;
     HandshakeApi.remote := None;
     HandshakeApi.job_type := None;
     HandshakeApi.created_at := None;
     HandshakeApi.application_url := None;
     HandshakeApi.campus_exclusive := None;
     HandshakeApi.experience_level := None;
     HandshakeApi.skills := None;
     HandshakeApi.employment_type := None |}.

(** The count that the groups hold for a source, 0 when there is none. *)
Definition countIn (s : string) (groups : list (string * nat)) : nat :=
  match List.find (fun g => Str.eqs (fst g) s) groups with
  | Some g => snd g
  | None => 0
  end.

(** What identifies a document: its [_id] and its (source, sourceJobId)
    pair. *)
Definition idKey (j : IJob) : nat * (string * string) := (_id j, keyOf j).

(** * Properties *)

(** ** mapEmploymentType *)

Example mapEmploymentType_full_first :
  mapEmploymentType (Some "Full-time intern") = "FULL_TIME".
Proof. reflexivity. Qed.

Example mapEmploymentType_lower :
  mapEmploymentType (Some "internship") = "INTERNSHIP".
Proof. reflexivity. Qed.

Example mapEmploymentType_unknown :
  mapEmploymentType (Some "seasonal") = "FULL_TIME".
Proof. reflexivity. Qed.

Example mapEmploymentType_handshake :
  map (fun t => mapEmploymentType (Some t))
      ["internship"; "part-time"; "contract"; "full-time"]
  = ["INTERNSHIP"; "PART_TIME"; "CONTRACT"; "FULL_TIME"].
Proof. reflexivity. Qed.

Lemma upperChar_lowerChar (c : ascii) : Str.upperChar (Str.lowerChar c) = Str.upperChar c.
Proof. destruct c as [[] [] [] [] [] [] [] []]; reflexivity. Qed.

Lemma upperChar_upperChar (c : ascii) : Str.upperChar (Str.upperChar c) = Str.upperChar c.
Proof. destruct c as [[] [] [] [] [] [] [] []]; reflexivity. Qed.

Lemma toUpperCase_toLowerCase (s : string) :
  Str.toUpperCase (Str.toLowerCase s) = Str.toUpperCase s.
Proof.
  induction s as [|c s IH]; simpl; [reflexivity|].
  now rewrite upperChar_lowerChar, IH.
Qed.

Lemma toUpperCase_toUpperCase (s : string) :
  Str.toUpperCase (Str.toUpperCase s) = Str.toUpperCase s.
Proof.
  induction s as [|c s IH]; simpl; [reflexivity|].
  now rewrite upperChar_upperChar, IH.
Qed.

(** The result depends on the upper-cased type only. *)
Lemma mapEmploymentType_case (t u : string) :
  Str.toUpperCase t = Str.toUpperCase u ->
  mapEmploymentType (Some t) = mapEmploymentType (Some u).
Proof.
  intros H. unfold mapEmploymentType. rewrite H.
  assert (Ht : Str.truthy t = Str.truthy u).
  { destruct t, u; simpl in *; congruence. }
  now rewrite Ht.
Qed.

Lemma mapEmploymentType_range (type : option string) :
  In (mapEmploymentType type) employmentTypeEnum.
Proof.
  unfold mapEmploymentType, employmentTypeEnum.
  destruct type as [t|]; [|simpl; tauto].
  destruct (negb (Str.truthy t)); [simpl; tauto|].
  repeat match goal with
         | |- context [if ?b then _ else _] => destruct b
         end; simpl; tauto.
Qed.

(** C5: [mapEmploymentType] always returns one of the five values of the
    schema's enum; it returns FULL_TIME when the type is absent or empty
    and when the type, upper-cased, contains none of FULL, PART, CONTRACT,
    INTERN, TEMP; the five keywords are tried in that order, the first one
    found deciding the result; and the case of the letters of the type
    does not matter. *)
Theorem mapEmploymentType_normalizes :
  (forall type, In (mapEmploymentType type)
                   ["FULL_TIME"; "PART_TIME"; "CONTRACT"; "INTERNSHIP"; "TEMPORARY"]) /\
  mapEmploymentType None = "FULL_TIME" /\
  mapEmploymentType (Some EmptyString) = "FULL_TIME" /\
  (forall t, mapEmploymentType (Some (Str.toLowerCase t)) = mapEmploymentType (Some t) /\
             mapEmploymentType (Some (Str.toUpperCase t)) = mapEmploymentType (Some t)) /\
  (forall t,
      mentions t "FULL" = false -> mentions t "PART" = false ->
      mentions t "CONTRACT" = false -> mentions t "INTERN" = false ->
      mentions t "TEMP" = false ->
      mapEmploymentType (Some t) = "FULL_TIME") /\
  (forall t, t <> EmptyString ->
      (mentions t "FULL" = true -> mapEmploymentType (Some t) = "FULL_TIME") /\
      (mentions t "FULL" = false -> mentions t "PART" = true ->
       mapEmploymentType (Some t) = "PART_TIME") /\
      (mentions t "FULL" = false -> mentions t "PART" = false ->
       mentions t "CONTRACT" = true ->
       mapEmploymentType (Some t) = "CONTRACT") /\
      (mentions t "FULL" = false -> mentions t "PART" = false ->
       mentions t "CONTRACT" = false -> mentions t "INTERN" = true ->
       mapEmploymentType (Some t) = "INTERNSHIP") /\
      (mentions t "FULL" = false -> mentions t "PART" = false ->
       mentions t "CONTRACT" = false -> mentions t "INTERN" = false ->
       mentions t "TEMP" = true ->
       mapEmploymentType (Some t) = "TEMPORARY")).
Proof.
  split; [exact mapEmploymentType_range|].
  split; [reflexivity|]. split; [reflexivity|].
  split.
  { intros t. split; apply mapEmploymentType_case;
      [apply toUpperCase_toLowerCase | apply toUpperCase_toUpperCase]. }
  unfold mentions, mapEmploymentType. split.
  - intros t H1 H2 H3 H4 H5. rewrite H1, H2, H3, H4, H5.
    now destruct (negb (Str.truthy t)).
  - intros t Ht.
    assert (Hn : negb (Str.truthy t) = false) by (destruct t; [congruence|reflexivity]).
    rewrite Hn. repeat split; intros; 
      repeat match goal with H : Str.includes _ _ = _ |- _ => rewrite H; clear H end;
      reflexivity.
Qed.

Lemma mapEmploymentType_normalizes_witness :
  mapEmploymentType (Some "Seasonal") = "FULL_TIME" /\
  mapEmploymentType (Some "Part-time internship") = "PART_TIME".
Proof.
  destruct mapEmploymentType_normalizes as (_ & _ & _ & _ & Hnone & Hord). split.
  - apply Hnone; reflexivity.
  - destruct (Hord "Part-time internship") as (_ & Hpart & _); [discriminate|].
    apply Hpart; reflexivity.
Defined.

(** C9: [mapEmploymentType] is idempotent: each of its five results is
    mapped to itself. *)
Theorem mapEmploymentType_idempotent (type : option string) :
  mapEmploymentType (Some (mapEmploymentType type)) = mapEmploymentType type.
Proof.
  pose proof (mapEmploymentType_range type) as H.
  unfold employmentTypeEnum in H. simpl in H.
  destruct H as [H|[H|[H|[H|[H|[]]]]]]; rewrite <- H; reflexivity.
Qed.

(** ** aggregateJobs: one failing source does not stop the run *)

Section Aggregate.
Variable now : Z.

Lemma saveEach_fold {A} (F : A -> Fetched) (save : A -> Collection -> Collection)
    (jobs : list A) (c : Collection) (n : nat) :
  (forall j c', save j c' = saveFetched now (F j) c') ->
  saveEach save jobs (c, n) =
    (fold_left (fun c r => saveFetched now r c) (map F jobs) c, n + length jobs).
Proof.
  intros Hsave. unfold saveEach. revert c n.
  induction jobs as [|j jobs IH]; intros c n; simpl.
  - f_equal. lia.
  - rewrite IH, Hsave. f_equal. lia.
Qed.

Lemma trySource_fold {A} (F : A -> Fetched) (save : A -> Collection -> Collection)
    (fetched : option (list A)) (c : Collection) (n : nat) :
  (forall j c', save j c' = saveFetched now (F j) c') ->
  trySource fetched save (c, n) =
    (fold_left (fun c r => saveFetched now r c) (map F (fetchedOf fetched)) c,
     n + length (fetchedOf fetched)).
Proof.
  intros Hsave. destruct fetched as [jobs|]; simpl.
  - now apply saveEach_fold.
  - f_equal. lia.
Qed.

Lemma services_fold (w : Sources) (names : list string) (c : Collection) (n : nat) :
  fold_left (fun st name => trySource (fetchJobs w name) (saveJob now) st) names (c, n) =
    (fold_left (fun c r => saveFetched now r c)
       (concat (map (fun name => map FromApi (fetchedOf (fetchJobs w name))) names)) c,
     n + list_sum (map (fun name => length (fetchedOf (fetchJobs w name))) names)).
Proof.
  revert c n. induction names as [|name names IH]; intros c n; simpl.
  - f_equal. lia.
  - rewrite (trySource_fold FromApi) by reflexivity.
    rewrite IH, fold_left_app. f_equal. lia.
Qed.
End Aggregate.

Lemma fetchedRecords_length (w : Sources) :
  length (fetchedRecords w) =
    list_sum (map (fun name => length (fetchedOf (fetchJobs w name))) services)
    + length (fetchedOf (fetchHandshakeJobs w))
    + length (fetchedOf (fetchLinkedIn w)).
Proof.
  unfold fetchedRecords. rewrite !length_app, !length_map.
  assert (Hlen : forall names,
             length (concat (map (fun name => map FromApi (fetchedOf (fetchJobs w name))) names))
             = list_sum (map (fun name => length (fetchedOf (fetchJobs w name))) names)).
  { induction names as [|x names IH]; simpl; [reflexivity|].
    now rewrite length_app, length_map, IH. }
  rewrite Hlen. lia.
Qed.

Lemma aggregateJobs_fold (now : Z) (w : Sources) (c : Collection) :
  aggregateJobs now w c =
    (fold_left (fun c r => saveFetched now r c) (fetchedRecords w) c,
     length (fetchedRecords w)).
Proof.
  rewrite fetchedRecords_length.
  unfold aggregateJobs, fetchedRecords.
  rewrite services_fold.
  rewrite (trySource_fold now FromHandshake) by reflexivity.
  rewrite (trySource_fold now FromLinkedIn) by reflexivity.
  rewrite !fold_left_app. reflexivity.
Qed.


Example aggregateJobs_one_source_down :
  let w := {| fetchJobs := fun name => if Str.eqs name "remoteok" then Some [exampleJob] else None;
              fetchHandshakeJobs := None;
              fetchLinkedIn := Some (getMockLinkedInJobs 0) |} in
  snd (aggregateJobs 0 w emptyCollection) = 4 /\
  map keyOf (docs (fst (aggregateJobs 0 w emptyCollection))) =
    [("REMOTEOK", "42"); ("LINKEDIN-MOCK", "mock-linkedin-1");
     ("LINKEDIN-MOCK", "mock-linkedin-2"); ("LINKEDIN-MOCK", "mock-linkedin-3")].
Proof. vm_compute. split; reflexivity. Qed.

(** ** cleanupOldJobs *)

Lemma isStale_iff (now : Z) (j : IJob) :
  isStale now j = true <->
  isActive j = true /\ (postedDate j + 21 * 86400000 < now)%Z.
Proof.
  unfold isStale, twentyOneDaysAgo, msPerDay.
  rewrite andb_true_iff, Z.ltb_lt. intuition lia.
Qed.

Lemma deactivate_keeps (j : IJob) :
  _id (deactivate j) = _id j /\ keyOf (deactivate j) = keyOf j /\
  postedDate (deactivate j) = postedDate j /\
  visaSponsorship (deactivate j) = visaSponsorship j /\
  isUniversityJob (deactivate j) = isUniversityJob j /\
  isActive (deactivate j) = false.
Proof. now destruct j. Qed.


Lemma cleanupOldJobs_ids (now : Z) (c : Collection) :
  map _id (docs (fst (cleanupOldJobs now c))) = map _id (docs c).
Proof.
  simpl. rewrite map_map. apply map_ext. intros j.
  destruct (isStale now j); [apply deactivate_keeps | reflexivity].
Qed.

Lemma cleanupOldJobs_keys (now : Z) (c : Collection) :
  map keyOf (docs (fst (cleanupOldJobs now c))) = map keyOf (docs c).
Proof.
  simpl. rewrite map_map. apply map_ext. intros j.
  destruct (isStale now j); [apply deactivate_keeps | reflexivity].
Qed.



(** ** The collection: lookups and the invariant *)

Lemma eqs_true (a b : string) : Str.eqs a b = true <-> a = b.
Proof. apply String.eqb_eq. Qed.

Lemma sameKey_true (src sid : string) (j : IJob) :
  sameKey src sid j = true <-> keyOf j = (src, sid).
Proof.
  unfold sameKey, keyOf. rewrite andb_true_iff, !eqs_true.
  split; [intros [-> ->]; reflexivity | intros [= -> ->]; auto].
Qed.

Lemma sameKey_of_keyOf (k : string * string) (j j' : IJob) :
  keyOf j = keyOf j' -> sameKey (fst k) (snd k) j = sameKey (fst k) (snd k) j'.
Proof. unfold sameKey, keyOf. now intros [= -> ->]. Qed.

Lemma NoDup_map_inj {A B} (f : A -> B) (l : list A) (x y : A) :
  NoDup (map f l) -> In x l -> In y l -> f x = f y -> x = y.
Proof.
  induction l as [|a l IH]; simpl; [tauto|].
  intros Hnd Hx Hy Hf. apply NoDup_cons in Hnd as [Hnotin Hnd'].
  destruct Hx as [->|Hx], Hy as [->|Hy]; auto.
  - exfalso. apply Hnotin, list_elem_of_In. rewrite Hf. now apply in_map.
  - exfalso. apply Hnotin, list_elem_of_In. rewrite <- Hf. now apply in_map.
Qed.

Lemma find_id_In (l : list IJob) (e : IJob) :
  In e l -> List.find (fun j => (_id j =? _id e)%nat) l <> None.
Proof.
  intros Hin Hnone.
  apply (find_none _ _ Hnone) in Hin. now rewrite Nat.eqb_refl in Hin.
Qed.

Lemma keyTaken_false_update (d : JobDoc.t) (e : IJob) (l : list IJob) :
  NoDup (map keyOf l) -> In e l ->
  keyOf e = (JobDoc.source d, JobDoc.sourceJobId d) ->
  keyTaken d (Some (_id e)) l = false.
Proof.
  intros Hnd Hin Hk. unfold keyTaken.
  apply not_true_is_false. intros Hex.
  apply existsb_exists in Hex as (j & Hj & Hc).
  apply andb_true_iff in Hc as [Hkey Hid].
  apply sameKey_true in Hkey.
  assert (j = e) as -> by (apply (NoDup_map_inj keyOf l); congruence).
  now rewrite Nat.eqb_refl in Hid.
Qed.

Lemma keyTaken_false_create (d : JobDoc.t) (l : list IJob) :
  List.find (sameKey (JobDoc.source d) (JobDoc.sourceJobId d)) l = None ->
  keyTaken d None l = false.
Proof.
  intros Hnone. unfold keyTaken.
  apply not_true_is_false. intros Hex.
  apply existsb_exists in Hex as (j & Hj & Hc).
  apply andb_true_iff in Hc as [Hkey _].
  apply (find_none _ _ Hnone) in Hj. congruence.
Qed.

Lemma castDoc_key (d : JobDoc.t) :
  JobDoc.source (castDoc d) = JobDoc.source d /\
  JobDoc.sourceJobId (castDoc d) = JobDoc.sourceJobId d.
Proof. split; reflexivity. Qed.

Lemma updateById_ids (i : nat) (f : IJob -> IJob) (l : list IJob) :
  (forall j, _id (f j) = _id j) -> map _id (updateById i f l) = map _id l.
Proof.
  intros Hf. induction l as [|j l IH]; simpl; [reflexivity|].
  destruct (_id j =? i)%nat; simpl; [now rewrite Hf | now rewrite IH].
Qed.

Lemma updateById_keys (i : nat) (f : IJob -> IJob) (l : list IJob) :
  (forall j, In j l -> _id j = i -> keyOf (f j) = keyOf j) ->
  map keyOf (updateById i f l) = map keyOf l.
Proof.
  induction l as [|j l IH]; simpl; intros Hf; [reflexivity|].
  destruct (Nat.eqb_spec (_id j) i) as [E|E]; simpl.
  - rewrite Hf; auto.
  - rewrite IH; auto.
Qed.

Lemma updateById_length (i : nat) (f : IJob -> IJob) (l : list IJob) :
  length (updateById i f l) = length l.
Proof.
  induction l as [|j l IH]; simpl; [reflexivity|].
  destruct (_id j =? i)%nat; simpl; congruence.
Qed.

Lemma upsert_upserted (d : JobDoc.t) (c : Collection) :
  wf c ->
  let e := findOne (JobDoc.source d) (JobDoc.sourceJobId d) c in
  upsert e d c = upserted e d c.
Proof.
  intros (Hids & Hlt & Hkeys). unfold findOne. simpl.
  destruct (List.find _ (docs c)) as [e|] eqn:Hfind; unfold upsert, upserted.
  - apply find_some in Hfind as [Hin Hkey]. apply sameKey_true in Hkey.
    unfold findByIdAndUpdate.
    destruct (List.find (fun j => (_id j =? _id e)%nat) (docs c)) eqn:Hid.
    + rewrite keyTaken_false_update; auto.
    + now apply find_id_In in Hid.
  - unfold create. rewrite keyTaken_false_create by exact Hfind.
    rewrite andb_true_r. now destruct (schemaValid (castDoc d)).
Qed.

Lemma upserted_wf (d : JobDoc.t) (c : Collection) :
  wf c ->
  wf (upserted (findOne (JobDoc.source d) (JobDoc.sourceJobId d) c) d c).
Proof.
  intros (Hids & Hlt & Hkeys). unfold findOne.
  destruct (List.find _ (docs c)) as [e|] eqn:Hfind; unfold upserted.
  - apply find_some in Hfind as [Hin Hkey]. apply sameKey_true in Hkey.
    assert (Hk : map keyOf (updateById (_id e) (applyUpdate (castDoc d)) (docs c))
                 = map keyOf (docs c)).
    { apply updateById_keys. intros j Hj Hi.
      assert (j = e) as -> by (apply (NoDup_map_inj _id (docs c)); auto).
      now rewrite Hkey. }
    assert (Hi : map _id (updateById (_id e) (applyUpdate (castDoc d)) (docs c))
                 = map _id (docs c)) by now apply updateById_ids.
    repeat split; simpl.
    + now rewrite Hi.
    + apply List.Forall_forall. intros j Hj.
      apply (in_map _id) in Hj. rewrite Hi in Hj.
      apply in_map_iff in Hj as (j0 & <- & Hj0).
      rewrite List.Forall_forall in Hlt. now apply Hlt.
    + now rewrite Hk.
  - destruct (schemaValid (castDoc d)); [|repeat split; assumption].
    rewrite List.Forall_forall in Hlt.
    repeat split; simpl.
    + rewrite map_app. simpl. apply NoDup_app. split; [assumption|]. split.
      * intros i Hi [<-|[]]%list_elem_of_In. apply list_elem_of_In in Hi.
        apply in_map_iff in Hi as (j & Hj & Hin).
        apply Hlt in Hin. simpl in Hj. lia.
      * repeat constructor. intros H. inversion H.
    + apply List.Forall_forall. intros j [Hj|[<-|[]]]%in_app_iff; simpl; [|lia].
      apply Hlt in Hj. lia.
    + rewrite map_app. simpl. apply NoDup_app. split; [assumption|]. split.
      * intros k Hk [<-|[]]%list_elem_of_In. apply list_elem_of_In in Hk.
        apply in_map_iff in Hk as (j & Hj & Hin).
        apply (find_none _ _ Hfind) in Hin.
        apply not_true_iff_false in Hin. apply Hin, sameKey_true. exact Hj.
      * repeat constructor. intros H. inversion H.
Qed.

Lemma saveFetched_upsert (now : Z) (r : Fetched) (c : Collection) :
  saveFetched now r c =
    upsert (findOne (fst (fetchedKey r)) (snd (fetchedKey r)) c) (fetchedDoc now r) c.
Proof. destruct r; reflexivity. Qed.

Lemma fetchedDoc_key (now : Z) (r : Fetched) :
  (JobDoc.source (fetchedDoc now r), JobDoc.sourceJobId (fetchedDoc now r)) = fetchedKey r.
Proof. destruct r; reflexivity. Qed.

Lemma saveFetched_upserted (now : Z) (r : Fetched) (c : Collection) :
  wf c ->
  saveFetched now r c =
    upserted (findOne (fst (fetchedKey r)) (snd (fetchedKey r)) c) (fetchedDoc now r) c.
Proof.
  intros Hwf. rewrite saveFetched_upsert, <- (fetchedDoc_key now r). simpl.
  now apply upsert_upserted.
Qed.

Lemma saveFetched_wf (now : Z) (r : Fetched) (c : Collection) :
  wf c -> wf (saveFetched now r c).
Proof.
  intros Hwf. rewrite saveFetched_upserted by assumption.
  rewrite <- (fetchedDoc_key now r). simpl. now apply upserted_wf.
Qed.

Lemma cleanupOldJobs_wf (now : Z) (c : Collection) :
  wf c -> wf (fst (cleanupOldJobs now c)).
Proof.
  intros (Hids & Hlt & Hkeys).
  pose proof (cleanupOldJobs_ids now c) as Hi.
  pose proof (cleanupOldJobs_keys now c) as Hk.
  repeat split.
  - now rewrite Hi.
  - change (nextId (fst (cleanupOldJobs now c))) with (nextId c).
    apply List.Forall_forall. intros j Hj.
    apply (in_map _id) in Hj. rewrite Hi in Hj.
    apply in_map_iff in Hj as (j0 & <- & Hj0).
    rewrite List.Forall_forall in Hlt. now apply Hlt.
  - now rewrite Hk.
Qed.

Lemma emptyCollection_wf : wf emptyCollection.
Proof. repeat split; simpl; constructor. Qed.

Lemma saves_wf (now : Z) (rs : list Fetched) (c : Collection) :
  wf c -> wf (fold_left (fun c r => saveFetched now r c) rs c).
Proof.
  revert c. induction rs as [|r rs IH]; intros c Hwf; simpl; [assumption|].
  apply IH. now apply saveFetched_wf.
Qed.



Lemma find_updateById_same (P : IJob -> bool) (f : IJob -> IJob) (l : list IJob) (e : IJob) :
  NoDup (map _id l) -> List.find P l = Some e -> P (f e) = true ->
  List.find P (updateById (_id e) f l) = Some (f e).
Proof.
  induction l as [|j l IH]; intros Hnd Hfind Hp; [discriminate|].
  apply NoDup_cons in Hnd as [Hnotin Hnd]. simpl in *.
  destruct (P j) eqn:Hj.
  - injection Hfind as ->. rewrite Nat.eqb_refl. simpl. now rewrite Hp.
  - destruct (Nat.eqb_spec (_id j) (_id e)) as [E|E].
    + exfalso. apply Hnotin. rewrite E. apply list_elem_of_In, in_map.
      now apply find_some in Hfind.
    + simpl. rewrite Hj. now apply IH.
Qed.

Lemma find_updateById_other (P : IJob -> bool) (f : IJob -> IJob) (l : list IJob) (e : IJob) :
  NoDup (map _id l) -> In e l -> P e = false -> P (f e) = false ->
  List.find P (updateById (_id e) f l) = List.find P l.
Proof.
  induction l as [|j l IH]; intros Hnd Hin He Hfe; [reflexivity|].
  apply NoDup_cons in Hnd as [Hnotin Hnd]. simpl in *.
  destruct (Nat.eqb_spec (_id j) (_id e)) as [E|E].
  - assert (j = e) as ->.
    { destruct Hin as [|Hin]; [assumption|]. exfalso. apply Hnotin.
      rewrite E. now apply list_elem_of_In, in_map. }
    simpl. now rewrite He, Hfe.
  - simpl. destruct (P j); [reflexivity|]. apply IH; auto.
    destruct Hin as [->|]; [congruence | assumption].
Qed.

Lemma find_snoc {A} (P : A -> bool) (l : list A) (x : A) :
  List.find P (l ++ [x]) =
  match List.find P l with
  | Some y => Some y
  | None => if P x then Some x else None
  end.
Proof.
  induction l as [|a l IH]; simpl; [reflexivity|].
  destruct (P a); [reflexivity | exact IH].
Qed.

(** The document found under the key of [d] after [upserted]. *)
Lemma findOne_upserted (d : JobDoc.t) (c : Collection) :
  wf c ->
  let src := JobDoc.source d in
  let sid := JobDoc.sourceJobId d in
  findOne src sid (upserted (findOne src sid c) d c) =
  match findOne src sid c with
  | Some e => Some (applyUpdate (castDoc d) e)
  | None => if schemaValid (castDoc d) then Some (newJob (nextId c) (castDoc d)) else None
  end.
Proof.
  intros (Hids & Hlt & Hkeys). unfold findOne. simpl.
  destruct (List.find _ (docs c)) as [e|] eqn:Hfind; unfold upserted.
  - simpl. apply find_updateById_same; auto. apply sameKey_true. reflexivity.
  - destruct (schemaValid (castDoc d)); [|exact Hfind].
    simpl. rewrite find_snoc, Hfind.
    assert (Hk : sameKey (JobDoc.source d) (JobDoc.sourceJobId d)
                   (newJob (nextId c) (castDoc d)) = true)
      by (apply sameKey_true; reflexivity).
    now rewrite Hk.
Qed.

(** Documents under another key are not touched by [upserted]. *)
Lemma findOne_upserted_other (d : JobDoc.t) (c : Collection) (src sid : string) :
  wf c ->
  (src, sid) <> (JobDoc.source d, JobDoc.sourceJobId d) ->
  findOne src sid (upserted (findOne (JobDoc.source d) (JobDoc.sourceJobId d) c) d c)
  = findOne src sid c.
Proof.
  intros (Hids & Hlt & Hkeys) Hne. unfold findOne.
  destruct (List.find (sameKey (JobDoc.source d) (JobDoc.sourceJobId d)) (docs c))
    as [e|] eqn:Hfind; unfold upserted.
  - simpl. apply find_some in Hfind as [Hin Hkey]. apply sameKey_true in Hkey.
    apply find_updateById_other; auto; apply not_true_iff_false;
      rewrite sameKey_true; intros Heq; apply Hne.
    + now rewrite <- Heq.
    + symmetry. exact Heq.
  - destruct (schemaValid (castDoc d)); [|reflexivity].
    simpl. rewrite find_snoc.
    destruct (List.find (sameKey src sid) (docs c)); [reflexivity|].
    assert (Hk : sameKey src sid (newJob (nextId c) (castDoc d)) = false).
    { apply not_true_iff_false. rewrite sameKey_true.
      intros Heq. apply Hne. symmetry. exact Heq. }
    now rewrite Hk.
Qed.


(** ** Upsert by (source, sourceJobId) *)

Example saveJob_twice :
  let c1 := saveJob 5 exampleJob emptyCollection in
  let c2 := saveJob 9 exampleJob c1 in
  map keyOf (docs c1) = [("REMOTEOK", "42")] /\
  map keyOf (docs c2) = [("REMOTEOK", "42")] /\
  map _id (docs c2) = [0] /\ map lastRefreshed (docs c2) = [9%Z].
Proof. vm_compute. repeat split; reflexivity. Qed.



(** ** What a save stores *)

(** The document found under the record's pair after the save is either the
    updated old document or the newly created one. *)
Lemma stored_shape (now : Z) (r : Fetched) (c : Collection) (j : IJob) :
  wf c ->
  findOne (fst (fetchedKey r)) (snd (fetchedKey r)) (saveFetched now r c) = Some j ->
  (exists e, j = applyUpdate (castDoc (fetchedDoc now r)) e) \/
  j = newJob (nextId c) (castDoc (fetchedDoc now r)).
Proof.
  intros Hwf. rewrite saveFetched_upserted by assumption.
  rewrite <- (fetchedDoc_key now r). simpl.
  rewrite findOne_upserted by assumption.
  destruct (findOne _ _ c) as [e|].
  - intros [= <-]. left. now exists e.
  - destruct (schemaValid _); [|discriminate]. intros [= <-]. now right.
Qed.

Lemma stored_flags (now : Z) (r : Fetched) (c : Collection) (j : IJob) :
  wf c ->
  findOne (fst (fetchedKey r)) (snd (fetchedKey r)) (saveFetched now r c) = Some j ->
  isUniversityJob j = JobDoc.isUniversityJob (fetchedDoc now r) /\
  visaSponsorship j = JobDoc.visaSponsorship (fetchedDoc now r) /\
  description j = JobDoc.description (fetchedDoc now r) /\
  isActive j = true.
Proof.
  intros Hwf Hj. destruct (stored_shape now r c j Hwf Hj) as [[e ->] | ->];
    destruct r; repeat split; reflexivity.
Qed.

(** The save leaves a document under the record's pair whenever one was
    there before or the new one passes the schema. *)
Lemma stored_exists (now : Z) (r : Fetched) (c : Collection) :
  wf c ->
  findOne (fst (fetchedKey r)) (snd (fetchedKey r)) (saveFetched now r c) = None ->
  findOne (fst (fetchedKey r)) (snd (fetchedKey r)) c = None /\
  schemaValid (castDoc (fetchedDoc now r)) = false.
Proof.
  intros Hwf. rewrite saveFetched_upserted by assumption.
  rewrite <- (fetchedDoc_key now r). simpl.
  rewrite findOne_upserted by assumption.
  destruct (findOne _ _ c) as [e|]; [discriminate|].
  destruct (schemaValid _); [discriminate | auto].
Qed.

(** C10: the document stored for a LinkedIn record is a university job
    exactly when the record's employmentType is INTERNSHIP or its
    experienceLevel is ENTRY; the document stored for a Handshake record
    always is one, and the document stored for a record of the five generic
    sources never is.  A document is stored unless the pair is new and the
    schema refuses the record. *)
Theorem isUniversityJob_by_source (now : Z) (c : Collection) :
  wf c ->
  (forall jd j,
      findOne (LinkedIn.source jd) (LinkedIn.sourceJobId jd) (saveLinkedInJob now jd c) = Some j ->
      (isUniversityJob j = true <->
       LinkedIn.employmentType jd = "INTERNSHIP" \/
       LinkedIn.experienceLevel jd = Some "ENTRY")) /\
  (forall jd j,
      findOne (Handshake.source jd) (Handshake.sourceJobId jd) (saveHandshakeJob now jd c) = Some j ->
      isUniversityJob j = true) /\
  (forall jd j,
      findOne (Str.toUpperCase (Api.source jd)) (Api.id jd) (saveJob now jd c) = Some j ->
      isUniversityJob j = false) /\
  (forall r,
      findOne (fst (fetchedKey r)) (snd (fetchedKey r)) (saveFetched now r c) = None ->
      findOne (fst (fetchedKey r)) (snd (fetchedKey r)) c = None /\
      schemaValid (castDoc (fetchedDoc now r)) = false).
Proof.
  intros Hwf. split; [|split; [|split]].
  - intros jd j H.
    apply (stored_flags now (FromLinkedIn jd)) in H as [Hj _]; [|assumption].
    rewrite Hj. simpl. rewrite orb_true_iff, eqs_true.
    unfold levelIs. destruct (LinkedIn.experienceLevel jd) as [l|].
    + rewrite eqs_true. split; (intros [?|?]; [left | right]); congruence.
    + split; (intros [?|?]; [left | right]); congruence.
  - intros jd j H. now apply (stored_flags now (FromHandshake jd)) in H as [Hj _].
  - intros jd j H. now apply (stored_flags now (FromApi jd)) in H as [Hj _].
  - intros r. now apply stored_exists.
Qed.

Lemma isUniversityJob_by_source_witness :
  findOne "LINKEDIN" "7" (saveLinkedInJob 0 exampleLinkedInJob emptyCollection)
    = Some (newJob 0 (castDoc (saveLinkedInJobDoc 0 exampleLinkedInJob))) /\
  isUniversityJob (newJob 0 (castDoc (saveLinkedInJobDoc 0 exampleLinkedInJob))) = true.
Proof.
  destruct (isUniversityJob_by_source 0 emptyCollection emptyCollection_wf) as [Hl _].
  split; [reflexivity|].
  apply (Hl exampleLinkedInJob _ eq_refl). right. reflexivity.
Defined.

Example isUniversityJob_linkedin_senior :
  map isUniversityJob
    (docs (saveLinkedInJob 0
         {| LinkedIn.sourceJobId := "8"; LinkedIn.source := "LINKEDIN";
            LinkedIn.title := "Staff Engineer"; LinkedIn.company := "Acme";
            LinkedIn.location := "Remote"; LinkedIn.description := "Lead the team";
            LinkedIn.remote := true; LinkedIn.employmentType := "FULL_TIME";
            LinkedIn.postedDate := 0; LinkedIn.applicationUrl := "https://example.com/8";
            LinkedIn.experienceLevel := Some "SENIOR"; LinkedIn.skills := Some [] |}
         emptyCollection)) = [false].
Proof. reflexivity. Qed.

(** ** Visa sponsorship flags *)

(** C2 (as amended): the document stored for a Handshake or a LinkedIn
    record has h1b, opt and stemOpt all false, whatever its text; the
    document stored for a record of a generic source carries the flags that
    came with the record, all false when it came with none. *)
Theorem visaSponsorship_as_stored (now : Z) (c : Collection) :
  wf c ->
  (forall jd j,
      findOne (Handshake.source jd) (Handshake.sourceJobId jd) (saveHandshakeJob now jd c) = Some j ->
      visaSponsorship j = {| h1b := false; opt := false; stemOpt := false |}) /\
  (forall jd j,
      findOne (LinkedIn.source jd) (LinkedIn.sourceJobId jd) (saveLinkedInJob now jd c) = Some j ->
      visaSponsorship j = {| h1b := false; opt := false; stemOpt := false |}) /\
  (forall jd j,
      findOne (Str.toUpperCase (Api.source jd)) (Api.id jd) (saveJob now jd c) = Some j ->
      visaSponsorship j =
        match Api.visaSponsorship jd with
        | Some v => v
        | None => {| h1b := false; opt := false; stemOpt := false |}
        end).
Proof.
  intros Hwf. split; [|split]; intros jd j H.
  - now apply (stored_flags now (FromHandshake jd)) in H as (_ & Hv & _).
  - now apply (stored_flags now (FromLinkedIn jd)) in H as (_ & Hv & _).
  - apply (stored_flags now (FromApi jd)) in H as (_ & Hv & _); [|assumption].
    rewrite Hv. simpl. now destruct (Api.visaSponsorship jd).
Qed.

Lemma visaSponsorship_as_stored_witness :
  let jd := handshakeJobWithText "H1B sponsorship available." in
  visaSponsorship (newJob 0 (castDoc (saveHandshakeJobDoc 0 jd)))
  = {| h1b := false; opt := false; stemOpt := false |}.
Proof.
  intros jd.
  destruct (visaSponsorship_as_stored 0 emptyCollection emptyCollection_wf) as [Hh _].
  apply (Hh jd). reflexivity.
Defined.

(** The generic path hands the flags through: two records with the same
    text and different flags are stored with different flags. *)
Example saveJob_flags_pass_through :
  let flagged := {| Api.id := "42"; Api.source := "remoteok"; Api.title := Some "Engineer";
                    Api.company := Some "Acme"; Api.location := None;
                    Api.description := Some "Build things"; Api.employmentType := None;
                    Api.remote := Some true;
                    Api.visaSponsorship := Some {| h1b := true; opt := false; stemOpt := false |};
                    Api.url := Some "https://example.com/42"; Api.postedDate := Some 0%Z;
                    Api.skills := None |} in
  map (fun j => (description j, visaSponsorship j)) (docs (saveJob 0 flagged emptyCollection))
    = [("Build things", {| h1b := true; opt := false; stemOpt := false |})] /\
  map (fun j => (description j, visaSponsorship j)) (docs (saveJob 0 exampleJob emptyCollection))
    = [("Build things", {| h1b := false; opt := false; stemOpt := false |})].
Proof. split; reflexivity. Qed.

(** C2 (as stated) fails: the five mock Handshake postings are stored with
    all flags false, the fifth although its text announces H1B sponsorship;
    and no classification of the text that flags anything at all agrees
    with what [saveHandshakeJob] stores. *)
Lemma visaSponsorship_not_from_text :
  map (fun j => (sourceJobId j,
                 Str.includes (description j) "H1B sponsorship available",
                 visaSponsorship j))
      (docs (fold_left (fun c jd => saveHandshakeJob 0 jd c)
                       (getMockUniversityJobs 0) emptyCollection))
  = [("mock-handshake-1", false, noVisa); ("mock-handshake-2", false, noVisa);
     ("mock-handshake-3", false, noVisa); ("mock-handshake-4", false, noVisa);
     ("mock-handshake-5", true, noVisa)] /\
  ~ (exists classify : string -> VisaSponsorship,
        (exists text, classify text <> noVisa) /\
        (forall now jd c j,
            wf c ->
            findOne (Handshake.source jd) (Handshake.sourceJobId jd)
                    (saveHandshakeJob now jd c) = Some j ->
            visaSponsorship j = classify (description j))).
Proof.
  split; [vm_compute; reflexivity|].
  intros (classify & (text & Hflag) & Hall).
  pose (c0 := saveHandshakeJob 0 (handshakeJobWithText "Build things") emptyCollection).
  assert (Hwf : wf c0) by apply (saveFetched_wf 0 (FromHandshake _)), emptyCollection_wf.
  destruct (findOne "HANDSHAKE" "h-1" (saveHandshakeJob 0 (handshakeJobWithText text) c0))
    as [j|] eqn:Hj.
  - pose proof (Hall 0%Z (handshakeJobWithText text) c0 j Hwf Hj) as Hc.
    apply (stored_flags 0 (FromHandshake (handshakeJobWithText text))) in Hj
      as (_ & Hv & Hd & _); [|assumption].
    apply Hflag. rewrite Hd, Hv in Hc. symmetry. exact Hc.
  - apply (stored_exists 0 (FromHandshake (handshakeJobWithText text))) in Hj
      as [Hnone _]; [|assumption].
    vm_compute in Hnone. discriminate.
Qed.

(** ** searchJobs *)

Lemma insertDesc_perm (j : IJob) (l : list IJob) :
  Permutation (insertDesc j l) (j :: l).
Proof.
  induction l as [|k l IH]; simpl; [reflexivity|].
  destruct (postedDate j <? postedDate k)%Z; [|reflexivity].
  rewrite IH. apply perm_swap.
Qed.

Lemma sortByPostedDateDesc_perm (l : list IJob) :
  Permutation (sortByPostedDateDesc l) l.
Proof.
  induction l as [|j l IH]; simpl; [reflexivity|].
  rewrite insertDesc_perm. now constructor.
Qed.

Lemma insertDesc_sorted (j : IJob) (l : list IJob) :
  StronglySorted newerEq l -> StronglySorted newerEq (insertDesc j l).
Proof.
  induction l as [|k l IH]; intros Hs; simpl.
  - repeat constructor.
  - inversion Hs as [|? ? Hs' Hall]; subst.
    destruct (Z.ltb_spec (postedDate j) (postedDate k)) as [Hlt|Hge].
    + constructor; [now apply IH|].
      apply List.Forall_forall. intros x Hx.
      apply (Permutation_in _ (insertDesc_perm j l)) in Hx as [<-|Hx].
      * unfold newerEq. lia.
      * rewrite List.Forall_forall in Hall. now apply Hall.
    + constructor; [assumption|]. constructor; [exact Hge|].
      apply List.Forall_forall. intros x Hx.
      rewrite List.Forall_forall in Hall. apply Hall in Hx.
      unfold newerEq in *. lia.
Qed.

Lemma sortByPostedDateDesc_sorted (l : list IJob) :
  StronglySorted newerEq (sortByPostedDateDesc l).
Proof.
  induction l as [|j l IH]; simpl; [constructor | now apply insertDesc_sorted].
Qed.

Lemma In_take {A} (n : nat) (l : list A) (x : A) : In x (take n l) -> In x l.
Proof. intros H. rewrite <- (firstn_skipn n l). apply in_or_app. now left. Qed.

Lemma In_drop {A} (n : nat) (l : list A) (x : A) : In x (drop n l) -> In x l.
Proof. intros H. rewrite <- (firstn_skipn n l). apply in_or_app. now right. Qed.

Lemma limit_In (n : Z) (l : list IJob) (j : IJob) : In j (limit n l) -> In j l.
Proof. unfold limit. destruct (n =? 0)%Z; [auto | apply In_take]. Qed.

Lemma queryMatches_active (eng : Engine) (filters : Filters.t) (j : IJob) :
  queryMatches eng (buildQuery filters) j = true -> isActive j = true.
Proof.
  unfold queryMatches, buildQuery. simpl.
  intros [H _]%andb_true_iff. now destruct (isActive j).
Qed.

(** Every job of a search result is a stored document with [isActive]. *)
Lemma searchJobs_sound (eng : Engine) (filters : Filters.t) (page limit_arg : Z)
    (c : Collection) (r : SearchResult) (j : IJob) :
  searchJobs eng filters page limit_arg c = Some r ->
  In j (jobs r) -> In j (docs c) /\ isActive j = true.
Proof.
  unfold searchJobs, skip.
  destruct (_ <? 0)%Z; [discriminate|]. intros [= <-]. simpl.
  intros H%limit_In%In_drop.
  apply (Permutation_in _ (sortByPostedDateDesc_perm _)) in H.
  unfold find in H. apply filter_In in H as [Hin Hq].
  split; [assumption | now apply queryMatches_active in Hq].
Qed.

Lemma ceilDiv_pos (t l : Z) :
  (0 < l)%Z ->
  exists p, ceilDiv t l = Num p /\ (t <= p * l)%Z /\ ((p - 1) * l < t)%Z.
Proof.
  intros Hl. unfold ceilDiv.
  destruct (Z.eqb_spec l 0) as [E|_]; [lia|].
  exists (- (- t / l))%Z. split; [reflexivity|].
  pose proof (Z.div_mod (- t) l ltac:(lia)) as Hdm.
  pose proof (Z.mod_pos_bound (- t) l Hl) as Hm.
  nia.
Qed.

(** C8: for a positive page and a positive limit, [searchJobs] returns; the
    jobs are the first [limit] of what is left of the matching documents,
    sorted newest first, once [(page - 1) * limit] of them are skipped, so
    at most [limit] jobs; [total] counts the matching documents and [pages]
    is the ceiling of [total / limit]. *)
Theorem searchJobs_pagination (eng : Engine) (filters : Filters.t) (page limit_arg : Z)
    (c : Collection) :
  (0 < page)%Z -> (0 < limit_arg)%Z ->
  let matching := find eng (buildQuery filters) c in
  exists r sorted p,
    searchJobs eng filters page limit_arg c = Some r /\
    Permutation sorted matching /\
    StronglySorted newerEq sorted /\
    jobs r = take (Z.to_nat limit_arg) (drop (Z.to_nat ((page - 1) * limit_arg)) sorted) /\
    length (jobs r) <= Z.to_nat limit_arg /\
    length (jobs r) =
      Nat.min (Z.to_nat limit_arg) (length matching - Z.to_nat ((page - 1) * limit_arg)) /\
    total (pagination r) = length matching /\
    pages (pagination r) = Num p /\
    (Z.of_nat (length matching) <= p * limit_arg)%Z /\
    ((p - 1) * limit_arg < Z.of_nat (length matching))%Z.
Proof.
  intros Hpage Hlimit matching.
  destruct (ceilDiv_pos (Z.of_nat (length matching)) limit_arg Hlimit) as (p & Hp & Hle & Hlt).
  unfold searchJobs, skip.
  destruct (Z.ltb_spec ((page - 1) * limit_arg) 0) as [Hneg|_]; [nia|].
  eexists _, (sortByPostedDateDesc matching), p.
  split; [reflexivity|]. simpl.
  assert (Hlim : forall l, limit limit_arg l = take (Z.to_nat limit_arg) l).
  { intros l. unfold limit. destruct (Z.eqb_spec limit_arg 0); [lia|].
    now rewrite Z.abs_eq by lia. }
  rewrite Hlim.
  split; [apply sortByPostedDateDesc_perm|].
  split; [apply sortByPostedDateDesc_sorted|].
  split; [reflexivity|].
  assert (Hlen : length (sortByPostedDateDesc matching) = length matching)
    by apply Permutation_length, sortByPostedDateDesc_perm.
  rewrite length_take, length_drop.
  unfold countDocuments. fold matching. rewrite Hlen.
  repeat split; auto; lia.
Qed.

Lemma searchJobs_pagination_witness :
  exists r sorted p,
    searchJobs permissiveEngine noFilters 2 2
      (fst (aggregateJobs 0
              {| fetchJobs := fun _ => None;
                 fetchHandshakeJobs := Some (getMockUniversityJobs 0);
                 fetchLinkedIn := None |} emptyCollection)) = Some r /\
    Permutation sorted
      (find permissiveEngine (buildQuery noFilters)
         (fst (aggregateJobs 0
              {| fetchJobs := fun _ => None;
                 fetchHandshakeJobs := Some (getMockUniversityJobs 0);
                 fetchLinkedIn := None |} emptyCollection))) /\
    map sourceJobId (jobs r) = ["mock-handshake-3"; "mock-handshake-4"] /\
    total (pagination r) = 5 /\
    pages (pagination r) = Num p /\ p = 3%Z.
Proof.
  destruct (searchJobs_pagination permissiveEngine noFilters 2 2
              (fst (aggregateJobs 0
                 {| fetchJobs := fun _ => None;
                    fetchHandshakeJobs := Some (getMockUniversityJobs 0);
                    fetchLinkedIn := None |} emptyCollection)))
    as (r & sorted & p & Hr & Hperm & _ & Hjobs & _ & _ & Htot & Hp & Hle & Hlt);
    [lia | lia |].
  exists r, sorted, p.
  vm_compute in Hr. injection Hr as <-.
  split; [reflexivity|]. split; [exact Hperm|].
  split; [reflexivity|]. split; [reflexivity|].
  split; [exact Hp|].
  vm_compute in Hp. now injection Hp as <-.
Defined.

(** ** Expired postings and search *)

Lemma find_map_same {A} (P : A -> bool) (g : A -> A) (l : list A) :
  (forall x, P (g x) = P x) ->
  List.find P (map g l) = option_map g (List.find P l).
Proof.
  intros Hg. induction l as [|x l IH]; simpl; [reflexivity|].
  rewrite Hg. destruct (P x); [reflexivity | exact IH].
Qed.

Lemma findOne_cleanupOldJobs (now : Z) (src sid : string) (c : Collection) :
  findOne src sid (fst (cleanupOldJobs now c)) =
  option_map (fun j => if isStale now j then deactivate j else j) (findOne src sid c).
Proof.
  unfold findOne. simpl. apply find_map_same. intros j.
  destruct (isStale now j); [|reflexivity].
  apply (sameKey_of_keyOf (src, sid)), deactivate_keeps.
Qed.

Lemma findOne_In (c : Collection) (j : IJob) :
  wf c -> In j (docs c) -> findOne (source j) (sourceJobId j) c = Some j.
Proof.
  intros (_ & _ & Hkeys) Hin. unfold findOne.
  destruct (List.find _ (docs c)) as [e|] eqn:Hfind.
  - apply find_some in Hfind as [He Hk]. apply sameKey_true in Hk.
    f_equal. now apply (NoDup_map_inj keyOf (docs c)).
  - apply (find_none _ _ Hfind) in Hin.
    assert (sameKey (source j) (sourceJobId j) j = true) by now apply sameKey_true.
    congruence.
Qed.

Lemma expired_runOp (k : string * string) (i : nat) (c : Collection) (op : Op) :
  ~ touches k op -> expired k i c -> expired k i (runOp c op).
Proof.
  intros Hop (Hwf & e & Hfind & Hid & Hact).
  destruct op as [now r|now]; unfold runOp, touches in *.
  - split; [now apply saveFetched_wf|]. exists e.
    rewrite saveFetched_upserted by assumption.
    rewrite <- (fetchedDoc_key now r) in Hop |- *. simpl.
    rewrite findOne_upserted_other; auto.
    intros Heq. apply Hop. rewrite <- Heq. now destruct k.
  - split; [now apply cleanupOldJobs_wf|]. exists e.
    rewrite findOne_cleanupOldJobs, Hfind. simpl.
    unfold isStale. rewrite Hact, andb_false_r. auto.
Qed.

Lemma expired_not_found (k : string * string) (i : nat) (c : Collection)
    (eng : Engine) (filters : Filters.t) (page limit_arg : Z) (r : SearchResult) (j : IJob) :
  expired k i c ->
  searchJobs eng filters page limit_arg c = Some r ->
  In j (jobs r) -> keyOf j <> k /\ _id j <> i.
Proof.
  intros ((Hids & _ & Hkeys) & e & Hfind & Hid & Hact) Hr Hj.
  destruct (searchJobs_sound _ _ _ _ _ _ _ Hr Hj) as [Hin Hactive].
  apply find_some in Hfind as [He Hk]. apply sameKey_true in Hk.
  rewrite <- surjective_pairing in Hk.
  split; intros Heq.
  - assert (j = e) by (apply (NoDup_map_inj keyOf (docs c)); congruence). congruence.
  - assert (j = e) by (apply (NoDup_map_inj _id (docs c)); congruence). congruence.
Qed.

(** C6 (as amended): [searchJobs] returns only stored documents whose
    [isActive] is true; so a posting that [cleanupOldJobs] has expired is in
    no search result afterwards, for as long as the operations that follow
    are further cleanups and saves of records with another
    (source, sourceJobId) pair. *)
Theorem searchJobs_only_active :
  (forall eng filters page limit_arg c r j,
      searchJobs eng filters page limit_arg c = Some r ->
      In j (jobs r) -> In j (docs c) /\ isActive j = true) /\
  (forall c now j ops,
      wf c -> In j (docs c) ->
      isActive j = true -> (postedDate j + 21 * 86400000 < now)%Z ->
      (forall op, In op ops -> ~ touches (keyOf j) op) ->
      forall eng filters page limit_arg r j',
        searchJobs eng filters page limit_arg
                   (fold_left runOp ops (fst (cleanupOldJobs now c))) = Some r ->
        In j' (jobs r) -> keyOf j' <> keyOf j /\ _id j' <> _id j).
Proof.
  split; [exact searchJobs_sound|].
  intros c now j ops Hwf Hin Hact Hold Hops eng filters page limit_arg r j'.
  apply expired_not_found.
  assert (Hexp : expired (keyOf j) (_id j) (fst (cleanupOldJobs now c))).
  { split; [now apply cleanupOldJobs_wf|]. exists (deactivate j).
    rewrite findOne_cleanupOldJobs. simpl. rewrite findOne_In by assumption. simpl.
    assert (Hs : isStale now j = true) by now apply isStale_iff.
    rewrite Hs. auto. }
  clear Hwf Hin. revert Hexp Hops. generalize (fst (cleanupOldJobs now c)).
  induction ops as [|op ops IH]; intros c1 Hexp Hops; simpl; [assumption|].
  apply IH.
  - apply expired_runOp; [|assumption]. apply Hops. now left.
  - intros op' Hop'. apply Hops. now right.
Qed.

Lemma searchJobs_only_active_witness :
  let c0 := saveJob 0 exampleJob emptyCollection in
  let ops := [OpCleanup 2000000001; OpSave 2000000002 (FromLinkedIn exampleLinkedInJob)] in
  exists r,
    searchJobs permissiveEngine noFilters 1 20
               (fold_left runOp ops (fst (cleanupOldJobs 2000000000 c0))) = Some r /\
    map keyOf (jobs r) = [("LINKEDIN", "7")] /\
    Forall (fun j' => keyOf j' <> ("REMOTEOK", "42") /\ _id j' <> 0) (jobs r).
Proof.
  intros c0 ops. eexists. split; [reflexivity|]. split; [reflexivity|].
  apply List.Forall_forall. intros j' Hj'.
  destruct searchJobs_only_active as [_ H].
  assert (Hwf : wf c0)
    by apply (saveFetched_wf 0 (FromApi exampleJob)), emptyCollection_wf.
  assert (Hops : forall op, In op ops ->
                   ~ touches (keyOf (newJob 0 (castDoc (saveJobDoc 0 exampleJob)))) op).
  { intros op [<-|[<-|[]]]; simpl; [tauto | discriminate]. }
  exact (H c0 2000000000%Z (newJob 0 (castDoc (saveJobDoc 0 exampleJob))) ops
           Hwf (or_introl eq_refl) eq_refl eq_refl Hops
           permissiveEngine noFilters 1%Z 20%Z _ j' eq_refl Hj').
Defined.

(** C6 (as stated) fails: a posting that [cleanupOldJobs] has expired is
    found again by a search once a later aggregation run saves the same
    record, because every save sets [isActive] to true. *)
Lemma expired_job_found_again :
  let c0 := saveJob 0 exampleJob emptyCollection in
  let c1 := fst (cleanupOldJobs 2000000000 c0) in
  let c2 := saveJob 2000000001 exampleJob c1 in
  map (fun j => (_id j, keyOf j, isActive j)) (docs c0) = [(0, ("REMOTEOK", "42"), true)] /\
  snd (cleanupOldJobs 2000000000 c0) = 1 /\
  map (fun j => (_id j, keyOf j, isActive j)) (docs c1) = [(0, ("REMOTEOK", "42"), false)] /\
  option_map (fun r => map _id (jobs r)) (searchJobs permissiveEngine noFilters 1 20 c1)
    = Some [] /\
  option_map (fun r => map (fun j => (_id j, keyOf j, isActive j)) (jobs r))
             (searchJobs permissiveEngine noFilters 1 20 c2)
    = Some [(0, ("REMOTEOK", "42"), true)].
Proof. vm_compute. repeat split; reflexivity. Qed.

(** ** fetchLinkedInMultiple: deduplication by sourceJobId *)

Lemma Deduped_start : Deduped [] ([], ∅).
Proof.
  split; simpl.
  - intros s. set_solver.
  - constructor.
  - constructor.
  - intros y Hy. inversion Hy.
  - intros j Hj. inversion Hj.
Qed.

Lemma firstOfItsId_snoc (all : list LinkedIn.TransformedJob) (x j : LinkedIn.TransformedJob) :
  firstOfItsId all j -> firstOfItsId (all ++ [x]) j.
Proof.
  intros (i & Hi & Hfirst). exists i. split; [now apply lookup_app_l_Some|].
  intros k y Hk Hy. apply (Hfirst k y Hk).
  rewrite lookup_app_l in Hy; [assumption|].
  apply lookup_lt_Some in Hi. lia.
Qed.

Lemma addUnique_Deduped (all : list LinkedIn.TransformedJob) (st : Seen) (x : LinkedIn.TransformedJob) :
  Deduped all st -> Deduped (all ++ [x]) (addUnique st x).
Proof.
  intros [Hseen Hnd Hsub Hall Hfirst]. unfold addUnique.
  destruct (bool_decide_reflect (LinkedIn.sourceJobId x ∈ snd st)) as [Hin|Hnotin].
  - split; auto.
    + now apply sublist_inserts_r.
    + intros y [Hy|Hy]%elem_of_app; [now apply Hall|].
      apply list_elem_of_singleton in Hy as ->. now apply Hseen.
    + intros j Hj. now apply firstOfItsId_snoc, Hfirst.
  - split; simpl.
    + intros s. rewrite map_app, elem_of_union, elem_of_app, elem_of_singleton, Hseen.
      simpl. rewrite list_elem_of_singleton. tauto.
    + rewrite map_app. apply NoDup_app. split; [assumption|]. split.
      * intros s Hs Hx. apply list_elem_of_singleton in Hx as ->.
        now apply Hnotin, Hseen.
      * apply NoDup_singleton.
    + now apply sublist_app.
    + intros y Hy. rewrite map_app, elem_of_app.
      apply elem_of_app in Hy as [Hy|Hy]; [left; now apply Hall|].
      right. apply list_elem_of_singleton in Hy as ->. simpl. now left.
    + intros j [Hj|Hj]%elem_of_app; [now apply firstOfItsId_snoc, Hfirst|].
      apply list_elem_of_singleton in Hj as ->.
      exists (length all). split.
      * now apply list_lookup_middle.
      * intros k y Hk Hy Heq. rewrite lookup_app_l in Hy by assumption.
        apply list_elem_of_lookup_2, Hall, Hseen in Hy.
        apply Hnotin. now rewrite <- Heq.
Qed.

Lemma forEach_Deduped (xs all : list LinkedIn.TransformedJob) (st : Seen) :
  Deduped all st -> Deduped (all ++ xs) (fold_left addUnique xs st).
Proof.
  revert all st. induction xs as [|x xs IH]; intros all st Hd; simpl.
  - now rewrite app_nil_r.
  - rewrite (cons_middle x), app_assoc. apply IH. now apply addUnique_Deduped.
Qed.

Lemma fetchLocation_Deduped (now : Z) (env : LinkedInEnv) (location : string)
    (all : list LinkedIn.TransformedJob) (st : Seen) :
  Deduped all st ->
  Deduped (all ++ transformLinkedInJobs now (fetchedOf (get env location)))
          (fetchLocation now env st location).
Proof.
  intros Hd. unfold fetchLocation.
  destruct (get env location) as [data|]; simpl.
  - destruct data as [|job data]; simpl.
    + now rewrite app_nil_r.
    + now apply (forEach_Deduped (transformLinkedInJobs now (job :: data))).
  - now rewrite app_nil_r.
Qed.

Lemma fetchLinkedInLoop_Deduped (now : Z) (env : LinkedInEnv) (locations : list string) :
  Deduped (fetchedBatches now env locations) (fetchLinkedInLoop now env locations).
Proof.
  unfold fetchLinkedInLoop, fetchedBatches.
  assert (H : forall all st, Deduped all st ->
    Deduped (all ++ concat (map (fun location =>
               transformLinkedInJobs now (fetchedOf (get env location))) locations))
            (fold_left (fetchLocation now env) locations st)).
  { induction locations as [|location locations IH]; intros all st Hd; simpl.
    - now rewrite app_nil_r.
    - rewrite app_assoc. apply IH. now apply fetchLocation_Deduped. }
  apply (H [] ([], ∅)), Deduped_start.
Qed.

Example fetchLinkedInMultiple_example :
  map LinkedIn.sourceJobId (fetchedBatches 0 exampleEnv locationFilters)
    = ["a"; "b"; "a"; "b"; "c"] /\
  map LinkedIn.sourceJobId (fetchLinkedInMultiple 0 exampleEnv) = ["a"; "b"; "c"].
Proof. vm_compute. split; reflexivity. Qed.

(** C7: the list returned by [fetchLinkedInMultiple] never holds two jobs
    with the same sourceJobId.  With the API key set it is, for the four
    location filters as for any other list of them, what is left of the
    fetched batches in fetch order when of each sourceJobId the first job
    is kept and the later ones are skipped; a request that fails or returns
    nothing adds no job. *)
Theorem fetchLinkedInMultiple_dedup (now : Z) (env : LinkedInEnv) :
  NoDup (map LinkedIn.sourceJobId (fetchLinkedInMultiple now env)) /\
  (optTruthy (RAPIDAPI_KEY env) = true ->
   fetchLinkedInMultiple now env = fst (fetchLinkedInLoop now env locationFilters)) /\
  (forall locations,
      let all := fetchedBatches now env locations in
      let result := fst (fetchLinkedInLoop now env locations) in
      NoDup (map LinkedIn.sourceJobId result) /\
      result `sublist_of` all /\
      (forall y, y ∈ all ->
                 LinkedIn.sourceJobId y ∈ map LinkedIn.sourceJobId result) /\
      (forall j, j ∈ result -> firstOfItsId all j)).
Proof.
  split; [|split].
  - unfold fetchLinkedInMultiple.
    destruct (negb (optTruthy (RAPIDAPI_KEY env))).
    + simpl. apply (bool_decide_unpack _). vm_compute. exact I.
    + apply (fetchLinkedInLoop_Deduped now env locationFilters).
  - intros Hkey. unfold fetchLinkedInMultiple. now rewrite Hkey.
  - intros locations.
    destruct (fetchLinkedInLoop_Deduped now env locations) as [_ Hnd Hsub Hall Hfirst].
    simpl. auto.
Qed.

Lemma fetchLinkedInMultiple_dedup_witness :
  fetchLinkedInMultiple 0 exampleEnv = fst (fetchLinkedInLoop 0 exampleEnv locationFilters) /\
  NoDup (map LinkedIn.sourceJobId (fetchLinkedInMultiple 0 exampleEnv)).
Proof.
  destruct (fetchLinkedInMultiple_dedup 0 exampleEnv) as (Hnd & Hkey & _).
  split; [apply Hkey; reflexivity | exact Hnd].
Defined.

(** * Further properties *)

(** ** The type and level mappings of the two clients *)

Lemma mapJobType_range (jobType : option string) :
  In (mapJobType jobType) employmentTypeEnum.
Proof.
  unfold mapJobType, employmentTypeEnum.
  destruct jobType as [t|]; [|simpl; tauto].
  destruct (negb (Str.truthy t)); [simpl; tauto|].
  repeat match goal with
         | |- context [if ?b then _ else _] => destruct b
         end; simpl; tauto.
Qed.

Lemma mapEmploymentType_fixes_enum (v : string) :
  In v employmentTypeEnum -> mapEmploymentType (Some v) = v.
Proof.
  unfold employmentTypeEnum. simpl.
  intros [<-|[<-|[<-|[<-|[<-|[]]]]]]; reflexivity.
Qed.

(** X1: the employment type that the LinkedIn client computes is one of
    the five values of the schema, and [saveLinkedInJob] stores it as it
    is, for every posting; a type that mentions INTERN is an INTERNSHIP
    for this client even when it also mentions FULL, where
    [mapEmploymentType] alone would answer FULL_TIME. *)
Theorem linkedin_employmentType_stored (now : Z) (job : LinkedInApi.LinkedInJob) :
  let t := mapJobType (first (LinkedInApi.employment_type job)) in
  In t ["FULL_TIME"; "PART_TIME"; "CONTRACT"; "INTERNSHIP"; "TEMPORARY"] /\
  JobDoc.employmentType (saveLinkedInJobDoc now (transformLinkedInJob now job)) = t /\
  (forall s, s <> EmptyString -> mentions s "INTERN" = true ->
             mapJobType (Some s) = "INTERNSHIP" /\
             (mentions s "FULL" = true -> mapEmploymentType (Some s) = "FULL_TIME")).
Proof.
  simpl. split; [apply mapJobType_range|]. split.
  - apply mapEmploymentType_fixes_enum, mapJobType_range.
  - intros s Hs Hi. unfold mentions in *.
    assert (Hn : negb (Str.truthy s) = false) by (destruct s; [congruence|reflexivity]).
    split.
    + unfold mapJobType. now rewrite Hn, Hi.
    + intros Hf. unfold mapEmploymentType. now rewrite Hn, Hf.
Qed.

Lemma linkedin_employmentType_stored_witness :
  mapJobType (Some "Full-time Internship") = "INTERNSHIP" /\
  mapEmploymentType (Some "Full-time Internship") = "FULL_TIME".
Proof.
  destruct (linkedin_employmentType_stored 0 (rawJob "a")) as (_ & _ & H).
  destruct (H "Full-time Internship") as [H1 H2]; [discriminate | reflexivity |].
  split; [exact H1 | apply H2; reflexivity].
Defined.

Lemma mapExperienceLevel_range (level : option string) :
  In (mapExperienceLevel level) ["ENTRY"; "MID"; "SENIOR"; "EXECUTIVE"].
Proof.
  unfold mapExperienceLevel.
  destruct level as [l|]; [|simpl; tauto].
  destruct (negb (Str.truthy l)); [simpl; tauto|].
  repeat match goal with
         | |- context [if ?b then _ else _] => destruct b
         end; simpl; tauto.
Qed.

(** X2: the experience level that the LinkedIn client computes is ENTRY,
    MID, SENIOR or EXECUTIVE, never LEAD; it is ENTRY when the posting
    tells no seniority; [saveLinkedInJob] stores it as it is, and it is a
    value of the schema's enum. *)
Theorem linkedin_experienceLevel_stored (now : Z) (job : LinkedInApi.LinkedInJob) :
  let l := mapExperienceLevel (LinkedInApi.seniority job) in
  In l ["ENTRY"; "MID"; "SENIOR"; "EXECUTIVE"] /\
  l <> "LEAD" /\
  In l experienceLevelEnum /\
  (LinkedInApi.seniority job = None -> l = "ENTRY") /\
  JobDoc.experienceLevel (saveLinkedInJobDoc now (transformLinkedInJob now job)) = Some l.
Proof.
  simpl. pose proof (mapExperienceLevel_range (LinkedInApi.seniority job)) as H.
  split; [exact H|].
  split; [simpl in H; intros E; rewrite E in H; intuition discriminate|].
  split; [simpl in *; intuition|].
  split; [now intros ->|].
  f_equal. simpl in H.
  destruct H as [<-|[<-|[<-|[<-|[]]]]]; reflexivity.
Qed.

Lemma linkedin_experienceLevel_stored_witness :
  mapExperienceLevel (LinkedInApi.seniority (rawJob "a")) <> "LEAD" /\
  JobDoc.experienceLevel (saveLinkedInJobDoc 0 (transformLinkedInJob 0 (rawJob "a")))
  = Some "MID".
Proof.
  destruct (linkedin_experienceLevel_stored 0 (rawJob "a")) as (_ & Hne & _ & _ & Hs).
  split; [exact Hne | exact Hs].
Defined.

Lemma handshakeMapJobType_range (jobType : option string) :
  In (handshakeMapJobType jobType) ["internship"; "part-time"; "contract"; "full-time"].
Proof.
  unfold handshakeMapJobType.
  destruct jobType as [t|]; [|simpl; tauto].
  destruct (negb (Str.truthy t)); [simpl; tauto|].
  repeat match goal with
         | |- context [if ?b then _ else _] => destruct b
         end; simpl; tauto.
Qed.

Lemma handshakeMapExperienceLevel_range (level : option string) :
  In (handshakeMapExperienceLevel level) ["entry"; "mid"; "senior"].
Proof.
  unfold handshakeMapExperienceLevel.
  destruct level as [l|]; [|simpl; tauto].
  destruct (negb (Str.truthy l)); [simpl; tauto|].
  repeat match goal with
         | |- context [if ?b then _ else _] => destruct b
         end; simpl; tauto.
Qed.

(** X3: whatever type and level a Handshake posting carries,
    [saveHandshakeJob] stores an employment type among FULL_TIME, PART_TIME,
    CONTRACT and INTERNSHIP, never TEMPORARY, and an experience level
    among ENTRY, MID and SENIOR; the lower-case words of the client are
    mapped to the upper-case values of the schema one to one. *)
Theorem handshake_type_and_level_stored (now : Z) (job : HandshakeApi.HandshakeJob) :
  let d := saveHandshakeJobDoc now (transformHandshakeJob now job) in
  In (JobDoc.employmentType d) ["FULL_TIME"; "PART_TIME"; "CONTRACT"; "INTERNSHIP"] /\
  JobDoc.employmentType d <> "TEMPORARY" /\
  (exists l, JobDoc.experienceLevel d = Some l /\ In l ["ENTRY"; "MID"; "SENIOR"]) /\
  map (fun t => mapEmploymentType (Some t)) ["internship"; "part-time"; "contract"; "full-time"]
    = ["INTERNSHIP"; "PART_TIME"; "CONTRACT"; "FULL_TIME"] /\
  map (fun l => upperLevel (Some l)) ["entry"; "mid"; "senior"] = ["ENTRY"; "MID"; "SENIOR"].
Proof.
  intros d.
  assert (Hd : JobDoc.employmentType d =
               mapEmploymentType (Some (handshakeMapJobType
                 (optOr (HandshakeApi.job_type job) (HandshakeApi.employment_type job)))))
    by reflexivity.
  assert (Hx : JobDoc.experienceLevel d =
               Some (upperLevel (Some (handshakeMapExperienceLevel
                                         (HandshakeApi.experience_level job)))))
    by reflexivity.
  rewrite Hd, Hx. clear Hd Hx d.
  pose proof (handshakeMapJobType_range
                (optOr (HandshakeApi.job_type job) (HandshakeApi.employment_type job))) as Ht.
  pose proof (handshakeMapExperienceLevel_range (HandshakeApi.experience_level job)) as Hl.
  set (t := handshakeMapJobType _) in *. set (l := handshakeMapExperienceLevel _) in *.
  assert (He : In (mapEmploymentType (Some t))
                  ["FULL_TIME"; "PART_TIME"; "CONTRACT"; "INTERNSHIP"]).
  { destruct Ht as [<-|[<-|[<-|[<-|[]]]]]; simpl; tauto. }
  split; [exact He|].
  split; [intros E; rewrite E in He; simpl in He; intuition discriminate|].
  split; [|split; reflexivity].
  eexists. split; [reflexivity|].
  destruct Hl as [<-|[<-|[<-|[]]]]; simpl; tauto.
Qed.

Example handshake_temporary_is_full_time :
  let d := saveHandshakeJobDoc 0 (transformHandshakeJob 0 (rawHandshakeJob "h-9")) in
  (JobDoc.employmentType d, JobDoc.experienceLevel d, JobDoc.location d)
  = ("FULL_TIME", Some "SENIOR", "Austin, TX").
Proof. reflexivity. Qed.

(** ** The transformations of the two clients *)

Lemma join_truthy (sep p : string) (rest : list string) :
  Str.truthy p = true -> Str.truthy (join sep (p :: rest)) = true.
Proof.
  intros Hp. destruct p as [|a p]; [discriminate|].
  destruct rest; reflexivity.
Qed.

Lemma filterBoolean_truthy (parts : list (option string)) :
  Forall (fun s => Str.truthy s = true) (filterBoolean parts).
Proof.
  induction parts as [|o parts IH]; [constructor|].
  unfold filterBoolean in *. simpl.
  destruct o as [s|]; [|exact IH].
  destruct (Str.truthy s) eqn:Hs; [|exact IH].
  simpl. now constructor.
Qed.

Lemma handshakeLocation_truthy (l : option HandshakeApi.Location) :
  Str.truthy (handshakeLocation l) = true.
Proof.
  unfold handshakeLocation. destruct l as [loc|]; [|reflexivity].
  pose proof (filterBoolean_truthy
                [HandshakeApi.city loc; HandshakeApi.state loc; HandshakeApi.country loc]) as H.
  destruct (filterBoolean _) as [|p rest]; simpl.
  - unfold Str.orElse. now destruct (Str.truthy (HandshakeApi.name loc)) eqn:E.
  - inversion H; subst. now apply join_truthy.
Qed.

(** X4: [transformHandshakeJobs] answers the empty list for a body without
    jobs; otherwise it keeps the postings one for one and in order, with
    their ids, under the source HANDSHAKE; the location and the company
    of a transformed posting are never empty, and a posting that names
    neither city, state nor country is located by the name of its
    location. *)
Theorem transformHandshakeJobs_shape (now : Z) :
  transformHandshakeJobs now None = [] /\
  (forall jobs,
      let ts := transformHandshakeJobs now (Some jobs) in
      map Handshake.sourceJobId ts = map HandshakeApi.id jobs /\
      Forall (fun t => Handshake.source t = "HANDSHAKE" /\
                       Str.truthy (Handshake.location t) = true /\
                       Str.truthy (Handshake.company t) = true) ts) /\
  (forall job loc,
      HandshakeApi.location job = Some loc ->
      HandshakeApi.city loc = None -> HandshakeApi.state loc = None ->
      HandshakeApi.country loc = None ->
      Handshake.location (transformHandshakeJob now job)
      = Str.orElse (HandshakeApi.name loc) "Not specified").
Proof.
  split; [reflexivity|]. split.
  - intros jobs. simpl. split.
    + rewrite map_map. reflexivity.
    + apply List.Forall_forall. intros t Ht.
      apply in_map_iff in Ht as (job & <- & _). simpl.
      split; [reflexivity|]. split; [apply handshakeLocation_truthy|].
      unfold Str.optOrElse, Str.orElse.
      destruct (HandshakeApi.employer job) as [e|]; [|reflexivity].
      now destruct (Str.truthy e) eqn:E.
  - intros job loc Hloc Hc Hs Hn. simpl. rewrite Hloc.
    unfold handshakeLocation. now rewrite Hc, Hs, Hn.
Qed.

Lemma transformHandshakeJobs_shape_witness :
  Handshake.location (transformHandshakeJob 0 campusJob) = "Campus".
Proof.
  destruct (transformHandshakeJobs_shape 0) as (_ & _ & H).
  exact (H campusJob
           {| HandshakeApi.name := "Campus"; HandshakeApi.city := None;
              HandshakeApi.state := None; HandshakeApi.country := None |}
           eq_refl eq_refl eq_refl eq_refl).
Defined.



(** ** Which postings the schema lets in *)












(** ** The caches of the two clients *)

Lemma fresh_filled {A} (now now' : Z) (d : list A) :
  now <> 0%Z -> (now <= now' < now + 3600000)%Z ->
  Cache.fresh now' {| Cache.data := Some d; Cache.timestamp := Some now |} = Some d.
Proof.
  intros Hnz Hrange. unfold Cache.fresh, CACHE_DURATION. simpl.
  destruct (Z.eqb_spec now 0) as [E|_]; [contradiction|].
  destruct (Z.ltb_spec (now' - now) (60 * 60 * 1000)) as [_|H]; [reflexivity | lia].
Qed.

Lemma fresh_expired {A} (now' : Z) (c : Cache.t A) (ts : Z) :
  Cache.timestamp c = Some ts -> (ts + 3600000 <= now')%Z -> Cache.fresh now' c = None.
Proof.
  intros Hts Hlate. unfold Cache.fresh, CACHE_DURATION. rewrite Hts.
  destruct (Cache.data c); [|reflexivity].
  destruct (Z.ltb_spec (now' - ts) (60 * 60 * 1000)) as [H|_]; [lia|].
  now rewrite andb_false_r.
Qed.

(** X8: [fetchLinkedInJobs] with the API key set.  While the cache is
    fresh a call returns the cached list and sends no request, whatever
    its keywords and location; the cache is filled only by a body that is
    a non-empty array, and then every call of the following hour, for any
    keywords and any location, gets that same list; a request that throws
    answers the mock postings, a body that is empty or not an array the
    empty list, and neither touches the cache; one hour after the fill
    the cache is no longer used. *)
Theorem fetchLinkedInJobs_cache (now : Z) (key : option string) (keywords location : string)
    (reply : string -> option (option (list LinkedInApi.LinkedInJob)))
    (cache : Cache.t LinkedIn.TransformedJob) :
  optTruthy key = true ->
  (forall d, Cache.fresh now cache = Some d ->
             fetchLinkedInJobs now key keywords location reply cache = (d, cache)) /\
  (Cache.fresh now cache = None ->
   (reply location = None ->
    fetchLinkedInJobs now key keywords location reply cache
    = (getMockLinkedInJobs now, cache)) /\
   (reply location = Some None \/ reply location = Some (Some []) ->
    fetchLinkedInJobs now key keywords location reply cache = ([], cache)) /\
   (forall data,
       reply location = Some (Some data) -> data <> [] ->
       let filled := {| Cache.data := Some (transformLinkedInJobs now data);
                        Cache.timestamp := Some now |} in
       fetchLinkedInJobs now key keywords location reply cache
       = (transformLinkedInJobs now data, filled) /\
       (now <> 0%Z ->
        forall now' keywords' location' reply',
          (now <= now' < now + 3600000)%Z ->
          fetchLinkedInJobs now' key keywords' location' reply' filled
          = (transformLinkedInJobs now data, filled)) /\
       (forall now', (now + 3600000 <= now')%Z -> Cache.fresh now' filled = None))).
Proof.
  intros Hkey. unfold fetchLinkedInJobs. rewrite Hkey. simpl. split.
  - intros d Hd. now rewrite Hd.
  - intros Hstale. rewrite Hstale. split; [|split].
    + now intros ->.
    + now intros [-> | ->].
    + intros data Hr Hne. rewrite Hr.
      destruct data as [|job data]; [contradiction|]. simpl.
      split; [reflexivity|]. split.
      * intros Hnz now' keywords' location' reply' Hrange.
        now rewrite (fresh_filled now now' _ Hnz Hrange).
      * intros now' Hlate. now apply (fresh_expired now' _ now).
Qed.

Lemma fetchLinkedInJobs_cache_witness :
  let reply := fun location : string =>
                 if Str.eqs location "Austin" then Some (Some [rawJob "a"])
                 else Some (Some [rawJob "b"; rawJob "c"]) in
  let first_call := fetchLinkedInJobs 1000 (Some "key") "intern" "Austin" reply Cache.empty in
  map LinkedIn.sourceJobId (fst first_call) = ["a"] /\
  map LinkedIn.sourceJobId
      (fst (fetchLinkedInJobs 2000 (Some "key") "engineer" "Boston" reply (snd first_call)))
  = ["a"].
Proof.
  intros reply first_call.
  destruct (fetchLinkedInJobs_cache 1000 (Some "key") "intern" "Austin" reply Cache.empty
              eq_refl) as [_ H].
  destruct (H eq_refl) as (_ & _ & Hfill).
  destruct (Hfill [rawJob "a"] eq_refl ltac:(discriminate)) as (H1 & H2 & _).
  subst first_call. rewrite H1. cbn [fst snd]. split; [reflexivity|].
  rewrite (H2 ltac:(discriminate) 2000%Z "engineer" "Boston" reply ltac:(lia)).
  reflexivity.
Defined.

(** X9: [fetchHandshakeJobs] with the API key set.  While the cache is
    fresh a call returns the cached list and sends no request; otherwise
    every body that arrives fills the cache, also a body without jobs, and
    then every call of the following hour gets that same list, the empty
    one included, whatever the endpoint would answer by then; a request
    that throws answers the mock postings and leaves the cache as it
    was. *)
Theorem fetchHandshakeJobs_cache (now : Z) (key : option string)
    (reply : option (option (list HandshakeApi.HandshakeJob)))
    (cache : Cache.t Handshake.TransformedJob) :
  optTruthy key = true ->
  (forall d, Cache.fresh now cache = Some d ->
             fetchHandshakeJobs_ now key reply cache = (d, cache)) /\
  (Cache.fresh now cache = None ->
   (reply = None ->
    fetchHandshakeJobs_ now key reply cache = (getMockUniversityJobs now, cache)) /\
   (forall body,
       reply = Some body ->
       let filled := {| Cache.data := Some (transformHandshakeJobs now body);
                        Cache.timestamp := Some now |} in
       fetchHandshakeJobs_ now key reply cache = (transformHandshakeJobs now body, filled) /\
       (now <> 0%Z ->
        forall now' reply',
          (now <= now' < now + 3600000)%Z ->
          fetchHandshakeJobs_ now' key reply' filled
          = (transformHandshakeJobs now body, filled)))).
Proof.
  intros Hkey. unfold fetchHandshakeJobs_. rewrite Hkey. simpl. split.
  - intros d Hd. now rewrite Hd.
  - intros Hstale. rewrite Hstale. split.
    + now intros ->.
    + intros body ->. simpl. split; [reflexivity|].
      intros Hnz now' reply' Hrange.
      now rewrite (fresh_filled now now' _ Hnz Hrange).
Qed.

Lemma fetchHandshakeJobs_cache_witness :
  let first_call := fetchHandshakeJobs_ 1000 (Some "key") (Some None) Cache.empty in
  fst first_call = [] /\
  fst (fetchHandshakeJobs_ 2000 (Some "key") (Some (Some [rawHandshakeJob "h-9"]))
                           (snd first_call)) = [].
Proof.
  intros first_call.
  destruct (fetchHandshakeJobs_cache 1000 (Some "key") (Some None) Cache.empty eq_refl)
    as [_ H].
  destruct (H eq_refl) as (_ & Hfill).
  destruct (Hfill None eq_refl) as (H1 & H2).
  subst first_call. rewrite H1. cbn [fst snd]. split; [reflexivity|].
  rewrite (H2 ltac:(discriminate) 2000%Z _ ltac:(lia)). reflexivity.
Defined.

(** X10: without an API key both clients answer their mock postings, send
    no request and leave the cache as it was; the mock postings carry the
    sources HANDSHAKE-MOCK and LINKEDIN-MOCK, so that they never share a
    (source, sourceJobId) pair with a posting of the live endpoints. *)
Theorem clients_without_key (now : Z) (key : option string) :
  optTruthy key = false ->
  (forall keywords location reply cache,
      fetchLinkedInJobs now key keywords location reply cache
      = (getMockLinkedInJobs now, cache)) /\
  (forall reply cache,
      fetchHandshakeJobs_ now key reply cache = (getMockUniversityJobs now, cache)) /\
  Forall (fun t => LinkedIn.source t = "LINKEDIN-MOCK") (getMockLinkedInJobs now) /\
  Forall (fun t => Handshake.source t = "HANDSHAKE-MOCK") (getMockUniversityJobs now) /\
  (forall job t, In t (getMockLinkedInJobs now) ->
                 fetchedKey (FromLinkedIn t)
                 <> fetchedKey (FromLinkedIn (transformLinkedInJob now job))) /\
  (forall job t, In t (getMockUniversityJobs now) ->
                 fetchedKey (FromHandshake t)
                 <> fetchedKey (FromHandshake (transformHandshakeJob now job))).
Proof.
  intros Hkey. unfold fetchLinkedInJobs, fetchHandshakeJobs_. rewrite Hkey. simpl.
  split; [reflexivity|]. split; [reflexivity|].
  split; [repeat constructor|]. split; [repeat constructor|].
  split; intros job t Ht; repeat (destruct Ht as [<-|Ht]; [discriminate|]);
    destruct Ht.
Qed.

Lemma clients_without_key_witness :
  fst (fetchLinkedInJobs 5 None "intern" "Austin" (fun _ => None) Cache.empty)
  = getMockLinkedInJobs 5 /\
  fst (fetchHandshakeJobs_ 5 (Some EmptyString) None Cache.empty) = getMockUniversityJobs 5.
Proof.
  split.
  - destruct (clients_without_key 5 None eq_refl) as (H & _). now rewrite H.
  - destruct (clients_without_key 5 (Some EmptyString) eq_refl) as (_ & H & _).
    now rewrite H.
Defined.

(** ** getStats *)

Lemma bump_sum (s : string) (g : list (string * nat)) :
  list_sum (map snd (bump s g)) = S (list_sum (map snd g)).
Proof.
  induction g as [|[s' n] g IH]; simpl; [reflexivity|].
  destruct (Str.eqs s' s); simpl; [reflexivity | rewrite IH; lia].
Qed.

Lemma bump_countIn (s x : string) (g : list (string * nat)) :
  countIn x (bump s g) = if Str.eqs s x then S (countIn x g) else countIn x g.
Proof.
  unfold countIn. induction g as [|[s' n] g IH]; simpl.
  - destruct (Str.eqs s x); reflexivity.
  - destruct (Str.eqs s' s) eqn:E1; simpl.
    + apply eqs_true in E1. subst s'. destruct (Str.eqs s x); reflexivity.
    + destruct (Str.eqs s' x) eqn:E2; simpl.
      * apply eqs_true in E2. subst s'. unfold Str.eqs in E1 |- *.
        rewrite String.eqb_sym in E1. now rewrite E1.
      * exact IH.
Qed.

Lemma bump_keys (s : string) (g : list (string * nat)) :
  NoDup (map fst g) -> NoDup (map fst (bump s g)) /\
  forall x, In x (map fst (bump s g)) -> x = s \/ In x (map fst g).
Proof.
  induction g as [|[s' n] g IH]; simpl; intros Hnd.
  - split; [apply NoDup_singleton | intros x [<-|[]]; now left].
  - apply NoDup_cons in Hnd as [Hnotin Hnd].
    destruct (Str.eqs s' s) eqn:E; simpl.
    + split; [apply NoDup_cons; auto | intros x Hx; now right].
    + destruct (IH Hnd) as [IH1 IH2]. split.
      * apply NoDup_cons. split; [|assumption].
        intros Hin%list_elem_of_In. apply IH2 in Hin as [->|Hin].
        -- assert (Str.eqs s s = true) by now apply eqs_true. congruence.
        -- now apply Hnotin, list_elem_of_In.
      * intros x [->|Hx]; [right; now left|].
        apply IH2 in Hx as [->|Hx]; [now left | right; now right].
Qed.

Lemma groupBySource_facts (l : list IJob) (g : list (string * nat)) :
  NoDup (map fst g) ->
  let g' := fold_left (fun groups j => bump (source j) groups) l g in
  NoDup (map fst g') /\
  list_sum (map snd g') = list_sum (map snd g) + length l /\
  forall s, countIn s g' =
            countIn s g + length (List.filter (fun j => Str.eqs (source j) s) l).
Proof.
  revert g. induction l as [|j l IH]; intros g Hnd; simpl.
  - repeat split; [assumption | lia | intros; lia].
  - destruct (IH (bump (source j) g)) as (H1 & H2 & H3); [now apply bump_keys|].
    split; [exact H1|]. split.
    + rewrite H2, bump_sum. lia.
    + intros s. rewrite H3, bump_countIn.
      destruct (Str.eqs (source j) s); simpl; lia.
Qed.

Lemma fold_insert_lookup (g : list (string * nat)) (m : gmap string nat) (s : string) :
  NoDup (map fst g) ->
  fold_left (fun acc item => <[fst item := snd item]> acc) g m !! s =
  match List.find (fun p => Str.eqs (fst p) s) g with
  | Some p => Some (snd p)
  | None => m !! s
  end.
Proof.
  revert m. induction g as [|[k n] g IH]; intros m Hnd; simpl; [reflexivity|].
  apply NoDup_cons in Hnd as [Hnotin Hnd]. rewrite IH by assumption.
  destruct (Str.eqs k s) eqn:E.
  - apply eqs_true in E. subst k.
    destruct (List.find _ g) as [p|] eqn:Hfind.
    + exfalso. apply find_some in Hfind as [Hin Hp]. apply eqs_true in Hp.
      apply Hnotin, list_elem_of_In. simpl. rewrite <- Hp. now apply in_map.
    + simpl. apply lookup_insert_eq.
  - destruct (List.find _ g); [reflexivity|].
    simpl. apply lookup_insert_ne. intros ->.
    assert (Str.eqs s s = true) by now apply eqs_true. congruence.
Qed.

Lemma filter_filter_and {A} (P Q : A -> bool) (l : list A) :
  List.filter Q (List.filter P l) = List.filter (fun x => P x && Q x) l.
Proof.
  induction l as [|x l IH]; simpl; [reflexivity|].
  destruct (P x); simpl; [destruct (Q x); now rewrite IH | exact IH].
Qed.

Lemma countIn_pos (s : string) (g : list (string * nat)) :
  Forall (fun p => 0 < snd p) g ->
  List.find (fun p => Str.eqs (fst p) s) g = None <-> countIn s g = 0.
Proof.
  intros Hpos. unfold countIn.
  destruct (List.find _ g) as [p|] eqn:Hfind; [|tauto].
  apply find_some in Hfind as [Hin _].
  rewrite List.Forall_forall in Hpos. apply Hpos in Hin.
  split; [discriminate | lia].
Qed.

Lemma bump_pos (s : string) (g : list (string * nat)) :
  Forall (fun p => 0 < snd p) g -> Forall (fun p => 0 < snd p) (bump s g).
Proof.
  induction g as [|[s' n] g IH]; simpl; intros H.
  - repeat constructor.
  - inversion H; subst. destruct (Str.eqs s' s); constructor; simpl in *; auto; lia.
Qed.

Lemma groupBySource_pos (l : list IJob) (g : list (string * nat)) :
  Forall (fun p => 0 < snd p) g ->
  Forall (fun p => 0 < snd p) (fold_left (fun groups j => bump (source j) groups) l g).
Proof.
  revert g. induction l as [|j l IH]; intros g H; simpl; [assumption|].
  now apply IH, bump_pos.
Qed.

(** X11: in the statistics of [getStats] the active documents are at most
    the total; [bySource] has an entry exactly for the sources that have
    an active document, and the entry is the number of active documents
    of that source; the counts of the groups add up to [active]. *)
Theorem getStats_consistent (c : Collection) :
  Stats.active (getStats c) <= Stats.total (getStats c) /\
  (forall s, Stats.bySource (getStats c) !! s =
             if (activeOf s c =? 0)%nat then None else Some (activeOf s c)) /\
  list_sum (map snd (groupBySource (List.filter isActive (docs c))))
  = Stats.active (getStats c).
Proof.
  unfold getStats, groupBySource. simpl.
  destruct (groupBySource_facts (List.filter isActive (docs c)) [])
    as (Hnd & Hsum & Hcount); [constructor|].
  pose proof (groupBySource_pos (List.filter isActive (docs c)) [] ltac:(constructor)) as Hpos.
  split; [apply filter_length_le|]. split; [|exact Hsum].
  intros s. rewrite fold_insert_lookup by exact Hnd.
  assert (Hc : countIn s (fold_left (fun groups j => bump (source j) groups)
                                    (List.filter isActive (docs c)) []) = activeOf s c).
  { rewrite Hcount. unfold activeOf. now rewrite filter_filter_and. }
  pose proof (countIn_pos s _ Hpos) as Hz. rewrite Hc in Hz. unfold countIn in Hc.
  destruct (List.find _ _) as [p|].
  - rewrite Hc. destruct (Nat.eqb_spec (activeOf s c) 0) as [E|_]; [|reflexivity].
    apply Hz in E. discriminate.
  - rewrite <- Hc. reflexivity.
Qed.

Example getStats_example :
  let c := fst (aggregateJobs 0
              {| fetchJobs := fun name => if Str.eqs name "remoteok" then Some [exampleJob]
                                          else None;
                 fetchHandshakeJobs := Some (getMockUniversityJobs 0);
                 fetchLinkedIn := None |} emptyCollection) in
  let st := getStats (fst (cleanupOldJobs 2000000000 c)) in
  (Stats.total st, Stats.active st,
   Stats.bySource st !! "HANDSHAKE-MOCK", Stats.bySource st !! "REMOTEOK")
  = (6, 0, None, None) /\
  (Stats.total (getStats c), Stats.active (getStats c),
   Stats.bySource (getStats c) !! "HANDSHAKE-MOCK", Stats.bySource (getStats c) !! "REMOTEOK")
  = (6, 6, Some 5, Some 1).
Proof. vm_compute. split; reflexivity. Qed.

(** X12: [cleanupOldJobs] leaves the total of [getStats] as it was and
    lowers [active] by exactly the number it returns. *)
Theorem getStats_after_cleanup (now : Z) (c : Collection) :
  let c' := fst (cleanupOldJobs now c) in
  Stats.total (getStats c') = Stats.total (getStats c) /\
  Stats.active (getStats c) = Stats.active (getStats c') + snd (cleanupOldJobs now c).
Proof.
  simpl. split; [apply length_map|].
  induction (docs c) as [|j l IH]; simpl; [reflexivity|].
  assert (Hj : isStale now j = true -> isActive j = true)
    by (unfold isStale; now intros [_ H]%andb_true_iff).
  destruct (isStale now j) eqn:Hs; simpl.
  - rewrite Hj by reflexivity. simpl. rewrite IH. lia.
  - destruct (isActive j); simpl; rewrite IH; lia.
Qed.

(** ** Documents keep their identity *)

Lemma updateById_idKey (i : nat) (f : IJob -> IJob) (l : list IJob) :
  (forall j, In j l -> _id j = i -> idKey (f j) = idKey j) ->
  map idKey (updateById i f l) = map idKey l.
Proof.
  induction l as [|j l IH]; simpl; intros Hf; [reflexivity|].
  destruct (Nat.eqb_spec (_id j) i) as [E|E]; simpl.
  - rewrite Hf; auto.
  - rewrite IH; auto.
Qed.

Lemma saveFetched_grows (now : Z) (r : Fetched) (c : Collection) :
  wf c ->
  exists extra, map idKey (docs (saveFetched now r c)) = map idKey (docs c) ++ extra /\
                length extra <= 1.
Proof.
  intros Hwf. rewrite saveFetched_upserted by assumption.
  destruct Hwf as (Hids & Hlt & Hkeys). unfold findOne.
  destruct (List.find _ (docs c)) as [e|] eqn:Hfind; unfold upserted.
  - exists []. rewrite app_nil_r. split; [|simpl; lia]. simpl.
    apply find_some in Hfind as [Hin Hkey]. apply sameKey_true in Hkey.
    apply updateById_idKey. intros j Hj Hi.
    assert (j = e) as -> by (apply (NoDup_map_inj _id (docs c)); auto).
    unfold idKey. simpl. f_equal.
    rewrite <- (fetchedDoc_key now r), <- surjective_pairing in Hkey. now rewrite Hkey.
  - destruct (schemaValid _).
    + eexists [_]. simpl. rewrite map_app. split; [reflexivity | lia].
    + exists []. rewrite app_nil_r. split; [reflexivity | simpl; lia].
Qed.

Lemma runOp_wf (c : Collection) (op : Op) : wf c -> wf (runOp c op).
Proof.
  destruct op; [apply saveFetched_wf | apply cleanupOldJobs_wf].
Qed.

Lemma runOps_wf (ops : list Op) (c : Collection) : wf c -> wf (fold_left runOp ops c).
Proof.
  revert c. induction ops as [|op ops IH]; intros c Hwf; simpl; [assumption|].
  now apply IH, runOp_wf.
Qed.

Lemma cleanupOldJobs_idKey (now : Z) (c : Collection) :
  map idKey (docs (fst (cleanupOldJobs now c))) = map idKey (docs c).
Proof.
  simpl. rewrite map_map. apply map_ext. intros j.
  destruct (isStale now j); [|reflexivity].
  unfold idKey. f_equal; apply deactivate_keeps.
Qed.

Lemma runOps_grow (ops : list Op) (c : Collection) :
  wf c ->
  exists extra, map idKey (docs (fold_left runOp ops c)) = map idKey (docs c) ++ extra.
Proof.
  revert c. induction ops as [|op ops IH]; intros c Hwf; simpl.
  - exists []. now rewrite app_nil_r.
  - destruct (IH (runOp c op) (runOp_wf c op Hwf)) as [extra Hextra].
    rewrite Hextra. destruct op as [now r|now]; unfold runOp.
    + destruct (saveFetched_grows now r c Hwf) as (e1 & -> & _).
      exists (e1 ++ extra). now rewrite app_assoc.
    + rewrite cleanupOldJobs_idKey. now exists extra.
Qed.

Lemma getJobById_In (c : Collection) (j : IJob) :
  wf c -> In j (docs c) -> getJobById (_id j) c = Some j.
Proof.
  intros (Hids & _ & _) Hin. unfold getJobById.
  destruct (List.find _ (docs c)) as [e|] eqn:Hfind.
  - apply find_some in Hfind as [He Hi]. apply Nat.eqb_eq in Hi.
    f_equal. now apply (NoDup_map_inj _id (docs c)).
  - now apply find_id_In in Hfind.
Qed.

(** X13: no save and no cleanup ever deletes or re-orders a document or
    changes its [_id] or its (source, sourceJobId) pair: after any
    sequence of saves and cleanups the stored ids and pairs are those of
    before, in the same order, followed by those of the documents created
    since; one save creates at most one document. *)
Theorem documents_keep_identity (c : Collection) :
  wf c ->
  (forall ops, exists extra,
      map idKey (docs (fold_left runOp ops c)) = map idKey (docs c) ++ extra) /\
  (forall now r, exists extra,
      map idKey (docs (saveFetched now r c)) = map idKey (docs c) ++ extra /\
      length extra <= 1) /\
  (forall now, map idKey (docs (fst (cleanupOldJobs now c))) = map idKey (docs c)).
Proof.
  intros Hwf. split; [|split].
  - intros ops. now apply runOps_grow.
  - intros now r. now apply saveFetched_grows.
  - intros now. apply cleanupOldJobs_idKey.
Qed.

Lemma documents_keep_identity_witness :
  exists extra,
    map idKey (docs (fold_left runOp
                       [OpSave 1 (FromLinkedIn exampleLinkedInJob); OpCleanup 2000000000;
                        OpSave 2000000001 (FromApi exampleJob)]
                       (saveJob 0 exampleJob emptyCollection)))
    = map idKey (docs (saveJob 0 exampleJob emptyCollection)) ++ extra.
Proof.
  apply (documents_keep_identity (saveJob 0 exampleJob emptyCollection)).
  apply (saveFetched_wf 0 (FromApi exampleJob)), emptyCollection_wf.
Defined.

(** X14: [getJobById] finds every stored document by its [_id] and finds
    nothing under an id that was never handed out; and an id that denotes
    a posting keeps denoting a document of the same (source, sourceJobId)
    pair after any sequence of saves and cleanups. *)
Theorem getJobById_stable (c : Collection) :
  wf c ->
  (forall j, In j (docs c) -> getJobById (_id j) c = Some j) /\
  (forall i, nextId c <= i -> getJobById i c = None) /\
  (forall i j ops,
      getJobById i c = Some j ->
      exists j', getJobById i (fold_left runOp ops c) = Some j' /\ keyOf j' = keyOf j).
Proof.
  intros Hwf. split; [|split].
  - intros j Hin. now apply getJobById_In.
  - intros i Hi. unfold getJobById.
    destruct (List.find _ (docs c)) as [e|] eqn:Hfind; [|reflexivity].
    apply find_some in Hfind as [He Hid]. apply Nat.eqb_eq in Hid.
    destruct Hwf as (_ & Hlt & _). rewrite List.Forall_forall in Hlt.
    apply Hlt in He. lia.
  - intros i j ops Hget.
    apply find_some in Hget as [Hin Hid]. apply Nat.eqb_eq in Hid.
    destruct (runOps_grow ops c Hwf) as [extra Hextra].
    assert (Hk : In (idKey j) (map idKey (docs (fold_left runOp ops c)))).
    { rewrite Hextra. apply in_or_app. left. now apply in_map. }
    apply in_map_iff in Hk as (j' & Hj' & Hin').
    exists j'. injection Hj' as Hi' Hs' Hd'. split.
    + rewrite <- Hid, <- Hi'. apply getJobById_In; [now apply runOps_wf | assumption].
    + unfold keyOf. congruence.
Qed.

Lemma getJobById_stable_witness :
  exists j',
    getJobById 0 (fold_left runOp
                    [OpCleanup 2000000000; OpSave 2000000001 (FromLinkedIn exampleLinkedInJob)]
                    (saveJob 0 exampleJob emptyCollection)) = Some j' /\
    keyOf j' = ("REMOTEOK", "42").
Proof.
  destruct (getJobById_stable (saveJob 0 exampleJob emptyCollection)
              (saveFetched_wf 0 (FromApi exampleJob) _ emptyCollection_wf)) as (_ & _ & H).
  exact (H 0 _ _ eq_refl).
Defined.



(** ** What every stored document satisfies *)

Lemma inEnum_In (v : string) (e : list string) : inEnum v e = true -> In v e.
Proof.
  unfold inEnum. intros (x & Hx & Hv)%existsb_exists.
  apply eqs_true in Hv. now subst.
Qed.

Lemma schemaValid_key (d : JobDoc.t) :
  schemaValid d = true ->
  In (JobDoc.source d) sourceEnum /\ JobDoc.sourceJobId d <> EmptyString.
Proof.
  unfold schemaValid. intros H.
  repeat match goal with
         | H : _ && _ = true |- _ => apply andb_true_iff in H as [H ?]
         end.
  split; [now apply inEnum_In|].
  intros E. rewrite E in *. discriminate.
Qed.

Lemma fetchedDoc_employmentType (now : Z) (r : Fetched) :
  In (JobDoc.employmentType (castDoc (fetchedDoc now r))) employmentTypeEnum.
Proof. destruct r; apply mapEmploymentType_range. Qed.

Lemma Forall_updateById (P : IJob -> Prop) (i : nat) (f : IJob -> IJob) (l : list IJob) :
  Forall P l -> (forall j, In j l -> _id j = i -> P (f j)) -> Forall P (updateById i f l).
Proof.
  induction l as [|j l IH]; simpl; intros Hall Hf; [constructor|].
  inversion Hall; subst.
  destruct (Nat.eqb_spec (_id j) i); constructor; auto.
Qed.

Lemma saveFetched_enumsOk (now : Z) (r : Fetched) (c : Collection) :
  wf c -> Forall enumsOk (docs c) -> Forall enumsOk (docs (saveFetched now r c)).
Proof.
  intros Hwf Hall. rewrite saveFetched_upserted by assumption.
  destruct Hwf as (Hids & Hlt & Hkeys). unfold findOne.
  destruct (List.find _ (docs c)) as [e|] eqn:Hfind; unfold upserted.
  - apply find_some in Hfind as [Hin Hkey]. apply sameKey_true in Hkey.
    simpl. apply Forall_updateById; [assumption|]. intros j Hj Hi.
    assert (j = e) as -> by (apply (NoDup_map_inj _id (docs c)); auto).
    rewrite List.Forall_forall in Hall. destruct (Hall e Hin) as (_ & Hs & Hn).
    rewrite <- (fetchedDoc_key now r) in Hkey. injection Hkey as Hks Hki.
    split; [apply fetchedDoc_employmentType|]. simpl.
    split; [now rewrite <- Hks | now rewrite <- Hki].
  - destruct (schemaValid _) eqn:Hv; [|assumption].
    simpl. apply Forall_app. split; [assumption|]. constructor; [|constructor].
    destruct (schemaValid_key _ Hv) as [Hs Hn].
    split; [apply fetchedDoc_employmentType | split; assumption].
Qed.

Lemma runOp_enumsOk (c : Collection) (op : Op) :
  wf c -> Forall enumsOk (docs c) -> Forall enumsOk (docs (runOp c op)).
Proof.
  intros Hwf Hall. destruct op as [now r|now]; [now apply saveFetched_enumsOk|].
  simpl. apply List.Forall_forall. intros j' (j & <- & Hj)%in_map_iff.
  rewrite List.Forall_forall in Hall. apply Hall in Hj.
  destruct (isStale now j); [|assumption]. exact Hj.
Qed.

(** X16: every document that saves and cleanups leave in a collection
    that started empty has an employment type and a source among the
    values of the schema's enums and a sourceJobId that is not empty,
    although an update runs no validator. *)
Theorem stored_documents_enums (ops : list Op) :
  Forall enumsOk (docs (fold_left runOp ops emptyCollection)).
Proof.
  assert (H : forall c, wf c -> Forall enumsOk (docs c) ->
                        Forall enumsOk (docs (fold_left runOp ops c))).
  { induction ops as [|op ops IH]; intros c Hwf Hall; simpl; [assumption|].
    apply IH; [now apply runOp_wf | now apply runOp_enumsOk]. }
  apply H; [apply emptyCollection_wf | constructor].
Qed.

(** ** Running the aggregation again *)

Lemma schemaValid_now (now : Z) (r : Fetched) :
  schemaValid (castDoc (fetchedDoc now r)) = schemaValid (castDoc (fetchedDoc 0 r)).
Proof. destruct r; reflexivity. Qed.

Lemma settled_save (now : Z) (r : Fetched) (c : Collection) :
  wf c -> settled r c -> map idKey (docs (saveFetched now r c)) = map idKey (docs c).
Proof.
  intros Hwf Hs. rewrite saveFetched_upserted by assumption.
  destruct Hwf as (Hids & Hlt & Hkeys). unfold findOne.
  destruct (List.find _ (docs c)) as [e|] eqn:Hfind; unfold upserted.
  - simpl. apply find_some in Hfind as [Hin Hkey]. apply sameKey_true in Hkey.
    apply updateById_idKey. intros j Hj Hi.
    assert (j = e) as -> by (apply (NoDup_map_inj _id (docs c)); auto).
    unfold idKey. simpl. f_equal.
    rewrite <- (fetchedDoc_key now r), <- surjective_pairing in Hkey. now rewrite Hkey.
  - destruct Hs as [Hs|Hs].
    + exfalso. apply in_map_iff in Hs as (j & Hj & Hin).
      apply (find_none _ _ Hfind) in Hin.
      apply not_true_iff_false in Hin. apply Hin, sameKey_true.
      now rewrite Hj, <- surjective_pairing.
    + now rewrite schemaValid_now, Hs.
Qed.

Lemma saveFetched_settles (now : Z) (r : Fetched) (c : Collection) :
  wf c -> settled r (saveFetched now r c).
Proof.
  intros Hwf.
  destruct (findOne (fst (fetchedKey r)) (snd (fetchedKey r)) (saveFetched now r c))
    as [j|] eqn:Hj.
  - left. apply find_some in Hj as [Hin Hk]. apply sameKey_true in Hk.
    rewrite <- surjective_pairing in Hk. rewrite <- Hk. now apply in_map.
  - right. apply stored_exists in Hj as [_ Hv]; [|assumption].
    now rewrite <- (schemaValid_now now).
Qed.

Lemma settled_grows (r : Fetched) (c c' : Collection) (extra : list (nat * (string * string))) :
  map idKey (docs c') = map idKey (docs c) ++ extra -> settled r c -> settled r c'.
Proof.
  intros Hgrow [Hs|Hs]; [left | now right].
  apply in_map_iff in Hs as (j & Hj & Hin).
  assert (Hk : In (idKey j) (map idKey (docs c'))).
  { rewrite Hgrow. apply in_or_app. left. now apply in_map. }
  apply in_map_iff in Hk as (j' & Hj' & Hin').
  assert (Hk : keyOf j' = keyOf j) by (unfold idKey in Hj'; congruence).
  rewrite <- Hj, <- Hk. now apply in_map.
Qed.

Lemma saves_settle (now : Z) (rs : list Fetched) (c : Collection) :
  wf c ->
  Forall (fun r => settled r (fold_left (fun c r => saveFetched now r c) rs c)) rs.
Proof.
  revert c. induction rs as [|r rs IH]; intros c Hwf; simpl; [constructor|].
  pose proof (saveFetched_wf now r c Hwf) as Hwf1.
  constructor; [|now apply IH].
  pose proof (saveFetched_settles now r c Hwf) as Hs.
  assert (Hgrow : exists extra,
             map idKey (docs (fold_left (fun c r => saveFetched now r c) rs
                                        (saveFetched now r c)))
             = map idKey (docs (saveFetched now r c)) ++ extra).
  { clear Hs IH. generalize (saveFetched now r c) Hwf1. clear.
    induction rs as [|r rs IH]; intros c Hwf; simpl.
    - exists []. now rewrite app_nil_r.
    - destruct (IH _ (saveFetched_wf now r c Hwf)) as [extra ->].
      destruct (saveFetched_grows now r c Hwf) as (e1 & -> & _).
      exists (e1 ++ extra). now rewrite app_assoc. }
  destruct Hgrow as [extra Hgrow]. now apply (settled_grows r _ _ extra Hgrow).
Qed.

Lemma settled_saves (now : Z) (rs : list Fetched) (c : Collection) :
  wf c -> Forall (fun r => settled r c) rs ->
  map idKey (docs (fold_left (fun c r => saveFetched now r c) rs c)) = map idKey (docs c).
Proof.
  revert c. induction rs as [|r rs IH]; intros c Hwf Hall; simpl; [reflexivity|].
  inversion Hall as [|? ? Hr Hrs]; subst.
  pose proof (settled_save now r c Hwf Hr) as Hsame.
  rewrite IH; [exact Hsame | now apply saveFetched_wf |].
  apply List.Forall_forall. intros r' Hr'.
  rewrite List.Forall_forall in Hrs.
  apply (settled_grows r' c _ []); [now rewrite app_nil_r | now apply Hrs].
Qed.

(** X17: running [aggregateJobs] a second time on the same answers of the
    sources creates no document: the stored ids and pairs are those that
    the first run left, in the same order, whatever the time of the second
    run, and both runs return the same number. *)
Theorem aggregateJobs_again (now now' : Z) (w : Sources) (c : Collection) :
  wf c ->
  let c1 := fst (aggregateJobs now w c) in
  map idKey (docs (fst (aggregateJobs now' w c1))) = map idKey (docs c1) /\
  snd (aggregateJobs now' w c1) = snd (aggregateJobs now w c).
Proof.
  intros Hwf. simpl. rewrite !aggregateJobs_fold. simpl. split; [|reflexivity].
  apply settled_saves.
  - now apply saves_wf.
  - now apply saves_settle.
Qed.

Lemma aggregateJobs_again_witness :
  let w := {| fetchJobs := fun _ => Some [exampleJob];
              fetchHandshakeJobs := Some (getMockUniversityJobs 0);
              fetchLinkedIn := None |} in
  map idKey (docs (fst (aggregateJobs 9 w (fst (aggregateJobs 0 w emptyCollection)))))
  = map idKey (docs (fst (aggregateJobs 0 w emptyCollection))).
Proof.
  intros w. apply (aggregateJobs_again 0 9 w emptyCollection emptyCollection_wf).
Defined.

(** ** Cleaning up again *)

Lemma isStale_earlier (now now' : Z) (j : IJob) :
  (now' <= now)%Z -> isStale now' (if isStale now j then deactivate j else j) = false.
Proof.
  intros Hle. destruct (isStale now j) eqn:Hs.
  - unfold isStale. simpl. apply andb_false_r.
  - unfold isStale, twentyOneDaysAgo in *.
    apply andb_false_iff in Hs as [Hs|Hs]; [|rewrite Hs; apply andb_false_r].
    apply Z.ltb_ge in Hs.
    destruct (Z.ltb_spec (postedDate j) (now' - 21 * msPerDay)); [lia | reflexivity].
Qed.

(** X18: a cleanup that follows a cleanup, at the same time or an earlier
    one, with no save in between, deactivates nothing: it returns 0 and
    leaves the collection as it is. *)
Theorem cleanupOldJobs_again (now now' : Z) (c : Collection) :
  (now' <= now)%Z ->
  cleanupOldJobs now' (fst (cleanupOldJobs now c)) = (fst (cleanupOldJobs now c), 0).
Proof.
  intros Hle. unfold cleanupOldJobs at 1. simpl. f_equal.
  - f_equal. rewrite map_map.
    induction (docs c) as [|j l IH]; simpl; [reflexivity|].
    now rewrite isStale_earlier, IH by assumption.
  - induction (docs c) as [|j l IH]; simpl; [reflexivity|].
    now rewrite isStale_earlier by assumption.
Qed.

Lemma cleanupOldJobs_again_witness :
  cleanupOldJobs 2000000000
    (fst (cleanupOldJobs 2000000000 (saveJob 0 exampleJob emptyCollection)))
  = (fst (cleanupOldJobs 2000000000 (saveJob 0 exampleJob emptyCollection)), 0).
Proof. apply cleanupOldJobs_again. lia. Defined.

(** ** searchJobs: pages, filters, edges *)

Lemma pages_concat {A} (n k : nat) (l : list A) :
  concat (map (fun p => take n (drop ((p - 1) * n) l)) (seq 1 k)) = take (k * n) l.
Proof.
  induction k as [|k IH]; [reflexivity|].
  rewrite seq_S, map_app, concat_app, IH. simpl.
  rewrite app_nil_r, Nat.sub_0_r, take_take_drop. f_equal. apply Nat.add_comm.
Qed.

Lemma pageOf_take (eng : Engine) (filters : Filters.t) (limit_arg : Z) (c : Collection)
    (p : nat) :
  (0 < limit_arg)%Z -> 1 <= p ->
  pageOf eng filters limit_arg c p =
  take (Z.to_nat limit_arg)
       (drop ((p - 1) * Z.to_nat limit_arg)
             (sortByPostedDateDesc (find eng (buildQuery filters) c))).
Proof.
  intros Hl Hp. unfold pageOf, searchJobs, skip.
  destruct (Z.ltb_spec ((Z.of_nat p - 1) * limit_arg) 0) as [Hneg|_]; [nia|].
  simpl. unfold limit. destruct (Z.eqb_spec limit_arg 0); [lia|].
  rewrite Z.abs_eq by lia. do 2 f_equal. nia.
Qed.

(** X19: for a positive limit the pages of a search are consecutive
    slices of the matching documents sorted newest first: the first [k]
    pages, one after the other, are the first [k * limit] of them; the
    pages up to [pagination.pages] are all of them, each exactly once and
    in order; and every later page is empty. *)
Theorem searchJobs_pages_cover (eng : Engine) (filters : Filters.t) (limit_arg : Z)
    (c : Collection) :
  (0 < limit_arg)%Z ->
  let sorted := sortByPostedDateDesc (find eng (buildQuery filters) c) in
  (forall k, concat (map (pageOf eng filters limit_arg c) (seq 1 k))
             = take (k * Z.to_nat limit_arg) sorted) /\
  (exists last,
      (forall p r, 1 <= p ->
                   searchJobs eng filters (Z.of_nat p) limit_arg c = Some r ->
                   pages (pagination r) = Num (Z.of_nat last)) /\
      concat (map (pageOf eng filters limit_arg c) (seq 1 last)) = sorted /\
      (forall p, last < p -> pageOf eng filters limit_arg c p = [])).
Proof.
  intros Hl sorted.
  assert (Hk : forall k, concat (map (pageOf eng filters limit_arg c) (seq 1 k))
                         = take (k * Z.to_nat limit_arg) sorted).
  { intros k. rewrite <- pages_concat. f_equal. apply map_ext_in.
    intros p Hp%in_seq. apply pageOf_take; [assumption | lia]. }
  split; [exact Hk|].
  assert (Hlen : length sorted = length (find eng (buildQuery filters) c))
    by apply Permutation_length, sortByPostedDateDesc_perm.
  destruct (ceilDiv_pos (Z.of_nat (length sorted)) limit_arg Hl) as (q & Hq & Hle & Hlt).
  assert (Hq0 : (0 <= q)%Z) by nia.
  exists (Z.to_nat q). split; [|split].
  - intros p r Hp. unfold searchJobs, skip.
    destruct (Z.ltb_spec ((Z.of_nat p - 1) * limit_arg) 0) as [Hneg|_]; [nia|].
    intros [= <-]. simpl. unfold countDocuments. rewrite <- Hlen, Hq.
    now rewrite Z2Nat.id.
  - rewrite Hk. apply take_ge. nia.
  - intros p Hp. rewrite pageOf_take by (assumption || lia).
    rewrite drop_ge; [apply take_nil|].
    assert (Hcover : length sorted <= Z.to_nat q * Z.to_nat limit_arg) by nia.
    etransitivity; [exact Hcover|].
    apply Nat.mul_le_mono_r. lia.
Qed.

Lemma searchJobs_pages_cover_witness :
  let c := fst (aggregateJobs 0
              {| fetchJobs := fun _ => None;
                 fetchHandshakeJobs := Some (getMockUniversityJobs 0);
                 fetchLinkedIn := None |} emptyCollection) in
  concat (map (pageOf permissiveEngine noFilters 2 c) (seq 1 2))
  = take 4 (sortByPostedDateDesc (find permissiveEngine (buildQuery noFilters) c)).
Proof.
  intros c.
  destruct (searchJobs_pages_cover permissiveEngine noFilters 2 c ltac:(lia)) as [H _].
  exact (H 2).
Defined.

(** X20: the documents that a search matches are exactly the stored
    documents that are active and pass every filter that is set: a
    keyword, location or employment type that is the empty string, an
    empty list of skills and a visa flag that is false set no filter,
    whereas [remote] filters on both of its values. *)
Theorem searchJobs_filters (eng : Engine) (filters : Filters.t) (c : Collection) (j : IJob) :
  In j (find eng (buildQuery filters) c) <->
  In j (docs c) /\
  isActive j = true /\
  (forall k, Filters.keywords filters = Some k -> k <> EmptyString ->
             textSearch eng k j = true) /\
  (forall l, Filters.location filters = Some l -> l <> EmptyString ->
             regexI eng l (location j) = true) /\
  (forall b, Filters.remote filters = Some b -> remote j = b) /\
  (Filters.h1b filters = true -> h1b (visaSponsorship j) = true) /\
  (Filters.opt filters = true -> opt (visaSponsorship j) = true) /\
  (Filters.stemOpt filters = true -> stemOpt (visaSponsorship j) = true) /\
  (forall t, Filters.employmentType filters = Some t -> t <> EmptyString ->
             employmentType j = t) /\
  (forall l, Filters.skills filters = Some l -> l <> [] -> skillsIn eng l j = true).
Proof.
  unfold find. rewrite filter_In. unfold queryMatches, buildQuery.
  rewrite !forallb_app, !andb_true_iff.
  assert (H0 : forallb (fun cond => condHolds eng cond j) [CIsActive true] = true
               <-> isActive j = true).
  { simpl. rewrite andb_true_r. now destruct (isActive j). }
  assert (H1 : forallb (fun cond => condHolds eng cond j)
                 match Filters.keywords filters with
                 | Some k => if Str.truthy k then [CText k] else []
                 | None => []
                 end = true
               <-> forall k, Filters.keywords filters = Some k -> k <> EmptyString ->
                             textSearch eng k j = true).
  { destruct (Filters.keywords filters) as [k|]; [|split; [discriminate | reflexivity]].
    destruct k as [|a k]; simpl.
    - split; [intros _ k' [= <-] Hne; congruence | reflexivity].
    - rewrite andb_true_r. split; [intros H k' [= <-] _; exact H|].
      intros H. now apply H. }
  assert (H2 : forallb (fun cond => condHolds eng cond j)
                 match Filters.location filters with
                 | Some l => if Str.truthy l then [CLocationRegex l] else []
                 | None => []
                 end = true
               <-> forall l, Filters.location filters = Some l -> l <> EmptyString ->
                             regexI eng l (location j) = true).
  { destruct (Filters.location filters) as [k|]; [|split; [discriminate | reflexivity]].
    destruct k as [|a k]; simpl.
    - split; [intros _ k' [= <-] Hne; congruence | reflexivity].
    - rewrite andb_true_r. split; [intros H k' [= <-] _; exact H|].
      intros H. now apply H. }
  assert (H3 : forallb (fun cond => condHolds eng cond j)
                 match Filters.remote filters with
                 | Some b => [CRemote b]
                 | None => []
                 end = true
               <-> forall b, Filters.remote filters = Some b -> remote j = b).
  { destruct (Filters.remote filters) as [b|]; [|split; [discriminate | reflexivity]].
    simpl. rewrite andb_true_r. split.
    - intros H b' [= <-]. now apply eqb_prop.
    - intros H. rewrite (H b eq_refl). apply eqb_reflx. }
  assert (H4 : forallb (fun cond => condHolds eng cond j)
                 (if Filters.h1b filters then [CVisaH1b] else []) = true
               <-> (Filters.h1b filters = true -> h1b (visaSponsorship j) = true)).
  { destruct (Filters.h1b filters); simpl; [rewrite andb_true_r|]; intuition congruence. }
  assert (H5 : forallb (fun cond => condHolds eng cond j)
                 (if Filters.opt filters then [CVisaOpt] else []) = true
               <-> (Filters.opt filters = true -> opt (visaSponsorship j) = true)).
  { destruct (Filters.opt filters); simpl; [rewrite andb_true_r|]; intuition congruence. }
  assert (H6 : forallb (fun cond => condHolds eng cond j)
                 (if Filters.stemOpt filters then [CVisaStemOpt] else []) = true
               <-> (Filters.stemOpt filters = true -> stemOpt (visaSponsorship j) = true)).
  { destruct (Filters.stemOpt filters); simpl; [rewrite andb_true_r|]; intuition congruence. }
  assert (H7 : forallb (fun cond => condHolds eng cond j)
                 match Filters.employmentType filters with
                 | Some t => if Str.truthy t then [CEmploymentType t] else []
                 | None => []
                 end = true
               <-> forall t, Filters.employmentType filters = Some t -> t <> EmptyString ->
                             employmentType j = t).
  { destruct (Filters.employmentType filters) as [k|]; [|split; [discriminate | reflexivity]].
    destruct k as [|a k]; simpl.
    - split; [intros _ k' [= <-] Hne; congruence | reflexivity].
    - rewrite andb_true_r, eqs_true. split; [intros H k' [= <-] _; exact H|].
      intros H. now apply H. }
  assert (H8 : forallb (fun cond => condHolds eng cond j)
                 match Filters.skills filters with
                 | Some l => if (0 <? length l)%nat then [CSkillsIn l] else []
                 | None => []
                 end = true
               <-> forall l, Filters.skills filters = Some l -> l <> [] ->
                             skillsIn eng l j = true).
  { destruct (Filters.skills filters) as [l|]; [|split; [discriminate | reflexivity]].
    destruct l as [|a l]; simpl.
    - split; [intros _ k' [= <-] Hne; congruence | reflexivity].
    - rewrite andb_true_r. split; [intros H k' [= <-] _; exact H|].
      intros H. now apply H. }
  rewrite H0, H1, H2, H3, H4, H5, H6, H7, H8. tauto.
Qed.

Example searchJobs_h1b_false_is_no_filter :
  let flagged := {| Api.id := "43"; Api.source := "remoteok"; Api.title := Some "Engineer";
                    Api.company := Some "Acme"; Api.location := None;
                    Api.description := Some "Build things"; Api.employmentType := None;
                    Api.remote := Some false;
                    Api.visaSponsorship := Some {| h1b := true; opt := false; stemOpt := false |};
                    Api.url := Some "https://example.com/43"; Api.postedDate := Some 1%Z;
                    Api.skills := None |} in
  let c := saveJob 0 flagged (saveJob 0 exampleJob emptyCollection) in
  map sourceJobId (pageOf permissiveEngine noFilters 20 c 1) = ["43"; "42"] /\
  map sourceJobId
      (pageOf permissiveEngine
         {| Filters.keywords := Some EmptyString; Filters.location := None;
            Filters.remote := Some false; Filters.h1b := false; Filters.opt := false;
            Filters.stemOpt := false; Filters.employmentType := None;
            Filters.skills := Some [] |} 20 c 1) = ["43"].
Proof. vm_compute. split; reflexivity. Qed.

(** X21: a search for a page below 1 with a positive limit is refused by
    the database, the skip being negative; a search with the limit 0 skips
    nothing and returns every matching document, newest first, whatever
    the page, and its [pages] is not a number of pages: [Infinity] when a
    document matches, [NaN] when none does. *)
Theorem searchJobs_edges (eng : Engine) (filters : Filters.t) (c : Collection) :
  (forall page_arg limit_arg,
      (page_arg < 1)%Z -> (0 < limit_arg)%Z ->
      searchJobs eng filters page_arg limit_arg c = None) /\
  (forall page_arg,
      exists r, searchJobs eng filters page_arg 0 c = Some r /\
                jobs r = sortByPostedDateDesc (find eng (buildQuery filters) c) /\
                pages (pagination r) =
                  match find eng (buildQuery filters) c with
                  | [] => NaN
                  | _ :: _ => Infinity
                  end).
Proof.
  split.
  - intros page_arg limit_arg Hp Hl. unfold searchJobs, skip.
    destruct (Z.ltb_spec ((page_arg - 1) * limit_arg) 0) as [_|H]; [reflexivity | nia].
  - intros page_arg. unfold searchJobs, skip.
    rewrite Z.mul_0_r. simpl. eexists. split; [reflexivity|]. simpl.
    split; [reflexivity|]. unfold countDocuments, ceilDiv. simpl.
    now destruct (find eng (buildQuery filters) c).
Qed.

Lemma searchJobs_edges_witness :
  searchJobs permissiveEngine noFilters 0 20 (saveJob 0 exampleJob emptyCollection) = None.
Proof.
  destruct (searchJobs_edges permissiveEngine noFilters (saveJob 0 exampleJob emptyCollection))
    as [H _].
  apply H; lia.
Defined.

Lemma searchJobs_filters_witness :
  In (newJob 0 (castDoc (saveJobDoc 0 exampleJob)))
     (find permissiveEngine
           (buildQuery {| Filters.keywords := Some EmptyString; Filters.location := None;
                          Filters.remote := Some true; Filters.h1b := false;
                          Filters.opt := false; Filters.stemOpt := false;
                          Filters.employmentType := Some "FULL_TIME";
                          Filters.skills := Some [] |})
           (saveJob 0 exampleJob emptyCollection)).
Proof.
  apply searchJobs_filters.
  split; [left; reflexivity|]. split; [reflexivity|].
  split; [intros k [= <-] H; congruence|].
  split; [discriminate|].
  split; [now intros b [= <-]|].
  split; [discriminate|]. split; [discriminate|]. split; [discriminate|].
  split; [now intros t [= <-] | intros l [= <-] H; congruence].
Defined.

(** ** fetchLinkedInMultiple with the API key set *)

Lemma fetchedBatches_In (now : Z) (env : LinkedInEnv) (locations : list string)
    (t : LinkedIn.TransformedJob) :
  In t (fetchedBatches now env locations) -> exists job, t = transformLinkedInJob now job.
Proof.
  unfold fetchedBatches. intros (l & Hl & Ht)%in_concat.
  apply in_map_iff in Hl as (location & <- & _).
  apply in_map_iff in Ht as (job & <- & _). now exists job.
Qed.

Lemma fetchedBatches_nothing (now : Z) (env : LinkedInEnv) (locations : list string) :
  (forall location, In location locations ->
                    get env location = None \/ get env location = Some []) ->
  fetchedBatches now env locations = [].
Proof.
  unfold fetchedBatches. induction locations as [|location locations IH]; intros H;
    [reflexivity|]. simpl.
  rewrite IH by (intros l Hl; apply H; now right).
  destruct (H location (or_introl eq_refl)) as [-> | ->]; reflexivity.
Qed.

(** X22: with the API key set [fetchLinkedInMultiple] never answers the
    mock postings: every job it returns comes from the endpoint, under the
    source LINKEDIN, there are no more of them than were fetched, and when
    each of the four requests fails or returns nothing the result is the
    empty list. *)
Theorem fetchLinkedInMultiple_live (now : Z) (env : LinkedInEnv) :
  optTruthy (RAPIDAPI_KEY env) = true ->
  let result := fetchLinkedInMultiple now env in
  Forall (fun t => LinkedIn.source t = "LINKEDIN" /\
                   exists job, t = transformLinkedInJob now job) result /\
  length result <= length (fetchedBatches now env locationFilters) /\
  ((forall location, In location locationFilters ->
                     get env location = None \/ get env location = Some []) ->
   result = []).
Proof.
  intros Hkey. unfold fetchLinkedInMultiple. rewrite Hkey. simpl negb. cbv iota.
  destruct (fetchLinkedInLoop_Deduped now env locationFilters) as [_ _ Hsub _ _].
  split; [|split].
  - apply List.Forall_forall. intros t Ht.
    apply list_elem_of_In in Ht. apply (elem_of_sublist _ _ _ Ht) in Hsub.
    apply list_elem_of_In, fetchedBatches_In in Hsub as [job ->].
    split; [reflexivity | now exists job].
  - now apply sublist_length.
  - intros Hnone. rewrite (fetchedBatches_nothing now env _ Hnone) in Hsub.
    now apply sublist_nil_r in Hsub.
Qed.

Lemma fetchLinkedInMultiple_live_witness :
  fetchLinkedInMultiple 0 {| RAPIDAPI_KEY := Some "key"; get := fun _ => None |} = [] /\
  length (fetchLinkedInMultiple 0 exampleEnv) <= 5.
Proof.
  split.
  - destruct (fetchLinkedInMultiple_live 0
                {| RAPIDAPI_KEY := Some "key"; get := fun _ => None |} eq_refl)
      as (_ & _ & H).
    apply H. intros location _. now left.
  - destruct (fetchLinkedInMultiple_live 0 exampleEnv eq_refl) as (_ & H & _).
    exact H.
Defined.

(** ** Bookmarks *)







(** X24: [bookmarkJob] changes no list when it does not answer with
    success: without a user id it answers 401, for a job id that denotes
    no document 404, also when that id is in the user's list, and for an
    unknown user 404. *)
Theorem bookmarkJob_refusals (jobId : nat) (c : Collection) (users : gmap nat (list nat)) :
  bookmarkJob None jobId c users = (Unauthorized, users) /\
  (forall u, getJobById jobId c = None ->
             bookmarkJob (Some u) jobId c users = (JobNotFound, users)) /\
  (forall u, wf c -> nextId c <= jobId ->
             bookmarkJob (Some u) jobId c users = (JobNotFound, users)) /\
  (forall u j, getJobById jobId c = Some j -> users !! u = None ->
               bookmarkJob (Some u) jobId c users = (UserNotFound, users)).
Proof.
  split; [reflexivity|]. split; [|split].
  - intros u Hj. unfold bookmarkJob. now rewrite Hj.
  - intros u Hwf Hi. unfold bookmarkJob.
    destruct (getJobById jobId c) as [e|] eqn:Hfind; [|reflexivity].
    apply find_some in Hfind as [He Hid]. apply Nat.eqb_eq in Hid.
    destruct Hwf as (_ & Hlt & _). rewrite List.Forall_forall in Hlt.
    apply Hlt in He. lia.
  - intros u j Hj Hu. unfold bookmarkJob. now rewrite Hj, Hu.
Qed.

Lemma bookmarkJob_refusals_witness :
  bookmarkJob (Some 7) 3 (saveJob 0 exampleJob emptyCollection) {[ 7 := [3] ]}
  = (JobNotFound, {[ 7 := [3] ]}).
Proof.
  destruct (bookmarkJob_refusals 3 (saveJob 0 exampleJob emptyCollection) {[ 7 := [3] ]})
    as (_ & _ & H & _).
  apply H; [|simpl; lia].
  apply (saveFetched_wf 0 (FromApi exampleJob)), emptyCollection_wf.
Defined.




(** ** Saved jobs by application status *)

Lemma applicationMap_last (before after : list (nat * string)) (i : nat) (s : string) :
  ~ In i (map fst after) ->
  applicationMap (before ++ (i, s) :: after) !! i = Some s.
Proof.
  intros Hnotin. unfold applicationMap. rewrite fold_left_app. simpl.
  generalize (fold_left (fun m app => <[fst app := snd app]> m) before
                        (∅ : gmap nat string)).
  induction after as [|[k v] after IH]; intros m; simpl.
  - apply lookup_insert_eq.
  - simpl in Hnotin. rewrite insert_insert_ne by (intros E; apply Hnotin; now left).
    apply IH. intros H. apply Hnotin. now right.
Qed.

(** X26: [getOrganizedSavedJobs] puts every saved job in exactly one of
    [applied] and [interested], in the order of the bookmarks, and never
    any in [notInterested]: a job is under [applied], with its status,
    exactly when the last application found for it has a status that is
    neither empty nor SAVED. *)
Theorem organize_partitions (saved : list IJob) (applications : list (nat * string)) :
  let isApplied := fun job : IJob =>
    match applicationMap applications !! _id job with
    | Some appStatus => Str.truthy appStatus && negb (Str.eqs appStatus "SAVED")
    | None => false
    end in
  let o := organize saved applications in
  notInterested o = [] /\
  map fst (applied o) = List.filter isApplied saved /\
  interested o = List.filter (fun job => negb (isApplied job)) saved /\
  length (applied o) + length (interested o) = length saved /\
  (forall job s, In (job, s) (applied o) ->
                 applicationMap applications !! _id job = Some s) /\
  (forall before after i s,
      applications = before ++ (i, s) :: after -> ~ In i (map fst after) ->
      applicationMap applications !! i = Some s).
Proof.
  intros isApplied o. subst o. unfold organize.
  set (step := fun (organized : Organized) (job : IJob) => _).
  assert (H : forall l o0,
             let o := fold_left step l o0 in
             notInterested o = notInterested o0 /\
             map fst (applied o) = map fst (applied o0) ++ List.filter isApplied l /\
             interested o = interested o0 ++ List.filter (fun job => negb (isApplied job)) l /\
             (forall job s, In (job, s) (applied o) ->
                            In (job, s) (applied o0) \/
                            applicationMap applications !! _id job = Some s)).
  { induction l as [|job l IH]; intros o0; cbn [fold_left].
    - simpl. rewrite !app_nil_r. repeat split; auto.
    - destruct (IH (step o0 job)) as (H1 & H2 & H3 & H4).
      assert (Hs : notInterested (step o0 job) = notInterested o0 /\
                   map fst (applied (step o0 job))
                   = map fst (applied o0) ++ List.filter isApplied [job] /\
                   interested (step o0 job)
                   = interested o0 ++ List.filter (fun job => negb (isApplied job)) [job] /\
                   (forall job' s, In (job', s) (applied (step o0 job)) ->
                                   In (job', s) (applied o0) \/
                                   applicationMap applications !! _id job' = Some s)).
      { unfold step, isApplied. cbn [List.filter].
        destruct (applicationMap applications !! _id job) as [st|] eqn:Hst;
          [destruct (Str.truthy st && negb (Str.eqs st "SAVED")) eqn:Hc|];
          cbn [applied interested notInterested negb];
          rewrite ?map_app, ?app_nil_r; repeat split; auto.
        intros job' s [Hin|[[= <- <-]|[]]]%in_app_iff; auto. }
      destruct Hs as (S1 & S2 & S3 & S4).
      change (job :: l) with ([job] ++ l). rewrite !List.filter_app, !app_assoc.
      rewrite H1, H2, H3, S1, S2, S3. repeat split; auto.
      intros job' s Hin. apply H4 in Hin as [Hin|Hin]; auto. }
  destruct (H saved {| applied := []; interested := []; notInterested := [] |})
    as (H1 & H2 & H3 & H4). simpl in *.
  split; [exact H1|]. split; [exact H2|]. split; [exact H3|]. split.
  - rewrite <- (length_map fst), H2, H3.
    clear. induction saved as [|job l IH]; simpl; [reflexivity|].
    destruct (isApplied job); simpl; lia.
  - split.
    + intros job s Hin. apply H4 in Hin as [[]|Hin]. exact Hin.
    + intros before after i s -> Hnotin. now apply applicationMap_last.
Qed.

Lemma organize_partitions_witness :
  let job := newJob 0 (castDoc (saveJobDoc 0 exampleJob)) in
  applicationMap [(0, "APPLIED"); (0, "SAVED")] !! 0 = Some "SAVED" /\
  interested (organize [job] [(0, "APPLIED"); (0, "SAVED")]) = [job].
Proof.
  intros job.
  destruct (organize_partitions [job] [(0, "APPLIED"); (0, "SAVED")])
    as (_ & _ & Hi & _ & _ & Hlast).
  split.
  - apply (Hlast [(0, "APPLIED")] [] 0 "SAVED" eq_refl). simpl. tauto.
  - rewrite Hi. vm_compute. reflexivity.
Defined.

(** ** The university listing *)

Lemma stored_fields (now : Z) (r : Fetched) (c : Collection) (j : IJob) :
  wf c ->
  findOne (fst (fetchedKey r)) (snd (fetchedKey r)) (saveFetched now r c) = Some j ->
  employmentType j = JobDoc.employmentType (fetchedDoc now r) /\
  source j = JobDoc.source (fetchedDoc now r) /\
  (forall l, JobDoc.experienceLevel (fetchedDoc now r) = Some l -> experienceLevel j = l).
Proof.
  intros Hwf Hj. destruct (stored_shape now r c j Hwf Hj) as [[e ->] | ->];
    (split; [reflexivity|]; split; [reflexivity|]); intros l Hl; simpl;
    destruct r; simpl in *; rewrite ?Hl; congruence.
Qed.

(** X27: what [getUniversityJobs] lists.  An active document of the source
    HANDSHAKE or HANDSHAKE-MOCK is always relevant; a document of the
    source UNIVERSITY or MANUAL never is, whatever it holds; a document
    that [saveLinkedInJob] stored as a university job is relevant; and the
    listing does not read [isUniversityJob]: the document of an internship
    of a generic source is stored with the flag false and is relevant all
    the same. *)
Theorem university_listing (eng : Engine) (now : Z) (c : Collection) :
  wf c ->
  (forall j keywords location_ employmentType_,
      source j = "UNIVERSITY" \/ source j = "MANUAL" ->
      universityMatch eng keywords location_ employmentType_ j = false) /\
  (forall j, isActive j = true ->
             source j = "HANDSHAKE" \/ source j = "HANDSHAKE-MOCK" ->
             universityMatch eng None None None j = true) /\
  (forall jd j,
      LinkedIn.source jd = "LINKEDIN" \/ LinkedIn.source jd = "LINKEDIN-MOCK" ->
      findOne (LinkedIn.source jd) (LinkedIn.sourceJobId jd) (saveLinkedInJob now jd c)
      = Some j ->
      isUniversityJob j = true -> universityMatch eng None None None j = true) /\
  (forall jd j,
      In (Str.toUpperCase (Api.source jd))
         ["REMOTEOK"; "USAJOBS"; "ARBEITNOW"; "CAREERJET"; "JOOBLE"] ->
      mapEmploymentType (Api.employmentType jd) = "INTERNSHIP" ->
      findOne (Str.toUpperCase (Api.source jd)) (Api.id jd) (saveJob now jd c) = Some j ->
      isUniversityJob j = false /\ universityMatch eng None None None j = true).
Proof.
  intros Hwf. split; [|split; [|split]].
  - intros j k l t [Hs|Hs]; unfold universityMatch, universityRelevant;
      rewrite Hs; simpl; now rewrite andb_false_r.
  - intros j Ha [Hs|Hs]; unfold universityMatch, universityRelevant;
      rewrite Ha, Hs; reflexivity.
  - intros jd j Hsrc Hj Hu.
    destruct (stored_flags now (FromLinkedIn jd) c j Hwf Hj) as (Hf & _ & _ & Ha).
    destruct (stored_fields now (FromLinkedIn jd) c j Hwf Hj) as (He & Hs & Hl).
    specialize (Hl _ eq_refl). simpl in Hf, He, Hs, Hl.
    unfold universityMatch, universityRelevant. rewrite Ha, Hs, He, Hl.
    rewrite Hu in Hf. symmetry in Hf. apply orb_true_iff in Hf as [Hf|Hf].
    + apply eqs_true in Hf. rewrite Hf.
      destruct Hsrc as [-> | ->]; reflexivity.
    + unfold levelIs in Hf. destruct (LinkedIn.experienceLevel jd) as [x|]; [|discriminate].
      apply eqs_true in Hf. subst x.
      destruct Hsrc as [-> | ->]; simpl; now rewrite ?orb_true_r.
  - intros jd j Hsrc Hint Hj.
    destruct (stored_flags now (FromApi jd) c j Hwf Hj) as (Hf & _ & _ & Ha).
    destruct (stored_fields now (FromApi jd) c j Hwf Hj) as (He & Hs & _).
    simpl in Hf, He, Hs. split; [exact Hf|].
    unfold universityMatch, universityRelevant. rewrite Ha, Hs, He, Hint.
    simpl in Hsrc.
    destruct Hsrc as [<-|[<-|[<-|[<-|[<-|[]]]]]]; reflexivity.
Qed.

Lemma university_listing_witness :
  universityMatch permissiveEngine None None None
    (newJob 0 (castDoc (saveLinkedInJobDoc 0 exampleLinkedInJob))) = true.
Proof.
  destruct (university_listing permissiveEngine 0 emptyCollection emptyCollection_wf)
    as (_ & _ & H & _).
  apply (H exampleLinkedInJob); [now left | reflexivity | reflexivity].
Defined.

Lemma bump_filter_sum (P : string -> bool) (s : string) (g : list (string * nat)) :
  list_sum (map snd (List.filter (fun item => P (fst item)) (bump s g)))
  = list_sum (map snd (List.filter (fun item => P (fst item)) g))
    + (if P s then 1 else 0).
Proof.
  induction g as [|[s' n] g IH]; simpl.
  - destruct (P s); reflexivity.
  - destruct (Str.eqs s' s) eqn:E; simpl.
    + apply eqs_true in E. subst s'. destruct (P s); simpl; lia.
    + destruct (P s'); simpl; rewrite IH; lia.
Qed.

Lemma groupBySource_filter_sum (P : string -> bool) (l : list IJob) (g : list (string * nat)) :
  list_sum (map snd (List.filter (fun item => P (fst item))
                       (fold_left (fun groups j => bump (source j) groups) l g)))
  = list_sum (map snd (List.filter (fun item => P (fst item)) g))
    + length (List.filter (fun j => P (source j)) l).
Proof.
  revert g. induction l as [|j l IH]; intros g; simpl; [lia|].
  rewrite IH, bump_filter_sum. destruct (P (source j)); simpl; lia.
Qed.

Lemma universityStats_sums (total_ : nat) (groups : list (string * nat)) :
  let st := universityStats total_ groups in
  let isH := fun s => Str.includes s "HANDSHAKE" in
  let isL := fun s => negb (Str.includes s "HANDSHAKE") && Str.includes s "LINKEDIN" in
  let isO := fun s => negb (Str.includes s "HANDSHAKE") && negb (Str.includes s "LINKEDIN") in
  University.total st = total_ /\
  University.handshake st
  = list_sum (map snd (List.filter (fun item => isH (fst item)) groups)) /\
  University.linkedin st
  = list_sum (map snd (List.filter (fun item => isL (fst item)) groups)) /\
  University.other st
  = list_sum (map snd (List.filter (fun item => isO (fst item)) groups)).
Proof.
  intros st isH isL isO. unfold universityStats in st.
  set (step := fun (stats : University.Stats) (item : string * nat) => _) in st.
  assert (H : forall g s0,
             let s := fold_left step g s0 in
             University.total s = University.total s0 /\
             University.handshake s = University.handshake s0
               + list_sum (map snd (List.filter (fun item => isH (fst item)) g)) /\
             University.linkedin s = University.linkedin s0
               + list_sum (map snd (List.filter (fun item => isL (fst item)) g)) /\
             University.other s = University.other s0
               + list_sum (map snd (List.filter (fun item => isO (fst item)) g))).
  { induction g as [|[s n] g IH]; intros s0; cbn [fold_left].
    - simpl. repeat split; lia.
    - destruct (IH (step s0 (s, n))) as (H1 & H2 & H3 & H4).
      rewrite H1, H2, H3, H4. unfold step, isH, isL, isO. cbn [List.filter fst snd].
      destruct (Str.includes s "HANDSHAKE"); [|destruct (Str.includes s "LINKEDIN")];
        simpl; repeat split; lia. }
  destruct (H groups {| University.total := total_; University.handshake := 0;
                        University.linkedin := 0; University.other := 0 |})
    as (H1 & H2 & H3 & H4).
  subst st. simpl in *. auto.
Qed.

(** X28: for a positive page and a positive limit [getUniversityJobs]
    returns at most [limit] jobs, all of them active and relevant, taken
    newest first after [(page - 1) * limit] of them; [total] is the number
    of matching documents; the three counts of [stats] are the numbers of
    matching documents whose source contains HANDSHAKE, contains LINKEDIN
    but not HANDSHAKE, and contains neither, and they add up to
    [total]. *)
Theorem getUniversityJobs_result (eng : Engine) (pageNum limitNum : Z)
    (keywords location_ employmentType_ : option string) (c : Collection) :
  (0 < pageNum)%Z -> (0 < limitNum)%Z ->
  let matching := List.filter (universityMatch eng keywords location_ employmentType_)
                              (docs c) in
  exists r,
    getUniversityJobs eng pageNum limitNum keywords location_ employmentType_ c = Some r /\
    University.jobs r = take (Z.to_nat limitNum)
                             (drop (Z.to_nat ((pageNum - 1) * limitNum))
                                   (sortByPostedDateDesc matching)) /\
    length (University.jobs r) <= Z.to_nat limitNum /\
    Forall (fun j => In j (docs c) /\ isActive j = true /\ universityRelevant j = true)
           (University.jobs r) /\
    University.total (University.stats r) = length matching /\
    University.handshake (University.stats r)
    = length (List.filter (fun j => Str.includes (source j) "HANDSHAKE") matching) /\
    University.linkedin (University.stats r)
    = length (List.filter (fun j => negb (Str.includes (source j) "HANDSHAKE") &&
                                    Str.includes (source j) "LINKEDIN") matching) /\
    University.handshake (University.stats r) + University.linkedin (University.stats r)
    + University.other (University.stats r) = length matching.
Proof.
  intros Hp Hl matching. unfold getUniversityJobs, skip. fold matching.
  destruct (Z.ltb_spec ((pageNum - 1) * limitNum) 0) as [Hneg|_]; [nia|].
  eexists. split; [reflexivity|]. cbn [University.jobs University.stats].
  assert (Hlim : forall l, limit limitNum l = take (Z.to_nat limitNum) l).
  { intros l. unfold limit. destruct (Z.eqb_spec limitNum 0); [lia|].
    now rewrite Z.abs_eq by lia. }
  rewrite Hlim. split; [reflexivity|].
  split; [rewrite length_take; lia|]. split.
  - apply List.Forall_forall. intros j Hj%In_take%In_drop.
    apply (Permutation_in _ (sortByPostedDateDesc_perm _)) in Hj.
    apply filter_In in Hj as [Hin Hm]. split; [assumption|].
    unfold universityMatch in Hm.
    repeat match goal with
           | H : _ && _ = true |- _ => apply andb_true_iff in H as [H ?]
           end.
    auto.
  - destruct (universityStats_sums (length matching) (groupBySource matching))
      as (H1 & H2 & H3 & H4).
    unfold groupBySource in *.
    rewrite (groupBySource_filter_sum (fun s => Str.includes s "HANDSHAKE")) in H2.
    rewrite (groupBySource_filter_sum
               (fun s => negb (Str.includes s "HANDSHAKE") && Str.includes s "LINKEDIN"))
      in H3.
    rewrite (groupBySource_filter_sum
               (fun s => negb (Str.includes s "HANDSHAKE") &&
                         negb (Str.includes s "LINKEDIN"))) in H4.
    simpl in H2, H3, H4.
    split; [exact H1|]. split; [exact H2|]. split; [exact H3|].
    rewrite H2, H3, H4. clear. induction matching as [|j l IH]; simpl; [reflexivity|].
    destruct (Str.includes (source j) "HANDSHAKE"), (Str.includes (source j) "LINKEDIN");
      simpl; lia.
Qed.

Lemma getUniversityJobs_result_witness :
  let c := fst (aggregateJobs 0
              {| fetchJobs := fun name => if Str.eqs name "remoteok" then Some [exampleJob]
                                          else None;
                 fetchHandshakeJobs := Some (getMockUniversityJobs 0);
                 fetchLinkedIn := Some (getMockLinkedInJobs 0) |} emptyCollection) in
  exists r, getUniversityJobs permissiveEngine 1 50 None None None c = Some r /\
            University.stats r
            = {| University.total := 8; University.handshake := 5;
                 University.linkedin := 3; University.other := 0 |}.
Proof.
  intros c.
  destruct (getUniversityJobs_result permissiveEngine 1 50 None None None c
              ltac:(lia) ltac:(lia)) as (r & Hr & _).
  exists r. split; [exact Hr|].
  vm_compute in Hr. injection Hr as <-. reflexivity.
Defined.

(** ** The router *)

Lemma lowerChar_idem (a : ascii) : Str.lowerChar (Str.lowerChar a) = Str.lowerChar a.
Proof. destruct a as [[] [] [] [] [] [] [] []]; reflexivity. Qed.

Lemma toLowerCase_idem (s : string) :
  Str.toLowerCase (Str.toLowerCase s) = Str.toLowerCase s.
Proof.
  induction s as [|a s IH]; [reflexivity|].
  simpl. now rewrite lowerChar_idem, IH.
Qed.

Lemma truthy_toLowerCase (s : string) : Str.truthy (Str.toLowerCase s) = Str.truthy s.
Proof. destruct s; reflexivity. Qed.

Lemma pathMatches_toLowerCase (p : list Segment) (segs : list string) :
  pathMatches p (map Str.toLowerCase segs) = pathMatches p segs.
Proof.
  revert segs. induction p as [|seg p IH]; intros [|s segs]; simpl; try reflexivity.
  rewrite IH. f_equal. destruct seg; simpl.
  - now rewrite toLowerCase_idem.
  - apply truthy_toLowerCase.
Qed.

Lemma dispatch_toLowerCase (m : Method) (segs : list string) :
  dispatch m (map Str.toLowerCase segs) = dispatch m segs.
Proof.
  unfold dispatch. induction jobRoutes as [|r l IH]; [reflexivity|].
  simpl. now rewrite pathMatches_toLowerCase, IH.
Qed.

(** X29: the order of the router.  A route without a parameter answers
    the requests of its method and its path, whatever the case of the
    letters: no route before it takes them.  A GET of one segment other
    than search, stats and university is answered by [getJobById], without
    authentication, with that segment as the id.  No route answers a
    DELETE. *)
Theorem jobRoutes_order :
  (forall r segs,
      In r jobRoutes -> isSpecific r = true ->
      map Str.toLowerCase segs = map Str.toLowerCase (literals r) ->
      dispatch (method r) segs = Some r) /\
  (forall s,
      Str.truthy s = true ->
      ~ In (Str.toLowerCase s) ["search"; "stats"; "university"] ->
      exists r, dispatch GET [s] = Some r /\ handler r = "getJobById" /\
                path r = [Param "id"] /\ authenticateToken r = false) /\
  (forall segs, dispatch DELETE segs = None).
Proof.
  split; [|split].
  - intros r segs Hin Hspec Hsegs.
    rewrite <- dispatch_toLowerCase, Hsegs.
    unfold jobRoutes in Hin. simpl in Hin.
    repeat (destruct Hin as [<-|Hin];
            [first [reflexivity | vm_compute in Hspec; discriminate Hspec]|]).
    destruct Hin.
  - intros s Ht Hs.
    exists {| method := GET; path := [Param "id"]; authenticateToken := false;
              handler := "getJobById" |}.
    split; [|repeat split; reflexivity].
    unfold dispatch, jobRoutes.
    cbn [List.find method path methodEq pathMatches andb segmentMatches].
    rewrite ?andb_false_r, ?andb_true_r, Ht.
    assert (E : forall l, In l ["search"; "stats"; "university"] ->
                          Str.eqs (Str.toLowerCase l) (Str.toLowerCase s) = false).
    { intros l Hl. destruct (Str.eqs _ _) eqn:E; [|reflexivity].
      apply eqs_true in E. exfalso. apply Hs. rewrite <- E.
      simpl in Hl. destruct Hl as [<-|[<-|[<-|[]]]]; simpl; auto. }
    rewrite !E by (simpl; auto). reflexivity.
  - intros segs. reflexivity.
Qed.

Lemma jobRoutes_order_witness :
  (exists r, dispatch GET ["Saved"; "ORGANIZED"] = Some r /\
             handler r = "getOrganizedSavedJobs") /\
  (exists r, dispatch GET ["recommended"] = Some r /\ handler r = "getJobById").
Proof.
  destruct jobRoutes_order as (H1 & H2 & _). split.
  - eexists. split.
    + apply (H1 {| method := GET; path := [Lit "saved"; Lit "organized"];
                   authenticateToken := true; handler := "getOrganizedSavedJobs" |});
        [simpl; tauto | reflexivity | reflexivity].
    + reflexivity.
  - destruct (H2 "recommended") as (r & Hr & Hh & _).
    + reflexivity.
    + simpl. intros [E|[E|[E|[]]]]; discriminate E.
    + exists r. split; assumption.
Defined.
